(** * Dynamic inventory management: the indexed, thread-safe service

    A shallow embedding of

    - [inventory/service/thread_safe_inventory_service.py]
      (class [ThreadSafeInventoryService]),
    - [inventory/service/inventory_service.py] (class [Inventory], the
      unindexed reference implementation),
    - [inventory/models/inventory_items.py] (class [Item]) and
    - [inventory/exception/exceptions.py],

    together with the parts of the Python runtime these classes lean on:
    numbers with their comparison and arithmetic, string and tuple
    comparison, [dict] with its insertion order, list slicing,
    [bisect.bisect_left], [bisect.bisect_right], [bisect.insort],
    [functools.lru_cache], [sum] and [heapq.nlargest].

    Modelling decisions.

    - A price and a bound of a range query (annotated [float]) are Python
      numbers: an [int] of any size or a [float], which is a binary64
      value or a NaN.  Floats are the [spec_float] of the Standard Library
      at precision 53 and maximal exponent 1024, so that products and sums
      round as IEEE 754 has it.  Numbers compare by their exact values; a
      NaN compares with nothing, but is the same object as itself, which
      tuple comparison and dictionary lookup ask before they ask [==].
    - A quantity and the [k] of a top-K query (annotated [int]) are
      integers.
    - A Python [str] is the list of its code points ([list N]); comparison
      is lexicographic on code points, as in CPython.
    - Every method body runs under [with self._lock], so a call is one
      atomic transition of the service state; a call is modelled as a
      function from the state before to an outcome and the state after.
    - An exception leaves the state as it was at the [raise]; the state
      after a raising call is therefore part of the model, not assumed. *)

From Stdlib Require Import QArith Lqa SpecFloat.
From stdpp Require Import base tactics option numbers sorting list.

Local Open Scope Z_scope.

(** ** Python values *)

(** [str]: a sequence of code points. *)
Abbreviation str := (list N).

(** [dict] used as metadata: a string-keyed mapping whose values the
    service never looks at. *)
Abbreviation Metadata := (list (list N * list N)).

(** A number: an [int]; a [float] with its binary64 value, where
    [Float S754_nan] is the NaN that an arithmetic operation yields; or
    one of the NaN objects [float('nan')] that a caller holds, told apart
    by [obj]. *)
Inductive num :=
| Int (z : Z)
| Float (f : spec_float)
| Nan (obj : N).

Coercion Int : Z >-> num.

#[global] Instance spec_float_eq_dec : EqDecision spec_float :=
  ltac:(solve_decision).

#[global] Instance num_eq_dec : EqDecision num := ltac:(solve_decision).

(** An index entry, the tuple [(key, item_id)]. *)
Abbreviation entry := (num * list N)%type.

(** The exceptions of [inventory/exception/exceptions.py], and the
    built-in ones the code can run into: [KeyError] from a subscript on
    [_items], [OverflowError] from the conversion of an [int] that is too
    large for a [float].  The payload is the identifier that the message
    is built from. *)
Inductive Exception :=
| ItemNotFoundError (item_id : str)
| InvalidItemError
| KeyError (key : str)
| OverflowError.

Inductive outcome (A : Type) :=
| Returns (a : A)
| Raises (e : Exception).
Arguments Returns {A} a.
Arguments Raises {A} e.

Module Py.

(** The value of a number that is not a NaN: a rational, or an infinity. *)
Inductive xreal :=
| NegInf
| Real (q : Q)
| PosInf.

Definition float_value (f : spec_float) : option xreal :=
  match f with
  | S754_zero _ => Some (Real 0)
  | S754_infinity s => Some (if s then NegInf else PosInf)
  | S754_nan => None
  | S754_finite s m e =>
      Some (Real (inject_Z (if s then Z.neg m else Z.pos m) * (2 # 1) ^ e))
  end.

Definition value (x : num) : option xreal :=
  match x with
  | Int z => Some (Real (inject_Z z))
  | Float f => float_value f
  | Nan _ => None
  end.

(** [math.isnan(x)] *)
Definition isnan (x : num) : bool :=
  match value x with
  | Some _ => false
  | None => true
  end.

Definition xcompare (a b : xreal) : comparison :=
  match a, b with
  | NegInf, NegInf => Eq
  | NegInf, _ => Lt
  | _, NegInf => Gt
  | PosInf, PosInf => Eq
  | PosInf, _ => Gt
  | _, PosInf => Lt
  | Real q, Real r => (q ?= r)%Q
  end.

(** Two numbers, [int] or [float], compare as their exact values do; a
    NaN compares with nothing. *)
Definition compare (x y : num) : option comparison :=
  match value x, value y with
  | Some a, Some b => Some (xcompare a b)
  | _, _ => None
  end.

(** [x < y], [x == y] and [x <= y] on numbers. *)
Definition lt (x y : num) : bool :=
  match compare x y with
  | Some Lt => true
  | _ => false
  end.

Definition eq (x y : num) : bool :=
  match compare x y with
  | Some Eq => true
  | _ => false
  end.

Definition le (x y : num) : bool :=
  match compare x y with
  | Some Lt | Some Eq => true
  | _ => false
  end.

(** [x is y or x == y], the test that tuple comparison and dictionary
    lookup apply to a pair of elements. *)
Definition same (x y : num) : bool := bool_decide (x = y) || eq x y.

(** [float(x)] as float arithmetic applies it to an operand: an [int] is
    rounded to the nearest binary64 value, ties to even, and raises
    [OverflowError] where that is no finite value. *)
Definition as_double (x : num) : outcome spec_float :=
  match x with
  | Int z =>
      match binary_normalize 53 1024 z 0 false with
      | S754_infinity _ => Raises OverflowError
      | f => Returns f
      end
  | Float f => Returns f
  | Nan _ => Returns S754_nan
  end.

(** A binary operation: exact on two [int]s, binary64 arithmetic on the
    operands converted to [float] otherwise. *)
Definition arith (on_int : Z → Z → Z)
    (on_float : spec_float → spec_float → spec_float) (x y : num)
  : outcome num :=
  match x, y with
  | Int a, Int b => Returns (Int (on_int a b))
  | _, _ =>
      match as_double x with
      | Raises e => Raises e
      | Returns a =>
          match as_double y with
          | Raises e => Raises e
          | Returns b => Returns (Float (on_float a b))
          end
      end
  end.

(** [x * y] and [x + y] *)
Definition mul : num → num → outcome num := arith Z.mul (SFmul 53 1024).
Definition add : num → num → outcome num := arith Z.add (SFadd 53 1024).

(** [0.0] *)
Definition float_zero : num := Float (S754_zero false).

(** [s < t] on [str]. *)
Fixpoint str_ltb (s t : str) : bool :=
  match s, t with
  | [], [] => false
  | [], _ :: _ => true
  | _ :: _, [] => false
  | c :: s', d :: t' =>
      if bool_decide (c = d) then str_ltb s' t' else bool_decide (c < d)%N
  end.

(** [x < y] on 2-tuples [(number, str)]: the first position at which the
    two tuples hold neither the same object nor equal ones decides; where
    there is none the tuples are equal, and not less. *)
Definition tuple_ltb (x y : entry) : bool :=
  if same x.1 y.1 then
    if bool_decide (x.2 = y.2) then false else str_ltb x.2 y.2
  else lt x.1 y.1.

(** [x == y] on 2-tuples [(number, str)]. *)
Definition tuple_eqb (x y : entry) : bool :=
  same x.1 y.1 && bool_decide (x.2 = y.2).

(** [chr(0x10ffff)]: the one-character string holding the largest code
    point. *)
Definition chr_0x10ffff : str := [1114111%N].

(** [l[i:]] for a possibly negative [i]. *)
Definition slice_from {A} (l : list A) (i : Z) : list A :=
  let n := Z.of_nat (length l) in
  let start := if bool_decide (i < 0) then Z.max (n + i) 0 else Z.min i n in
  drop (Z.to_nat start) l.

(** [l[i:j]] for indices [0 <= i, j]. *)
Definition slice {A} (l : list A) (i j : nat) : list A :=
  take (j - i) (drop i l).

(** [x or {}] where [x] is [None] or a dict: an empty dict is falsy. *)
Definition or_empty (x : option Metadata) : Metadata :=
  match x with
  | None => []
  | Some [] => []
  | Some (kv :: m) => kv :: m
  end.

End Py.

(** ** [dict] keyed by [str], in insertion order *)

Module Dict.
Section Dict.
Context {V : Type}.

(** [d.get(k)] *)
Fixpoint get (d : list (str * V)) (k : str) : option V :=
  match d with
  | [] => None
  | (k', v) :: d' => if bool_decide (k' = k) then Some v else get d' k
  end.

(** [d[k] = v]: an existing key keeps its position, a new one goes
    last. *)
Fixpoint set (d : list (str * V)) (k : str) (v : V) : list (str * V) :=
  match d with
  | [] => [(k, v)]
  | (k', v') :: d' =>
      if bool_decide (k' = k) then (k', v) :: d'
      else (k', v') :: set d' k v
  end.

(** [del d[k]] where [k] is present; no change where it is absent. *)
Fixpoint remove (d : list (str * V)) (k : str) : list (str * V) :=
  match d with
  | [] => []
  | (k', v') :: d' =>
      if bool_decide (k' = k) then d' else (k', v') :: remove d' k
  end.

(** [d.pop(k, None)] *)
Definition pop (d : list (str * V)) (k : str)
  : option V * list (str * V) :=
  (get d k, remove d k).

Definition keys (d : list (str * V)) : list str := d.*1.
Definition values (d : list (str * V)) : list V := d.*2.
End Dict.
End Dict.

(** ** The [bisect] module *)

Module Bisect.

(** The loop shared by [bisect_left] and [bisect_right]:
    [while lo < hi: mid = (lo + hi) // 2; if <test a[mid]>: lo = mid + 1
    else: hi = mid].  [fuel] bounds the number of iterations; the loop
    needs no more of them than the interval is wide. *)
Fixpoint loop (go_right : entry → bool) (fuel : nat) (a : list entry)
    (lo hi : nat) : nat :=
  match fuel with
  | O => lo
  | S fuel' =>
      if bool_decide (lo < hi)%nat then
        let mid := ((lo + hi) / 2)%nat in
        match a !! mid with
        | Some y =>
            if go_right y then loop go_right fuel' a (mid + 1)%nat hi
            else loop go_right fuel' a lo mid
        | None => lo
        end
      else lo
  end.

(** [bisect.bisect_left(a, x)]: the test is [a[mid] < x]. *)
Definition bisect_left (a : list entry) (x : entry) : nat :=
  loop (λ y, Py.tuple_ltb y x) (length a) a 0 (length a).

(** [bisect.bisect_right(a, x)]: the test is [x < a[mid]], which moves
    [hi]; otherwise [lo] moves. *)
Definition bisect_right (a : list entry) (x : entry) : nat :=
  loop (λ y, negb (Py.tuple_ltb x y)) (length a) a 0 (length a).

(** [a.insert(i, x)] for [0 <= i]. *)
Definition list_insert_at (a : list entry) (i : nat) (x : entry)
  : list entry :=
  take i a ++ x :: drop i a.

(** [bisect.insort(a, x)] *)
Definition insort (a : list entry) (x : entry) : list entry :=
  list_insert_at a (bisect_right a x) x.

End Bisect.

(** ** Items *)

(** [inventory/models/inventory_items.py] *)
Module Models.
Record Item := mkItem { price : num; qty : Z; metadata : Metadata }.
End Models.
Export Models.

(** [Item.__init__(price, qty, metadata=None)] *)
Definition Item_init (price : num) (qty : Z) (metadata : option Metadata)
  : Item :=
  {| price := price; qty := qty; metadata := Py.or_empty metadata |}.

(** A method call: from the state before to the outcome and the state
    after. *)
Definition M (S A : Type) : Type := S → outcome A * S.

Definition ret {S A} (a : A) : M S A := λ s, (Returns a, s).
Definition raise {S A} (e : Exception) : M S A := λ s, (Raises e, s).
Definition bind {S A B} (m : M S A) (f : A → M S B) : M S B :=
  λ s, match m s with
       | (Returns a, s') => f a s'
       | (Raises e, s') => (Raises e, s')
       end.
Definition gets {S A} (f : S → A) : M S A := λ s, (Returns (f s), s).
Definition modify {S} (f : S → S) : M S () := λ s, (Returns (), f s).

Declare Scope py_scope.
Delimit Scope py_scope with py.
Notation "'let!' x ':=' m 'in' k" := (bind m (λ x, k))
  (at level 10, x name, m at level 100, k at level 200) : py_scope.
Notation "'do!' m 'in' k" := (bind m (λ _, k))
  (at level 10, m at level 100, k at level 200) : py_scope.

(** ** [functools.lru_cache] *)

Module Lru.
Section Lru.
Context {S K V : Type} (same_key : K → K → bool).

(** The entries of one cache, most recently used first.  A key is found
    as a dictionary finds it: under an entry whose arguments are, one by
    one, the same objects as the given ones, or equal to them. *)
Fixpoint lookup (c : list (K * V)) (k : K) : option V :=
  match c with
  | [] => None
  | (k', v) :: c' => if same_key k' k then Some v else lookup c' k
  end.

Definition forget (c : list (K * V)) (k : K) : list (K * V) :=
  filter (λ kv, same_key kv.1 k = false) c.

(** The key under which the entry for [k] is stored: the arguments of
    the call that made the entry. *)
Fixpoint stored_key (c : list (K * V)) (k : K) : K :=
  match c with
  | [] => k
  | (k', _) :: c' => if same_key k' k then k' else stored_key c' k
  end.

(** A call of a function wrapped by [@lru_cache(maxsize=maxsize)] with
    the arguments [k]: a hit returns the stored result and makes the
    entry the most recent one; a miss runs [body], and stores what it
    returns, dropping the least recently used entry when the cache is
    full.  An exception of [body] propagates and nothing is stored. *)
Definition cached (maxsize : nat)
    (cache : S → list (K * V)) (set_cache : list (K * V) → S → S)
    (k : K) (body : M S V) : M S V :=
  λ s, match lookup (cache s) k with
       | Some v =>
           (Returns v,
            set_cache ((stored_key (cache s) k, v) :: forget (cache s) k) s)
       | None =>
           match body s with
           | (Returns v, s') =>
               (Returns v, set_cache (take maxsize ((k, v) :: cache s')) s')
           | (Raises e, s') => (Raises e, s')
           end
       end.
End Lru.

(** The arguments [(low, high)] of a range query as a cache key. *)
Definition same_bounds (k k' : num * num) : bool :=
  Py.same k.1 k'.1 && Py.same k.2 k'.2.

(** The argument [k] of a top-K query as a cache key. *)
Definition same_int (k k' : Z) : bool := bool_decide (k = k').
End Lru.

(** ** [ThreadSafeInventoryService] *)

Module ThreadSafeInventoryService.

(** The instance attributes of [__slots__] (the lock apart) and the four
    caches that the [lru_cache] decorators attach to the query methods. *)
Record Service := mkService {
  _items : list (str * Item);
  _price_index : list entry;
  _quantity_index : list entry;
  range_query_quantity_cache : list ((num * num) * Z);
  range_query_value_cache : list ((num * num) * num);
  top_k_by_price_cache : list (Z * list (str * Item));
  top_k_by_quantity_cache : list (Z * list (str * Item))
}.

Definition set_items (f : list (str * Item) → list (str * Item))
    (s : Service) : Service :=
  mkService (f (_items s)) (_price_index s) (_quantity_index s)
    (range_query_quantity_cache s) (range_query_value_cache s)
    (top_k_by_price_cache s) (top_k_by_quantity_cache s).
Definition set_price_index (f : list entry → list entry)
    (s : Service) : Service :=
  mkService (_items s) (f (_price_index s)) (_quantity_index s)
    (range_query_quantity_cache s) (range_query_value_cache s)
    (top_k_by_price_cache s) (top_k_by_quantity_cache s).
Definition set_quantity_index (f : list entry → list entry)
    (s : Service) : Service :=
  mkService (_items s) (_price_index s) (f (_quantity_index s))
    (range_query_quantity_cache s) (range_query_value_cache s)
    (top_k_by_price_cache s) (top_k_by_quantity_cache s).
Definition set_range_query_quantity_cache (c : list ((num * num) * Z))
    (s : Service) : Service :=
  mkService (_items s) (_price_index s) (_quantity_index s)
    c (range_query_value_cache s)
    (top_k_by_price_cache s) (top_k_by_quantity_cache s).
Definition set_range_query_value_cache (c : list ((num * num) * num))
    (s : Service) : Service :=
  mkService (_items s) (_price_index s) (_quantity_index s)
    (range_query_quantity_cache s) c
    (top_k_by_price_cache s) (top_k_by_quantity_cache s).
Definition set_top_k_by_price_cache (c : list (Z * list (str * Item)))
    (s : Service) : Service :=
  mkService (_items s) (_price_index s) (_quantity_index s)
    (range_query_quantity_cache s) (range_query_value_cache s)
    c (top_k_by_quantity_cache s).
Definition set_top_k_by_quantity_cache (c : list (Z * list (str * Item)))
    (s : Service) : Service :=
  mkService (_items s) (_price_index s) (_quantity_index s)
    (range_query_quantity_cache s) (range_query_value_cache s)
    (top_k_by_price_cache s) c.

(** [__init__] *)
Definition init : Service := mkService [] [] [] [] [] [] [].

(** [_clear_caches] *)
Definition _clear_caches : M Service () :=
  modify (λ s, mkService (_items s) (_price_index s) (_quantity_index s)
                 [] [] [] []).

(** The four statements that [upsert_item] and [remove_item] repeat for
    each index:
    [idx = bisect.bisect_left(index, key)];
    [if idx < len(index) and index[idx] == key: index.pop(idx)]. *)
Definition discard_entry (index : list entry) (key : entry) : list entry :=
  let idx := Bisect.bisect_left index key in
  if bool_decide (idx < length index)%nat
     && from_option (λ e, Py.tuple_eqb e key) false (index !! idx)
  then delete idx index
  else index.

Definition upsert_item (item_id : str) (price : num) (qty : Z)
    (metadata : option Metadata) : M Service () :=
  (if Py.lt price 0 || bool_decide (qty < 0) then
     raise InvalidItemError
   else
     let! old := gets (λ s, Dict.get (_items s) item_id) in
     do! match old with
         | Some old =>
             do! modify (set_price_index
                   (λ a, discard_entry a (Models.price old, item_id))) in
             modify (set_quantity_index
                   (λ a, discard_entry a (Int (Models.qty old), item_id)))
         | None => ret ()
         end in
     do! modify (set_items (λ d,
           Dict.set d item_id
             (Item_init price qty (Some (Py.or_empty metadata))))) in
     do! modify (set_price_index (λ a, Bisect.insort a (price, item_id))) in
     do! modify (set_quantity_index
           (λ a, Bisect.insort a (Int qty, item_id))) in
     _clear_caches)%py.

Definition remove_item (item_id : str) : M Service () :=
  (let! item := (λ s, let '(v, d) := Dict.pop (_items s) item_id in
                      (Returns v, set_items (λ _, d) s)) in
   match item with
   | None => raise (ItemNotFoundError item_id)
   | Some item =>
       do! modify (set_price_index
             (λ a, discard_entry a (Models.price item, item_id))) in
       do! modify (set_quantity_index
             (λ a, discard_entry a (Int (Models.qty item), item_id))) in
       _clear_caches
   end)%py.

Definition get_item (item_id : str) : M Service Item :=
  λ s, match Dict.get (_items s) item_id with
       | Some item => (Returns item, s)
       | None => (Raises (ItemNotFoundError item_id), s)
       end.

(** [self._items[item_id]] *)
Definition subscript (d : list (str * Item)) (item_id : str)
  : outcome Item :=
  match Dict.get d item_id with
  | Some item => Returns item
  | None => Raises (KeyError item_id)
  end.

(** [for _, item_id in entries: itm = self._items[item_id];
    total = <total + term of itm>] *)
Fixpoint accumulate {T} (plus : T → Item → outcome T)
    (d : list (str * Item)) (entries : list entry) (total : T)
  : outcome T :=
  match entries with
  | [] => Returns total
  | (_, item_id) :: rest =>
      match subscript d item_id with
      | Returns itm =>
          match plus total itm with
          | Returns total' => accumulate plus d rest total'
          | Raises e => Raises e
          end
      | Raises e => Raises e
      end
  end.

(** [total += itm.qty], on the [int] that [total = 0] starts with. *)
Definition plus_qty (total : Z) (itm : Item) : outcome Z :=
  Returns (total + Models.qty itm).

(** [total += itm.price * itm.qty], on the [float] that [total = 0.0]
    starts with. *)
Definition plus_value (total : num) (itm : Item) : outcome num :=
  match Py.mul (Models.price itm) (Int (Models.qty itm)) with
  | Returns v => Py.add total v
  | Raises e => Raises e
  end.

(** [[(item_id, self._items[item_id]) for _, item_id in entries]] *)
Fixpoint resolve (d : list (str * Item)) (entries : list entry)
  : outcome (list (str * Item)) :=
  match entries with
  | [] => Returns []
  | (_, item_id) :: rest =>
      match subscript d item_id with
      | Returns itm =>
          match resolve d rest with
          | Returns r => Returns ((item_id, itm) :: r)
          | Raises e => Raises e
          end
      | Raises e => Raises e
      end
  end.

(** The price-index slice [self._price_index[left:right]] that both
    range queries walk. *)
Definition price_range (s : Service) (low high : num) : list entry :=
  let left := Bisect.bisect_left (_price_index s) (low, []) in
  let right := Bisect.bisect_right (_price_index s) (high, Py.chr_0x10ffff) in
  Py.slice (_price_index s) left right.

(** The undecorated bodies of the four query methods. *)
Definition range_query_quantity_body (low high : num) : M Service Z :=
  λ s, (accumulate plus_qty (_items s) (price_range s low high) 0, s).

Definition range_query_value_body (low high : num) : M Service num :=
  λ s, (accumulate plus_value (_items s) (price_range s low high)
          Py.float_zero, s).

Definition top_k_by_price_body (k : Z) : M Service (list (str * Item)) :=
  λ s, let slice_k := Py.slice_from (_price_index s) (- k) in
       (resolve (_items s) (reverse slice_k), s).

Definition top_k_by_quantity_body (k : Z) : M Service (list (str * Item)) :=
  λ s, let slice_k := Py.slice_from (_quantity_index s) (- k) in
       (resolve (_items s) (reverse slice_k), s).

(** The query methods as decorated. *)
Definition range_query_quantity (low high : num) : M Service Z :=
  Lru.cached Lru.same_bounds 128
    range_query_quantity_cache set_range_query_quantity_cache
    (low, high) (range_query_quantity_body low high).

Definition range_query_value (low high : num) : M Service num :=
  Lru.cached Lru.same_bounds 128
    range_query_value_cache set_range_query_value_cache
    (low, high) (range_query_value_body low high).

Definition top_k_by_price (k : Z) : M Service (list (str * Item)) :=
  Lru.cached Lru.same_int 64 top_k_by_price_cache set_top_k_by_price_cache
    k (top_k_by_price_body k).

Definition top_k_by_quantity (k : Z) : M Service (list (str * Item)) :=
  Lru.cached Lru.same_int 64
    top_k_by_quantity_cache set_top_k_by_quantity_cache
    k (top_k_by_quantity_body k).

(** [__len__] *)
Definition len : M Service nat := gets (λ s, length (_items s)).

(** [__iter__]: iterates over a copy of the items. *)
Definition iter : M Service (list (str * Item)) := gets _items.

End ThreadSafeInventoryService.

(** ** [heapq.nlargest] *)

Module Heapq.
Section Heapq.
Context {A : Type} (key : A → num).

(** [x], which stood before every element of the sorted [l], takes its
    place: after the larger keys, before the equal and smaller ones. *)
Fixpoint insert_desc (x : A) (l : list A) : list A :=
  match l with
  | [] => [x]
  | y :: l' =>
      if Py.lt (key x) (key y) then y :: insert_desc x l'
      else x :: y :: l'
  end.

(** [sorted(iterable, key=key, reverse=True)] for keys that are numbers:
    descending keys, equal keys in their original order. *)
Definition sorted_reverse (l : list A) : list A :=
  foldr insert_desc [] l.

(** [heapq.nlargest(n, iterable, key=key)] on a sized iterable, by its
    documented contract [sorted(iterable, key=key, reverse=True)[:n]];
    nothing is selected for [n <= 0].  The contract supposes keys that
    an order compares, and what the function selects when a key is a NaN
    is left open: [None]. *)
Definition nlargest (n : Z) (l : list A) : option (list A) :=
  if bool_decide (n ≤ 0) then Some []
  else if forallb (λ x, negb (Py.isnan (key x))) l
       then Some (take (Z.to_nat n) (sorted_reverse l))
       else None.
End Heapq.
End Heapq.

(** ** [Inventory], the unindexed reference implementation *)

Module Inventory.

Record Inventory := mkInventory { _items : list (str * Item) }.

(** The dataclass [Item(price=..., qty=..., metadata=...)] of
    [inventory_service.py], which stores its arguments as they are. *)
Definition Item_dataclass (price : num) (qty : Z) (metadata : Metadata)
  : Item :=
  {| price := price; qty := qty; metadata := metadata |}.

Definition init : Inventory := mkInventory [].

Definition upsert_item (item_id : str) (price : num) (qty : Z)
    (metadata : option Metadata) : M Inventory () :=
  if Py.lt price 0 || bool_decide (qty < 0) then
    raise InvalidItemError
  else
    let metadata := match metadata with None => [] | Some m => m end in
    modify (λ s, mkInventory
                   (Dict.set (_items s) item_id
                      (Item_dataclass price qty metadata))).

Definition remove_item (item_id : str) : M Inventory () :=
  λ s, match Dict.get (_items s) item_id with
       | Some _ => (Returns (), mkInventory (Dict.remove (_items s) item_id))
       | None => (Raises (ItemNotFoundError item_id), s)
       end.

Definition get_item (item_id : str) : M Inventory Item :=
  λ s, match Dict.get (_items s) item_id with
       | Some item => (Returns item, s)
       | None => (Raises (ItemNotFoundError item_id), s)
       end.

(** The items that the generator expressions of the range queries keep:
    [... for item in self._items.values() if low <= item.price <= high] *)
Definition in_range (low high : num) (d : list (str * Item)) : list Item :=
  filter (λ item, Py.le low (Models.price item) = true
                  ∧ Py.le (Models.price item) high = true)
    (Dict.values d).

(** [sum(item.qty for ...)]: a sum of [int]s. *)
Definition range_query_quantity (low high : num) : M Inventory Z :=
  gets (λ s, foldl Z.add 0 (qty <$> in_range low high (_items s))).

(** The term [item.price * item.qty] of an item whose price is an
    [int]. *)
Definition int_term (item : Item) : option Z :=
  match Models.price item with
  | Int p => Some (p * Models.qty item)
  | _ => None
  end.

(** [sum(item.price * item.qty for ...)].  Where every price in the range
    is an [int], so are the terms, and [sum] adds them exactly.  Where a
    [float] is among the prices, the call raises [OverflowError] or
    returns a [float] whose last digits depend on the version of CPython
    (from 3.12 on, [sum] adds floats with a correction term); that
    outcome is left open: [None]. *)
Definition range_query_value (low high : num)
  : M Inventory (option num) :=
  gets (λ s, (λ terms, Int (foldl Z.add 0 terms))
               <$> mapM int_term (in_range low high (_items s))).

Definition top_k_by_price (k : Z)
  : M Inventory (option (list (str * Item))) :=
  gets (λ s, Heapq.nlargest (λ kv, Models.price kv.2) k (_items s)).

Definition top_k_by_quantity (k : Z)
  : M Inventory (option (list (str * Item))) :=
  gets (λ s, Heapq.nlargest (λ kv, Int (Models.qty kv.2)) k (_items s)).

Definition len : M Inventory nat := gets (λ s, length (_items s)).

Definition iter : M Inventory (list (str * Item)) := gets _items.

End Inventory.

(** ** Sequences of calls *)

(** A call of one of the public methods, which both classes offer. *)
Inductive Call :=
| Upsert (item_id : str) (price : num) (qty : Z) (metadata : option Metadata)
| Remove (item_id : str)
| Get (item_id : str)
| RangeQueryQuantity (low high : num)
| RangeQueryValue (low high : num)
| TopKByPrice (k : Z)
| TopKByQuantity (k : Z)
| Len
| Iter.

Module Trace.
Import ThreadSafeInventoryService.

(** The state a call leaves behind, whatever its outcome. *)
Definition step (s : Service) (c : Call) : Service :=
  match c with
  | Upsert item_id price qty metadata =>
      (upsert_item item_id price qty metadata s).2
  | Remove item_id => (remove_item item_id s).2
  | Get item_id => (get_item item_id s).2
  | RangeQueryQuantity low high => (range_query_quantity low high s).2
  | RangeQueryValue low high => (range_query_value low high s).2
  | TopKByPrice k => (top_k_by_price k s).2
  | TopKByQuantity k => (top_k_by_quantity k s).2
  | Len => (len s).2
  | Iter => (iter s).2
  end.

(** The service after a sequence of calls on a fresh instance. *)
Definition exec (cs : list Call) : Service := foldl step init cs.

Definition reachable (s : Service) : Prop := ∃ cs, s = exec cs.

(** The same for the reference implementation. *)
Definition ref_step (s : Inventory.Inventory) (c : Call)
  : Inventory.Inventory :=
  match c with
  | Upsert item_id price qty metadata =>
      (Inventory.upsert_item item_id price qty metadata s).2
  | Remove item_id => (Inventory.remove_item item_id s).2
  | Get item_id => (Inventory.get_item item_id s).2
  | RangeQueryQuantity low high =>
      (Inventory.range_query_quantity low high s).2
  | RangeQueryValue low high => (Inventory.range_query_value low high s).2
  | TopKByPrice k => (Inventory.top_k_by_price k s).2
  | TopKByQuantity k => (Inventory.top_k_by_quantity k s).2
  | Len => (Inventory.len s).2
  | Iter => (Inventory.iter s).2
  end.

Definition ref_exec (cs : list Call) : Inventory.Inventory :=
  foldl ref_step Inventory.init cs.

(** The calls that change the inventory. *)
Definition is_mutation (c : Call) : bool :=
  match c with
  | Upsert _ _ _ _ | Remove _ => true
  | _ => false
  end.

(** A call that hands no NaN to [upsert_item] as a price. *)
Definition nan_free (c : Call) : bool :=
  match c with
  | Upsert _ price _ _ => negb (Py.isnan price)
  | _ => true
  end.

(** A sequence of calls in which every price given to [upsert_item] is a
    number. *)
Definition prices_are_numbers (cs : list Call) : Prop :=
  forallb nan_free cs = true.

(** A state that such a sequence leads to. *)
Definition reachable_with_numbers (s : Service) : Prop :=
  ∃ cs, prices_are_numbers cs ∧ s = exec cs.
End Trace.

(** ** Specification vocabulary *)

(** The order of the indices: Python's [<] on entries. *)
Definition tuple_lt (x y : entry) : Prop := Py.tuple_ltb x y = true.

#[global] Instance tuple_lt_dec (x y : entry) : Decision (tuple_lt x y) :=
  decide (Py.tuple_ltb x y = true).

(** The key of the quantity index: the quantity, an [int]. *)
Definition qty_key (item : Item) : num := Int (qty item).

(** The entries that an index on the attribute [key] owes to the items
    [d]: one [(key, item_id)] per stored item. *)
Definition entries_of (key : Item → num) (d : list (str * Item))
  : list entry :=
  (λ kv, (key kv.2, kv.1)) <$> d.

(** An index is in order and holds exactly the entries of the items,
    none of them under a NaN. *)
Definition index_ok (key : Item → num) (index : list entry)
    (d : list (str * Item)) : Prop :=
  StronglySorted tuple_lt index ∧ index ≡ₚ entries_of key d ∧
  Forall (λ kv, Py.isnan (key kv.2) = false) d.

(** The entries an index holds for one identifier. *)
Definition entries_for (index : list entry) (item_id : str) : list entry :=
  filter (λ e, e.2 = item_id) index.

Module Invariant.
Import ThreadSafeInventoryService.

(** Every stored result is what the undecorated method returns in the
    state at hand. *)
Definition cache_ok {K V} (body : K → M Service V) (cache : list (K * V))
    (s : Service) : Prop :=
  ∀ k v, (k, v) ∈ cache → (body k s).1 = Returns v.

(** What holds of the service after any sequence of calls. *)
Record coherent (s : Service) : Prop := {
  keys_nodup : NoDup (Dict.keys (_items s));
  items_valid :
    Forall (λ kv, Py.lt (Models.price kv.2) 0 = false ∧ 0 ≤ Models.qty kv.2)
      (_items s);
  quantity_index_ok : index_ok qty_key (_quantity_index s) (_items s);
  range_query_quantity_cache_ok :
    cache_ok (λ k, range_query_quantity_body k.1 k.2)
      (range_query_quantity_cache s) s;
  range_query_value_cache_ok :
    cache_ok (λ k, range_query_value_body k.1 k.2)
      (range_query_value_cache s) s;
  top_k_by_price_cache_ok :
    cache_ok top_k_by_price_body (top_k_by_price_cache s) s;
  top_k_by_quantity_cache_ok :
    cache_ok top_k_by_quantity_body (top_k_by_quantity_cache s) s
}.

(** What holds in addition as long as no price was a NaN. *)
Record consistent (s : Service) : Prop := {
  is_coherent : coherent s;
  price_index_ok : index_ok price (_price_index s) (_items s)
}.
End Invariant.

(** Descending order of a result list on the pair (attribute, identifier):
    larger attribute first, and among equal attributes the larger
    identifier first. *)
Definition descending (key : Item → num) (r : list (str * Item)) : Prop :=
  StronglySorted (λ a b, tuple_lt (key b.2, b.1) (key a.2, a.1)) r.

(** No two stored items agree on the attribute [key], as [==] has it. *)
Definition distinct_keys (key : Item → num) (d : list (str * Item)) : Prop :=
  StronglySorted (λ a b, Py.eq (key a.2) (key b.2) = false) d.

(** The identifiers that the sentinel [chr(0x10ffff)] of the range queries
    bounds: none of them compares greater than it. *)
Definition bounded_ids (d : list (str * Item)) : Prop :=
  Forall (λ kv, Py.str_ltb Py.chr_0x10ffff kv.1 = false) d.

(** A call that returned, as opposed to one that raised. *)
Definition is_Returns {A} (o : outcome A) : bool :=
  match o with
  | Returns _ => true
  | Raises _ => false
  end.

Module Queries.
Import ThreadSafeInventoryService.

(** Whether a call made in state [s] returns. *)
Definition succeeds (s : Service) (c : Call) : bool :=
  match c with
  | Upsert item_id price qty metadata =>
      is_Returns (upsert_item item_id price qty metadata s).1
  | Remove item_id => is_Returns (remove_item item_id s).1
  | Get item_id => is_Returns (get_item item_id s).1
  | RangeQueryQuantity low high => is_Returns (range_query_quantity low high s).1
  | RangeQueryValue low high => is_Returns (range_query_value low high s).1
  | TopKByPrice k => is_Returns (top_k_by_price k s).1
  | TopKByQuantity k => is_Returns (top_k_by_quantity k s).1
  | Len => is_Returns (len s).1
  | Iter => is_Returns (iter s).1
  end.

(** In state [s] every range and top-K query answers with what its
    undecorated body computes from the item map and the indices of [s]. *)
Definition computed_directly (s : Service) : Prop :=
  (∀ low high,
     (range_query_quantity low high s).1
     = (range_query_quantity_body low high s).1) ∧
  (∀ low high,
     (range_query_value low high s).1
     = (range_query_value_body low high s).1) ∧
  (∀ k, (top_k_by_price k s).1 = (top_k_by_price_body k s).1) ∧
  (∀ k, (top_k_by_quantity k s).1 = (top_k_by_quantity_body k s).1).

(** Two states answer every query method alike. *)
Definition same_answers (s s' : Service) : Prop :=
  (∀ item_id, (get_item item_id s').1 = (get_item item_id s).1) ∧
  (∀ low high,
     (range_query_quantity low high s').1 = (range_query_quantity low high s).1) ∧
  (∀ low high,
     (range_query_value low high s').1 = (range_query_value low high s).1) ∧
  (∀ k, (top_k_by_price k s').1 = (top_k_by_price k s).1) ∧
  (∀ k, (top_k_by_quantity k s').1 = (top_k_by_quantity k s).1) ∧
  (len s').1 = (len s).1.
End Queries.

(** ** Vocabulary of the further properties *)

Module Further.
Import ThreadSafeInventoryService.

(** The stored items that a range query with the bounds [low] and [high]
    walks over: the price is at least [low], and either below [high], or
    equal to [high] with an identifier that does not compare greater than
    [chr(0x10ffff)]. *)
Definition scanned (low high : num) (kv : str * Item) : Prop :=
  Py.le low (Models.price kv.2) = true ∧
  (Py.lt (Models.price kv.2) high = true ∨
   (Py.eq (Models.price kv.2) high = true
    ∧ Py.str_ltb Py.chr_0x10ffff kv.1 = false)).

#[global] Instance scanned_dec low high kv : Decision (scanned low high kv) :=
  decide (Py.le low (Models.price kv.2) = true ∧
          (Py.lt (Models.price kv.2) high = true ∨
           (Py.eq (Models.price kv.2) high = true
            ∧ Py.str_ltb Py.chr_0x10ffff kv.1 = false))).

(** The stored items with a price in the interval [[low, high]]. *)
Definition priced_within (low high : num) (kv : str * Item) : Prop :=
  Py.le low (Models.price kv.2) = true ∧ Py.le (Models.price kv.2) high = true.

#[global] Instance priced_within_dec low high kv
  : Decision (priced_within low high kv) :=
  decide (Py.le low (Models.price kv.2) = true
          ∧ Py.le (Models.price kv.2) high = true).

(** The sum of the quantities of a list of items. *)
Definition total_qty (r : list (str * Item)) : Z :=
  foldr Z.add 0 ((λ kv, Models.qty kv.2) <$> r).

(** The terms [price * qty] of a list of items, as pairs of factors. *)
Definition value_terms (r : list (str * Item)) : list (num * num) :=
  (λ kv, (Models.price kv.2, Int (Models.qty kv.2))) <$> r.

(** The products of the terms, added to [total] one after the other:
    each product and each sum is that of Python's [*] and [+], rounded
    where a [float] takes part, and the first [OverflowError] ends the
    addition. *)
Fixpoint added_up (total : num) (terms : list (num * num)) : outcome num :=
  match terms with
  | [] => Returns total
  | (p, q) :: rest =>
      match Py.mul p q with
      | Returns v =>
          match Py.add total v with
          | Returns total' => added_up total' rest
          | Raises e => Raises e
          end
      | Raises e => Raises e
      end
  end.

(** Ascending order of a list of items on the pair (price, identifier). *)
Definition by_price (r : list (str * Item)) : Prop :=
  StronglySorted (λ a b, tuple_lt (Models.price a.2, a.1)
                                  (Models.price b.2, b.1)) r.

(** A cache within its size, with one entry per key: no two entries are
    stored under the same arguments, even as the cache compares them. *)
Definition cache_bounded {K V} (same_key : K → K → bool) (maxsize : nat)
    (c : list (K * V)) : Prop :=
  (length c ≤ maxsize)%nat ∧ NoDup c.*1 ∧
  StronglySorted (λ k k', same_key k k' = false) c.*1.

Definition caches_bounded (s : Service) : Prop :=
  cache_bounded Lru.same_bounds 128 (range_query_quantity_cache s) ∧
  cache_bounded Lru.same_bounds 128 (range_query_value_cache s) ∧
  cache_bounded Lru.same_int 64 (top_k_by_price_cache s) ∧
  cache_bounded Lru.same_int 64 (top_k_by_quantity_cache s).

(** Two states with the same item map and the same indices. *)
Definition same_inventory (s s' : Service) : Prop :=
  _items s' = _items s ∧
  _price_index s' = _price_index s ∧
  _quantity_index s' = _quantity_index s.

(** The item map with the record of one identifier exchanged in place. *)
Definition with_record (item_id : str) (item : Item)
    (d : list (str * Item)) : list (str * Item) :=
  (λ kv, if bool_decide (kv.1 = item_id) then (kv.1, item) else kv) <$> d.

(** The item map without the record of one identifier, the others in their
    order. *)
Definition without_record (item_id : str)
    (d : list (str * Item)) : list (str * Item) :=
  filter (λ kv, kv.1 ≠ item_id) d.

(** A list of pairs is a top-K selection of the items [d] on the attribute
    [key]: no stored item outside it has a larger attribute than an item
    inside it. *)
Definition dominates (key : Item → num) (r d : list (str * Item)) : Prop :=
  ∀ kv kv', kv ∈ r → kv' ∈ d → kv'.1 ∉ r.*1 →
    Py.le (key kv'.2) (key kv.2) = true.

(** Equal attributes keep the order they have in [d]. *)
Definition stable (key : Item → num) (r d : list (str * Item)) : Prop :=
  ∀ z, filter (λ kv, Py.eq (key kv.2) z = true) r
       `prefix_of` filter (λ kv, Py.eq (key kv.2) z = true) d.

(** No stored price is a NaN. *)
Definition no_nan_price (d : list (str * Item)) : Prop :=
  Forall (λ kv, Py.isnan (Models.price kv.2) = false) d.
End Further.

(** ** The order on numbers *)

Section numbers.
Implicit Types x y z : num.
Implicit Types a b c : Py.xreal.

Lemma xcompare_refl a : Py.xcompare a a = Eq.
Proof. destruct a as [|q|]; simpl; try done. by apply Qeq_alt. Qed.

Lemma xcompare_antisym a b : Py.xcompare b a = CompOpp (Py.xcompare a b).
Proof.
  destruct a as [|q|], b as [|r|]; simpl; try done.
  symmetry. apply Qcompare_antisym.
Qed.

Lemma xcompare_lt_trans a b c :
  Py.xcompare a b = Lt → Py.xcompare b c = Lt → Py.xcompare a c = Lt.
Proof.
  destruct a as [|q|], b as [|r|], c as [|t|]; simpl; try done.
  rewrite <- !Qlt_alt. apply Qlt_trans.
Qed.

Lemma xcompare_eq_l a b c :
  Py.xcompare a b = Eq → Py.xcompare a c = Py.xcompare b c.
Proof.
  destruct a as [|q|], b as [|r|], c as [|t|]; simpl; try done.
  rewrite <- Qeq_alt. intros Hqr. by rewrite Hqr.
Qed.

Lemma xcompare_eq_r a b c :
  Py.xcompare a b = Eq → Py.xcompare c a = Py.xcompare c b.
Proof.
  destruct a as [|q|], b as [|r|], c as [|t|]; simpl; try done.
  rewrite <- Qeq_alt. intros Hqr. by rewrite Hqr.
Qed.

(** The three comparisons, read off the comparison of the values. *)
Lemma compare_numbers x y :
  Py.isnan x = false → Py.isnan y = false →
  ∃ o, Py.compare x y = Some o ∧ Py.compare y x = Some (CompOpp o).
Proof.
  unfold Py.isnan, Py.compare.
  destruct (Py.value x) as [a|], (Py.value y) as [b|]; try done.
  intros _ _. exists (Py.xcompare a b). by rewrite (xcompare_antisym a b).
Qed.

Lemma compare_nan_l x y : Py.isnan x = true → Py.compare x y = None.
Proof. unfold Py.isnan, Py.compare. by destruct (Py.value x). Qed.

Lemma compare_nan_r x y : Py.isnan y = true → Py.compare x y = None.
Proof.
  unfold Py.isnan, Py.compare.
  by destruct (Py.value x), (Py.value y).
Qed.

Lemma lt_irrefl x : Py.lt x x = false.
Proof.
  unfold Py.lt, Py.compare. destruct (Py.value x) as [a|]; [|done].
  by rewrite xcompare_refl.
Qed.

Lemma lt_trans x y z :
  Py.lt x y = true → Py.lt y z = true → Py.lt x z = true.
Proof.
  unfold Py.lt, Py.compare.
  destruct (Py.value x) as [a|], (Py.value y) as [b|], (Py.value z) as [c|];
    try done.
  destruct (Py.xcompare a b) eqn:Hab; try done.
  destruct (Py.xcompare b c) eqn:Hbc; try done.
  by rewrite (xcompare_lt_trans a b c).
Qed.

Lemma lt_asym x y : Py.lt x y = true → Py.lt y x = false.
Proof.
  intros Hxy. destruct (Py.lt y x) eqn:Hyx; [|done].
  by rewrite <- (lt_irrefl x), (lt_trans x y x).
Qed.

Lemma eq_refl_number x : Py.isnan x = false → Py.eq x x = true.
Proof.
  unfold Py.isnan, Py.eq, Py.compare. destruct (Py.value x) as [a|]; [|done].
  by rewrite xcompare_refl.
Qed.

Lemma eq_sym x y : Py.eq x y = Py.eq y x.
Proof.
  unfold Py.eq, Py.compare.
  destruct (Py.value x) as [a|], (Py.value y) as [b|]; try done.
  rewrite (xcompare_antisym a b). by destruct (Py.xcompare a b).
Qed.

Lemma eq_lt_l x y z : Py.eq x y = true → Py.lt x z = Py.lt y z.
Proof.
  unfold Py.eq, Py.lt, Py.compare.
  destruct (Py.value x) as [a|], (Py.value y) as [b|], (Py.value z) as [c|];
    try done.
  destruct (Py.xcompare a b) eqn:Hab; try done.
  by rewrite (xcompare_eq_l a b c).
Qed.

Lemma eq_lt_r x y z : Py.eq x y = true → Py.lt z x = Py.lt z y.
Proof.
  unfold Py.eq, Py.lt, Py.compare.
  destruct (Py.value x) as [a|], (Py.value y) as [b|], (Py.value z) as [c|];
    try done.
  destruct (Py.xcompare a b) eqn:Hab; try done.
  by rewrite (xcompare_eq_r a b c).
Qed.

Lemma eq_eq_l x y z : Py.eq x y = true → Py.eq x z = Py.eq y z.
Proof.
  unfold Py.eq, Py.compare.
  destruct (Py.value x) as [a|], (Py.value y) as [b|], (Py.value z) as [c|];
    try done.
  destruct (Py.xcompare a b) eqn:Hab; try done.
  by rewrite (xcompare_eq_l a b c).
Qed.

Lemma eq_eq_r x y z : Py.eq x y = true → Py.eq z x = Py.eq z y.
Proof. intros Hxy. by rewrite (eq_sym z x), (eq_sym z y), (eq_eq_l x y z). Qed.

Lemma eq_not_lt x y : Py.eq x y = true → Py.lt x y = false.
Proof. intros Hxy. by rewrite (eq_lt_l x y y), lt_irrefl. Qed.

Lemma eq_number x y :
  Py.eq x y = true → Py.isnan x = false ∧ Py.isnan y = false.
Proof.
  unfold Py.eq, Py.compare, Py.isnan.
  by destruct (Py.value x), (Py.value y).
Qed.

Lemma lt_number x y :
  Py.lt x y = true → Py.isnan x = false ∧ Py.isnan y = false.
Proof.
  unfold Py.lt, Py.compare, Py.isnan.
  by destruct (Py.value x), (Py.value y).
Qed.

Lemma le_number x y :
  Py.le x y = true → Py.isnan x = false ∧ Py.isnan y = false.
Proof.
  unfold Py.le, Py.compare, Py.isnan.
  by destruct (Py.value x), (Py.value y).
Qed.

Lemma le_lt_or_eq x y : Py.le x y = Py.lt x y || Py.eq x y.
Proof.
  unfold Py.le, Py.lt, Py.eq.
  by destruct (Py.compare x y) as [[]|].
Qed.

(** Two numbers are comparable. *)
Lemma lt_total x y :
  Py.isnan x = false → Py.isnan y = false →
  Py.lt x y = true ∨ Py.eq x y = true ∨ Py.lt y x = true.
Proof.
  intros Hx Hy. destruct (compare_numbers x y Hx Hy) as (o & Hxy & Hyx).
  unfold Py.lt, Py.eq. rewrite Hxy, Hyx. destruct o; simpl; auto.
Qed.

Lemma not_lt_le x y :
  Py.isnan x = false → Py.isnan y = false →
  Py.lt x y = false ↔ Py.le y x = true.
Proof.
  intros Hx Hy. destruct (compare_numbers x y Hx Hy) as (o & Hxy & Hyx).
  unfold Py.lt, Py.le. rewrite Hxy, Hyx. by destruct o.
Qed.

Lemma not_le_lt x y :
  Py.isnan x = false → Py.isnan y = false →
  Py.le x y = false ↔ Py.lt y x = true.
Proof.
  intros Hx Hy. destruct (compare_numbers x y Hx Hy) as (o & Hxy & Hyx).
  unfold Py.lt, Py.le. rewrite Hxy, Hyx. by destruct o.
Qed.

Lemma le_not_lt x y : Py.le x y = true → Py.lt y x = false.
Proof.
  intros Hle. destruct (le_number x y Hle) as [Hx Hy].
  by apply not_lt_le.
Qed.

Lemma lt_le x y : Py.lt x y = true → Py.le x y = true.
Proof. intros Hlt. by rewrite le_lt_or_eq, Hlt. Qed.

Lemma le_trans x y z :
  Py.le x y = true → Py.le y z = true → Py.le x z = true.
Proof.
  rewrite !le_lt_or_eq, !orb_true_iff.
  intros [Hxy|Hxy] [Hyz|Hyz].
  - left. by eapply lt_trans.
  - left. by rewrite <- (eq_lt_r y z x).
  - left. by rewrite (eq_lt_l x y z).
  - right. by rewrite (eq_eq_l x y z).
Qed.

Lemma le_lt_trans x y z :
  Py.le x y = true → Py.lt y z = true → Py.lt x z = true.
Proof.
  rewrite le_lt_or_eq, orb_true_iff. intros [Hxy|Hxy] Hyz.
  - by eapply lt_trans.
  - by rewrite (eq_lt_l x y z).
Qed.

Lemma lt_le_trans x y z :
  Py.lt x y = true → Py.le y z = true → Py.lt x z = true.
Proof.
  rewrite le_lt_or_eq, orb_true_iff. intros Hxy [Hyz|Hyz].
  - by eapply lt_trans.
  - by rewrite <- (eq_lt_r y z x).
Qed.

Lemma le_antisym x y : Py.le x y = true → Py.le y x = true → Py.eq x y = true.
Proof.
  intros Hxy Hyx. apply le_not_lt in Hyx.
  by rewrite le_lt_or_eq, Hyx in Hxy.
Qed.

(** On [int]s the comparisons are those of the integers. *)
Lemma lt_Int (m n : Z) : Py.lt (Int m) (Int n) = bool_decide (m < n).
Proof.
  unfold Py.lt, Py.compare. simpl.
  destruct (Qcompare_spec (inject_Z m) (inject_Z n)) as [H|H|H];
    case_bool_decide as Hmn; try done.
  - apply Qeq_alt in H. unfold Qcompare in H. simpl in H.
    rewrite !Z.mul_1_r in H. apply Z.compare_eq_iff in H. lia.
  - rewrite <- Zlt_Qlt in H. lia.
  - rewrite <- Zlt_Qlt in H. lia.
Qed.

Lemma eq_Int (m n : Z) : Py.eq (Int m) (Int n) = bool_decide (m = n).
Proof.
  unfold Py.eq, Py.compare. simpl.
  destruct (Qcompare_spec (inject_Z m) (inject_Z n)) as [H|H|H];
    case_bool_decide as Hmn; try done.
  - destruct Hmn. by apply inject_Z_injective.
  - rewrite <- Zlt_Qlt in H. lia.
  - rewrite <- Zlt_Qlt in H. lia.
Qed.

Lemma le_Int (m n : Z) : Py.le (Int m) (Int n) = bool_decide (m ≤ n).
Proof.
  rewrite le_lt_or_eq, lt_Int, eq_Int.
  repeat case_bool_decide; try done; lia.
Qed.

(** [is] or [==] *)
Lemma same_refl x : Py.same x x = true.
Proof. unfold Py.same. by rewrite bool_decide_eq_true_2. Qed.

Lemma same_sym x y : Py.same x y = Py.same y x.
Proof.
  unfold Py.same. rewrite (eq_sym x y).
  by repeat case_bool_decide.
Qed.

Lemma same_number x y :
  Py.isnan x = false → Py.same x y = Py.eq x y.
Proof.
  intros Hx. unfold Py.same. case_bool_decide as Hxy; [|done].
  subst y. by rewrite eq_refl_number.
Qed.

Lemma same_trans x y z :
  Py.same x y = true → Py.same y z = true → Py.same x z = true.
Proof.
  unfold Py.same. rewrite !orb_true_iff, !bool_decide_eq_true.
  intros [->|Hxy] [->|Hyz]; auto.
  right. by rewrite (eq_eq_l x y z).
Qed.

(** Objects that are the same compare alike with a third. *)
Lemma same_lt_l x y z : Py.same x y = true → Py.lt x z = Py.lt y z.
Proof.
  unfold Py.same. rewrite orb_true_iff, bool_decide_eq_true.
  intros [->|Hxy]; [done|by apply eq_lt_l].
Qed.

Lemma same_lt_r x y z : Py.same x y = true → Py.lt z x = Py.lt z y.
Proof.
  unfold Py.same. rewrite orb_true_iff, bool_decide_eq_true.
  intros [->|Hxy]; [done|by apply eq_lt_r].
Qed.

Lemma same_same_l x y z : Py.same x y = true → Py.same x z = Py.same y z.
Proof.
  intros Hxy. destruct (Py.same y z) eqn:Hyz.
  - by eapply same_trans.
  - destruct (Py.same x z) eqn:Hxz; [|done].
    rewrite same_sym in Hxy. by rewrite (same_trans y x z) in Hyz.
Qed.

Lemma same_same_r x y z : Py.same x y = true → Py.same z x = Py.same z y.
Proof.
  intros Hxy. by rewrite (same_sym z x), (same_sym z y), (same_same_l x y z).
Qed.

Lemma same_not_lt x y : Py.same x y = true → Py.lt x y = false.
Proof. intros Hxy. by rewrite (same_lt_l x y y), lt_irrefl. Qed.

Lemma lt_not_same x y : Py.lt x y = true → Py.same x y = false.
Proof.
  intros Hlt. destruct (Py.same x y) eqn:Hxy; [|done].
  by rewrite same_not_lt in Hlt.
Qed.

Lemma le_0_not_lt x : Py.le 0 x = true → Py.lt x 0 = false.
Proof. apply le_not_lt. Qed.
End numbers.

(** ** The order on index entries *)

Section order.
Implicit Types s t u : str.
Implicit Types x y z : entry.

Lemma str_ltb_irrefl s : Py.str_ltb s s = false.
Proof. induction s as [|c s IH]; simpl; [done|]. by case_bool_decide. Qed.

Lemma str_ltb_trans s t u :
  Py.str_ltb s t = true → Py.str_ltb t u = true → Py.str_ltb s u = true.
Proof.
  revert t u. induction s as [|c s IH]; intros [|d t] [|e u]; simpl; try done.
  repeat case_bool_decide; subst; try done; try lia; eauto.
Qed.

Lemma str_ltb_connex s t :
  Py.str_ltb s t = false → Py.str_ltb t s = false → s = t.
Proof.
  revert t. induction s as [|c s IH]; intros [|d t]; simpl; try done.
  repeat case_bool_decide; subst; try done; try lia.
  intros ??. f_equal. by apply IH.
Qed.

Lemma tuple_lt_irrefl x : ¬ tuple_lt x x.
Proof.
  unfold tuple_lt, Py.tuple_ltb. rewrite same_refl.
  by rewrite bool_decide_eq_true_2.
Qed.

Lemma tuple_lt_trans x y z : tuple_lt x y → tuple_lt y z → tuple_lt x z.
Proof.
  unfold tuple_lt, Py.tuple_ltb. destruct x as [a s], y as [b t], z as [c u].
  cbn [fst snd].
  destruct (Py.same a b) eqn:Hab, (Py.same b c) eqn:Hbc.
  - rewrite (same_trans a b c) by done.
    repeat case_bool_decide; subst; try done.
    + intros Hst Hts. pose proof (str_ltb_trans _ _ _ Hst Hts) as Hss.
      by rewrite str_ltb_irrefl in Hss.
    + apply str_ltb_trans.
  - intros _ Hlt. by rewrite (same_same_l a b c), Hbc, (same_lt_l a b c).
  - intros Hlt _.
    by rewrite <- (same_same_r b c a), Hab, <- (same_lt_r b c a).
  - intros Hlt1 Hlt2. pose proof (lt_trans _ _ _ Hlt1 Hlt2) as Hlt.
    by rewrite (lt_not_same a c).
Qed.

Lemma tuple_lt_asym x y : tuple_lt x y → ¬ tuple_lt y x.
Proof.
  intros Hxy Hyx. exact (tuple_lt_irrefl x (tuple_lt_trans _ _ _ Hxy Hyx)).
Qed.

(** Two entries under numbers are in order one way or the other, unless
    they are equal. *)
Lemma tuple_lt_connex x y :
  Py.isnan x.1 = false → Py.isnan y.1 = false →
  ¬ tuple_lt x y → ¬ tuple_lt y x → Py.tuple_eqb x y = true.
Proof.
  unfold tuple_lt, Py.tuple_ltb, Py.tuple_eqb.
  destruct x as [a s], y as [b t]. cbn [fst snd]. intros Ha Hb.
  rewrite (same_sym b a), !(same_number a b) by done.
  destruct (lt_total a b Ha Hb) as [Hlt|[Heq|Hgt]].
  - rewrite Hlt. destruct (Py.eq a b) eqn:Heq; [|done].
    by rewrite eq_not_lt in Hlt.
  - rewrite Heq. simpl. repeat case_bool_decide; subst; try done.
    intros Hst Hts. apply not_true_is_false in Hst, Hts.
    by destruct (str_ltb_connex _ _ Hst Hts).
  - rewrite Hgt. destruct (Py.eq a b) eqn:Heq; [|done].
    rewrite eq_sym in Heq. by rewrite eq_not_lt in Hgt.
Qed.

Lemma tuple_lt_fst x y :
  Py.isnan x.1 = false → tuple_lt x y → Py.le x.1 y.1 = true.
Proof.
  unfold tuple_lt, Py.tuple_ltb. intros Hx. rewrite same_number by done.
  rewrite le_lt_or_eq. destruct (Py.eq x.1 y.1); [by rewrite orb_true_r|].
  intros ->. done.
Qed.

Lemma tuple_eqb_refl x : Py.tuple_eqb x x = true.
Proof.
  unfold Py.tuple_eqb. by rewrite same_refl, bool_decide_eq_true_2.
Qed.

Lemma tuple_eqb_snd x y : Py.tuple_eqb x y = true → x.2 = y.2.
Proof.
  unfold Py.tuple_eqb. rewrite andb_true_iff, bool_decide_eq_true. by intros [].
Qed.

(** An entry is below the probe [(low, "")] when its key is below [low]. *)
Lemma tuple_ltb_low x (low : num) : Py.tuple_ltb x (low, []) = Py.lt x.1 low.
Proof.
  unfold Py.tuple_ltb. cbn [fst snd].
  destruct (Py.same x.1 low) eqn:Hsame.
  - rewrite same_not_lt by done.
    case_bool_decide; [done|]. by destruct x.2.
  - done.
Qed.
End order.

(** ** Binary search on a sorted index *)

Section bisect.
Implicit Types a l : list entry.
Implicit Types x y : entry.

(** On a list split into a part where the test holds and a part where it
    fails, the loop ends at the boundary, provided it is given as many
    iterations as the interval is wide. *)
Lemma loop_partition (P : entry → bool) l1 l2 fuel lo hi :
  Forall (λ y, P y = true) l1 →
  Forall (λ y, P y = false) l2 →
  (lo ≤ length l1 ≤ hi)%nat →
  (hi ≤ length (l1 ++ l2))%nat →
  (hi - lo ≤ fuel)%nat →
  Bisect.loop P fuel (l1 ++ l2) lo hi = length l1.
Proof.
  intros Hl1 Hl2. revert lo hi.
  induction fuel as [|fuel IH]; intros lo hi Hlo Hhi Hfuel;
    cbn [Bisect.loop].
  { lia. }
  case_bool_decide as Hlt; [|lia].
  set (mid := ((lo + hi) / 2)%nat).
  assert (lo ≤ mid < hi)%nat as Hmid.
  { subst mid. split.
    - apply Nat.div_le_lower_bound; lia.
    - apply Nat.Div0.div_lt_upper_bound; lia. }
  destruct (decide (mid < length l1)%nat) as [Hin|Hout].
  - destruct (lookup_lt_is_Some_2 l1 mid Hin) as [y Hy].
    rewrite (lookup_app_l_Some _ _ _ _ Hy).
    rewrite (proj1 (Forall_lookup _ _) Hl1 _ _ Hy).
    apply IH; lia.
  - pose proof (length_app l1 l2) as Hlen.
    destruct (lookup_lt_is_Some_2 l2 (mid - length l1)) as [y Hy]; [lia|].
    rewrite lookup_app_r by lia. rewrite Hy.
    rewrite (proj1 (Forall_lookup _ _) Hl2 _ _ Hy).
    apply IH; lia.
Qed.

(** The loop looks at its test only. *)
Lemma loop_ext (P Q : entry → bool) fuel a lo hi :
  (∀ y, P y = Q y) → Bisect.loop P fuel a lo hi = Bisect.loop Q fuel a lo hi.
Proof.
  intros HPQ. revert lo hi. induction fuel as [|fuel IH]; intros lo hi;
    cbn [Bisect.loop]; [done|].
  case_bool_decide; [|done]. destruct (a !! _) as [y|]; [|done].
  by rewrite HPQ, !IH.
Qed.

(** A sorted list splits at any [x] into the entries below [x] and the
    entries not below it ... *)
Lemma sorted_split_lt a x :
  StronglySorted tuple_lt a →
  ∃ l1 l2, a = l1 ++ l2 ∧
    Forall (λ y, tuple_lt y x) l1 ∧ Forall (λ y, ¬ tuple_lt y x) l2.
Proof.
  induction 1 as [|y a Hsorted IH Hy].
  { by exists [], []. }
  destruct (decide (tuple_lt y x)) as [Hlt|Hge].
  - destruct IH as (l1 & l2 & -> & H1 & H2).
    exists (y :: l1), l2. by repeat split; [constructor|].
  - exists [], (y :: a). repeat split; [constructor|].
    constructor; [done|].
    eapply Forall_impl; [exact Hy|]. intros z Hyz Hzx.
    apply Hge. by eapply tuple_lt_trans.
Qed.

(** ... and into the entries not above [x] and the entries above it. *)
Lemma sorted_split_le a x :
  StronglySorted tuple_lt a →
  ∃ l1 l2, a = l1 ++ l2 ∧
    Forall (λ y, ¬ tuple_lt x y) l1 ∧ Forall (λ y, tuple_lt x y) l2.
Proof.
  induction 1 as [|y a Hsorted IH Hy].
  { by exists [], []. }
  destruct (decide (tuple_lt x y)) as [Hlt|Hge].
  - exists [], (y :: a). repeat split; [constructor|].
    constructor; [done|].
    eapply Forall_impl; [exact Hy|]. intros z Hyz. by eapply tuple_lt_trans.
  - destruct IH as (l1 & l2 & -> & H1 & H2).
    exists (y :: l1), l2. by repeat split; [constructor|].
Qed.

Lemma bisect_left_spec a x :
  StronglySorted tuple_lt a →
  ∃ l1 l2, a = l1 ++ l2 ∧ Bisect.bisect_left a x = length l1 ∧
    Forall (λ y, tuple_lt y x) l1 ∧ Forall (λ y, ¬ tuple_lt y x) l2.
Proof.
  intros Hsorted.
  destruct (sorted_split_lt a x Hsorted) as (l1 & l2 & -> & H1 & H2).
  exists l1, l2. repeat split; [|done..].
  unfold Bisect.bisect_left. apply loop_partition.
  - done.
  - eapply Forall_impl; [exact H2|]. intros y. apply not_true_is_false.
  - rewrite length_app. lia.
  - done.
  - lia.
Qed.

Lemma bisect_right_spec a x :
  StronglySorted tuple_lt a →
  ∃ l1 l2, a = l1 ++ l2 ∧ Bisect.bisect_right a x = length l1 ∧
    Forall (λ y, ¬ tuple_lt x y) l1 ∧ Forall (λ y, tuple_lt x y) l2.
Proof.
  intros Hsorted.
  destruct (sorted_split_le a x Hsorted) as (l1 & l2 & -> & H1 & H2).
  exists l1, l2. repeat split; [|done..].
  unfold Bisect.bisect_right. apply loop_partition.
  - eapply Forall_impl; [exact H1|]. intros y Hy.
    apply negb_true_iff. by apply not_true_is_false.
  - eapply Forall_impl; [exact H2|]. intros y Hy.
    apply negb_false_iff. exact Hy.
  - rewrite length_app. lia.
  - done.
  - lia.
Qed.

(** The loop halves its interval, so as many iterations as the interval
    is wide are enough: more change nothing. *)
Lemma loop_fuel (P : entry → bool) fuel fuel' a lo hi :
  (hi - lo ≤ fuel)%nat → (hi - lo ≤ fuel')%nat →
  Bisect.loop P fuel a lo hi = Bisect.loop P fuel' a lo hi.
Proof.
  revert fuel' lo hi. induction fuel as [|fuel IH]; intros fuel' lo hi H1 H2.
  { destruct fuel' as [|fuel']; cbn [Bisect.loop]; [done|].
    by rewrite bool_decide_eq_false_2 by lia. }
  destruct fuel' as [|fuel']; cbn [Bisect.loop].
  { by rewrite bool_decide_eq_false_2 by lia. }
  case_bool_decide as Hlt; [|done].
  assert (lo ≤ (lo + hi) / 2 < hi)%nat as Hmid.
  { split.
    - apply Nat.div_le_lower_bound; lia.
    - apply Nat.Div0.div_lt_upper_bound; lia. }
  destruct (a !! _) as [y|]; [|done].
  destruct (P y); apply IH; lia.
Qed.

(** A bisection ends inside the list. *)
Lemma loop_bounds (P : entry → bool) fuel a lo hi :
  (lo ≤ hi)%nat → (lo ≤ Bisect.loop P fuel a lo hi ≤ hi)%nat.
Proof.
  revert lo hi. induction fuel as [|fuel IH]; intros lo hi Hlo;
    cbn [Bisect.loop]; [lia|].
  case_bool_decide as Hlt; [|lia].
  assert (lo ≤ (lo + hi) / 2 < hi)%nat as Hmid.
  { split.
    - apply Nat.div_le_lower_bound; lia.
    - apply Nat.Div0.div_lt_upper_bound; lia. }
  destruct (a !! _) as [y|]; [|lia].
  destruct (P y).
  - specialize (IH ((lo + hi) / 2 + 1)%nat hi). lia.
  - specialize (IH lo ((lo + hi) / 2)%nat). lia.
Qed.
End bisect.

(** ** Index maintenance *)

Section index.
Import ThreadSafeInventoryService.
Implicit Types a l : list entry.
Implicit Types x y : entry.

Lemma insort_perm a x : Bisect.insort a x ≡ₚ x :: a.
Proof.
  unfold Bisect.insort, Bisect.list_insert_at.
  rewrite <- Permutation_middle. by rewrite take_drop.
Qed.

(** An entry under a number, for an identifier that has none, goes to its
    place among entries under numbers. *)
Lemma insort_sorted a x :
  StronglySorted tuple_lt a →
  Forall (λ y, Py.isnan y.1 = false) a → Py.isnan x.1 = false → x.2 ∉ a.*2 →
  StronglySorted tuple_lt (Bisect.insort a x).
Proof.
  intros Hsorted Hnum Hx Hfresh.
  destruct (bisect_right_spec a x Hsorted) as (l1 & l2 & -> & Hidx & H1 & H2).
  unfold Bisect.insort, Bisect.list_insert_at. rewrite Hidx.
  rewrite take_app_length, drop_app_length.
  apply StronglySorted_app in Hsorted as (H12 & Hs1 & Hs2).
  apply StronglySorted_app. split_and!.
  - intros y z Hy [->|Hz]%elem_of_cons; [|by apply H12].
    destruct (decide (tuple_lt y x)) as [|Hge]; [done|].
    rewrite Forall_forall in H1, Hnum.
    pose proof (H1 y Hy) as Hle.
    assert (y ∈ l1 ++ l2) as Hin by (apply elem_of_app; by left).
    pose proof (tuple_lt_connex x y Hx (Hnum y Hin) Hle Hge) as Heq.
    destruct Hfresh. rewrite (tuple_eqb_snd _ _ Heq).
    by apply list_elem_of_fmap_2.
  - done.
  - by constructor.
Qed.

(** Nothing is discarded for an identifier that has no entry. *)
Lemma discard_entry_absent a x : x.2 ∉ a.*2 → discard_entry a x = a.
Proof.
  intros Hx. unfold discard_entry.
  destruct (bool_decide (_ < _)%nat); [|done]. simpl.
  destruct (a !! _) as [e|] eqn:Hidx; [|done]. simpl.
  destruct (Py.tuple_eqb e x) eqn:Heq; [|done].
  destruct Hx. rewrite <- (tuple_eqb_snd _ _ Heq).
  apply list_elem_of_fmap_2. by eapply list_elem_of_lookup_2.
Qed.

Lemma discard_entry_present a x :
  StronglySorted tuple_lt a → x ∈ a →
  ∃ l1 l2, a = l1 ++ x :: l2 ∧ discard_entry a x = l1 ++ l2.
Proof.
  intros Hsorted Hx.
  destruct (bisect_left_spec a x Hsorted) as (l1 & l2 & -> & Hidx & H1 & H2).
  rewrite Forall_forall in H1.
  apply elem_of_app in Hx as [Hx|Hx].
  { by destruct (tuple_lt_irrefl x (H1 x Hx)). }
  destruct l2 as [|y l2]; [by apply elem_of_nil in Hx|].
  assert (y = x) as ->.
  { apply elem_of_cons in Hx as [->|Hx]; [done|].
    apply StronglySorted_app_1_r, StronglySorted_cons in Hsorted as [Hy _].
    rewrite Forall_forall in Hy. apply Forall_cons_1 in H2 as [H2 _].
    by destruct (H2 (Hy x Hx)). }
  exists l1, l2. split; [done|].
  unfold discard_entry. rewrite Hidx.
  rewrite bool_decide_eq_true_2 by (rewrite length_app; simpl; lia).
  rewrite list_lookup_middle by done. simpl. rewrite tuple_eqb_refl.
  by apply delete_middle.
Qed.

(** Whatever the index holds, discarding takes away at most one entry,
    and one of the identifier given. *)
Lemma discard_entry_cases a x :
  discard_entry a x = a ∨
  ∃ l1 e l2, a = l1 ++ e :: l2 ∧ e.2 = x.2 ∧ discard_entry a x = l1 ++ l2.
Proof.
  unfold discard_entry.
  destruct (bool_decide (_ < _)%nat); [|by left]. simpl.
  destruct (a !! _) as [e|] eqn:Hidx; [|by left]. simpl.
  destruct (Py.tuple_eqb e x) eqn:Heq; [|by left].
  right. destruct (list_elem_of_split_length _ _ _ Hidx) as (l1 & l2 & -> & Hlen).
  exists l1, e, l2. split_and!; [done|by apply tuple_eqb_snd|].
  rewrite Hlen. by apply delete_middle.
Qed.
End index.

(** ** The item map *)

Section dict.
Context {V : Type}.
Implicit Types d : list (str * V).
Implicit Types k : str.

Lemma get_None d k : Dict.get d k = None ↔ k ∉ Dict.keys d.
Proof.
  unfold Dict.keys. induction d as [|[k' v'] d IH]; simpl.
  { split; [intros _; apply not_elem_of_nil|done]. }
  rewrite not_elem_of_cons, <- IH. case_bool_decide as Hk; subst.
  - split; [done|]. by intros [? _].
  - split; [done|]. by intros [_ ?].
Qed.

Lemma get_Some_elem d k v : Dict.get d k = Some v → (k, v) ∈ d.
Proof.
  induction d as [|[k' v'] d IH]; simpl; [done|].
  case_bool_decide; [intros [= ->]; subst; left|right; auto].
Qed.

Lemma elem_get_Some d k v :
  NoDup (Dict.keys d) → (k, v) ∈ d → Dict.get d k = Some v.
Proof.
  unfold Dict.keys. induction d as [|[k' v'] d IH]; simpl.
  { intros _ []%elem_of_nil. }
  intros [Hk' Hd]%NoDup_cons [[= -> ->]|Hin]%elem_of_cons.
  { by rewrite bool_decide_eq_true_2. }
  rewrite bool_decide_eq_false_2; [by apply IH|].
  intros ->. apply Hk'. by apply (list_elem_of_fmap_2 fst _ (k, v)).
Qed.

Lemma get_set_eq d k v : Dict.get (Dict.set d k v) k = Some v.
Proof.
  induction d as [|[k' v'] d IH]; simpl.
  { by rewrite bool_decide_eq_true_2. }
  case_bool_decide as Hk; simpl.
  - by rewrite bool_decide_eq_true_2.
  - by rewrite bool_decide_eq_false_2.
Qed.

Lemma get_set_ne d k k' v :
  k ≠ k' → Dict.get (Dict.set d k v) k' = Dict.get d k'.
Proof.
  intros Hne. induction d as [|[k0 v0] d IH]; simpl.
  { by rewrite bool_decide_eq_false_2. }
  case_bool_decide as Hk; simpl.
  - subst k0. by rewrite !bool_decide_eq_false_2.
  - by rewrite IH.
Qed.

Lemma set_same d k v : Dict.get d k = Some v → Dict.set d k v = d.
Proof.
  induction d as [|[k' v'] d IH]; simpl; [done|].
  case_bool_decide; [by intros [= ->]|]. intros Hget. by rewrite IH.
Qed.

Lemma set_absent d k v : Dict.get d k = None → Dict.set d k v = d ++ [(k, v)].
Proof.
  induction d as [|[k' v'] d IH]; simpl; [done|].
  case_bool_decide; [done|]. intros Hget. by rewrite IH.
Qed.

Lemma remove_absent d k : Dict.get d k = None → Dict.remove d k = d.
Proof.
  induction d as [|[k' v'] d IH]; simpl; [done|].
  case_bool_decide; [done|]. intros Hget. by rewrite IH.
Qed.

(** A stored key splits the map around its item; assignment replaces the
    item where it stands and deletion closes the gap. *)
Lemma present_split d k v0 :
  Dict.get d k = Some v0 →
  ∃ d1 d2, d = d1 ++ (k, v0) :: d2 ∧
    (∀ v, Dict.set d k v = d1 ++ (k, v) :: d2) ∧
    Dict.remove d k = d1 ++ d2.
Proof.
  induction d as [|[k' v'] d IH]; simpl; [done|].
  case_bool_decide as Hk.
  - intros [= ->]. subst k'. by exists [], d.
  - intros (d1 & d2 & -> & Hset & Hrem)%IH.
    exists ((k', v') :: d1), d2. split_and!; [done| |by rewrite Hrem].
    intros v. by rewrite Hset.
Qed.

Lemma get_remove_eq d k :
  NoDup (Dict.keys d) → Dict.get (Dict.remove d k) k = None.
Proof.
  unfold Dict.keys. induction d as [|[k' v'] d IH]; [done|].
  rewrite fmap_cons. intros [Hk' Hd]%NoDup_cons. cbn [Dict.remove].
  case_bool_decide as Hk; simpl in *.
  - subst. by apply get_None.
  - rewrite bool_decide_eq_false_2 by done. by apply IH.
Qed.

Lemma get_remove_ne d k k' :
  k ≠ k' → Dict.get (Dict.remove d k) k' = Dict.get d k'.
Proof.
  intros Hne. induction d as [|[k0 v0] d IH]; simpl; [done|].
  case_bool_decide as Hk; simpl.
  - subst k0. by rewrite bool_decide_eq_false_2.
  - by rewrite IH.
Qed.

Lemma set_length d k v :
  length (Dict.set d k v)
  = match Dict.get d k with Some _ => length d | None => S (length d) end.
Proof.
  induction d as [|[k' v'] d IH]; simpl; [done|].
  case_bool_decide; simpl; [done|]. rewrite IH. by destruct (Dict.get d k).
Qed.

Lemma remove_length d k v0 :
  Dict.get d k = Some v0 → S (length (Dict.remove d k)) = length d.
Proof.
  intros (d1 & d2 & -> & _ & ->)%present_split.
  rewrite !length_app. simpl. lia.
Qed.

Lemma remove_set_absent d k v :
  Dict.get d k = None → Dict.remove (Dict.set d k v) k = d.
Proof.
  induction d as [|[k' v'] d IH]; simpl.
  { by rewrite bool_decide_eq_true_2. }
  case_bool_decide as Hk; [done|]. simpl.
  rewrite bool_decide_eq_false_2 by done. intros Hget. by rewrite IH.
Qed.
End dict.

(** ** An index follows the item map *)

Section index_ok.
Import ThreadSafeInventoryService.
Context (key : Item → num).
Implicit Types d : list (str * Item).
Implicit Types index : list entry.

Lemma entries_of_elem d x :
  x ∈ entries_of key d ↔ ∃ item, (x.2, item) ∈ d ∧ x.1 = key item.
Proof.
  unfold entries_of. rewrite list_elem_of_fmap. split.
  - intros ([k item] & -> & Hin). by exists item.
  - intros (item & Hin & Hx). exists (x.2, item). by destruct x; simplify_eq/=.
Qed.

Lemma entries_of_ids d : (entries_of key d).*2 = Dict.keys d.
Proof.
  unfold entries_of, Dict.keys. rewrite <- list_fmap_compose.
  by apply list_fmap_ext.
Qed.

Lemma index_ok_ids index d : index_ok key index d → index.*2 ≡ₚ Dict.keys d.
Proof. intros (_ & Hperm & _). by rewrite Hperm, entries_of_ids. Qed.

Lemma index_ok_numbers index d :
  index_ok key index d → Forall (λ e : entry, Py.isnan e.1 = false) index.
Proof.
  intros (_ & Hperm & Hnum). rewrite Hperm. unfold entries_of.
  by rewrite Forall_fmap.
Qed.

Lemma index_ok_insort index d d' k v :
  index_ok key index d → k ∉ Dict.keys d → d' ≡ₚ (k, v) :: d →
  Py.isnan (key v) = false →
  index_ok key (Bisect.insort index (key v, k)) d'.
Proof.
  intros Hok Hk Hd' Hv. pose proof Hok as (Hsorted & Hperm & Hnum).
  split_and!.
  - apply insort_sorted; [done|by eapply index_ok_numbers|done|].
    by rewrite (index_ok_ids index d).
  - rewrite insort_perm, Hperm. unfold entries_of. by rewrite Hd'.
  - rewrite Hd'. by constructor.
Qed.

Lemma index_ok_discard index d1 d2 k old :
  index_ok key index (d1 ++ (k, old) :: d2) →
  index_ok key (discard_entry index (key old, k)) (d1 ++ d2).
Proof.
  intros (Hsorted & Hperm & Hnum).
  destruct (discard_entry_present index (key old, k) Hsorted)
    as (l1 & l2 & -> & ->).
  { rewrite Hperm. apply entries_of_elem. exists old. split; [|done].
    apply elem_of_app. right. left. }
  split_and!.
  - apply StronglySorted_app in Hsorted as (H12 & Hs1 & [_ Hs2]%StronglySorted_cons).
    apply StronglySorted_app. split_and!; [|done..].
    intros x1 x2 H1 H2. apply H12; [done|by right].
  - unfold entries_of in *. rewrite fmap_app in *. rewrite fmap_cons in Hperm.
    simpl in Hperm. rewrite <- !Permutation_middle in Hperm.
    by apply (inj (cons _)) in Hperm.
  - apply Forall_app in Hnum as [H1 [_ H2]%Forall_cons_1].
    by apply Forall_app.
Qed.

Lemma index_ok_elem index d x :
  NoDup (Dict.keys d) → index_ok key index d →
  x ∈ index ↔ ∃ item, Dict.get d x.2 = Some item ∧ x.1 = key item.
Proof.
  intros Hnd (_ & Hperm & _). rewrite Hperm, entries_of_elem.
  split; intros (item & Hin & Hx); exists item; split; try done.
  - by apply elem_get_Some.
  - by apply get_Some_elem.
Qed.

Lemma index_ok_length index d : index_ok key index d → length index = length d.
Proof.
  intros (_ & Hperm & _). rewrite Hperm. unfold entries_of.
  by rewrite length_fmap.
Qed.

Lemma index_ok_NoDup index d : index_ok key index d → NoDup index.
Proof.
  intros [Hsorted _]. induction Hsorted as [|x l Hs IH Hx]; constructor; [|done].
  intros Hin. rewrite Forall_forall in Hx. exact (tuple_lt_irrefl x (Hx x Hin)).
Qed.
End index_ok.

(** ** The cache decorator *)

Section lru.
Context {S K V : Type} (same_key : K → K → bool).
Implicit Types c : list (K * V).

Lemma lru_lookup_elem c k v :
  Lru.lookup same_key c k = Some v →
  (Lru.stored_key same_key c k, v) ∈ c
  ∧ same_key (Lru.stored_key same_key c k) k = true.
Proof.
  induction c as [|[k' v'] c IH]; simpl; [done|].
  destruct (same_key k' k) eqn:Hk.
  - intros [= ->]. split; [left|done].
  - intros [Hin Hsame]%IH. split; [by right|done].
Qed.

Lemma lru_lookup_None c k :
  Lru.lookup same_key c k = None →
  Forall (λ k', same_key k' k = false) c.*1.
Proof.
  induction c as [|[k' v'] c IH]; simpl; [by constructor|].
  destruct (same_key k' k) eqn:Hk; [done|]. intros Hc.
  constructor; [done|by apply IH].
Qed.

(** A decorated method returns what its body returns, as long as the
    entries that its arguments find are results of the body. *)
Lemma cached_outcome maxsize (cache : S → list (K * V)) set_cache k body s :
  (∀ k' v, (k', v) ∈ cache s → same_key k' k = true →
           (body s).1 = Returns v) →
  (Lru.cached same_key maxsize cache set_cache k body s).1 = (body s).1.
Proof.
  intros Hok. unfold Lru.cached.
  destruct (Lru.lookup same_key (cache s) k) as [v|] eqn:Hlookup; simpl.
  - symmetry. apply lru_lookup_elem in Hlookup as [Hin Hsame]. by eapply Hok.
  - by destruct (body s) as [[v|e] s'].
Qed.

(** With nothing stored, the decorated method runs its body. *)
Lemma cached_empty maxsize (cache : S → list (K * V)) set_cache k body s :
  cache s = [] →
  (Lru.cached same_key maxsize cache set_cache k body s).1 = (body s).1.
Proof.
  intros Hempty. apply cached_outcome. rewrite Hempty.
  by intros k' v ?%elem_of_nil.
Qed.

(** The state after a decorated call of a body that only reads: the state
    before with another cache, whose entries were stored before or are
    the result of this call. *)
Lemma cached_state maxsize (cache : S → list (K * V)) set_cache k body s :
  (body s).2 = s → set_cache (cache s) s = s →
  ∃ c', (Lru.cached same_key maxsize cache set_cache k body s).2
        = set_cache c' s ∧
    ∀ k' v', (k', v') ∈ c' →
      (k', v') ∈ cache s ∨ (k' = k ∧ (body s).1 = Returns v').
Proof.
  intros Hpure Hsame. unfold Lru.cached.
  destruct (Lru.lookup same_key (cache s) k) as [v|] eqn:Hlookup; simpl.
  - eexists. split; [done|].
    intros k' v' [[= -> ->]|Hin]%elem_of_cons; left.
    + by apply lru_lookup_elem.
    + unfold Lru.forget in Hin. by apply list_elem_of_filter in Hin as [_ ?].
  - destruct (body s) as [[v|e] s'] eqn:Hbody; simpl in *; subst s'.
    + eexists. split; [done|].
      intros k' v' Hin. apply (subseteq_take maxsize) in Hin.
      apply elem_of_cons in Hin as [[= -> ->]|Hin]; [by right|by left].
    + exists (cache s). split; [done|]. by left.
Qed.

(** What a decorated call leaves untouched: every part of the state that
    the cache setter does not write. *)
Lemma cached_other {C} (other : S → C) maxsize (cache : S → list (K * V))
    set_cache k body s :
  (body s).2 = s → (∀ c, other (set_cache c s) = other s) →
  other (Lru.cached same_key maxsize cache set_cache k body s).2 = other s.
Proof.
  intros Hpure Hset. unfold Lru.cached.
  destruct (Lru.lookup same_key (cache s) k) as [v|]; simpl; [apply Hset|].
  destruct (body s) as [[v|e] s'] eqn:Hbody; simpl in *; subst s'; [|done].
  apply Hset.
Qed.

(** A second call with the same arguments has the outcome of the first. *)
Lemma cached_repeat maxsize (cache : S → list (K * V)) set_cache k body s :
  same_key k k = true →
  (0 < maxsize)%nat → (body s).2 = s →
  (∀ c, cache (set_cache c s) = c) →
  (Lru.cached same_key maxsize cache set_cache k body
     (Lru.cached same_key maxsize cache set_cache k body s).2).1
  = (Lru.cached same_key maxsize cache set_cache k body s).1.
Proof.
  intros Hrefl Hsize Hpure Hget. unfold Lru.cached at 2 3.
  destruct (Lru.lookup same_key (cache s) k) as [v|] eqn:Hlookup; simpl.
  - unfold Lru.cached. rewrite Hget. simpl.
    by rewrite (proj2 (lru_lookup_elem _ _ _ Hlookup)).
  - destruct (body s) as [[v|e] s'] eqn:Hbody; simpl in *; subst s'.
    + unfold Lru.cached. rewrite Hget.
      destruct maxsize as [|n]; [lia|]. simpl.
      by rewrite Hrefl.
    + unfold Lru.cached. by rewrite Hlookup, Hbody.
Qed.

Lemma forget_length c k v :
  (Lru.stored_key same_key c k, v) ∈ c →
  same_key (Lru.stored_key same_key c k) k = true →
  (length (Lru.forget same_key c k) < length c)%nat.
Proof.
  unfold Lru.forget. generalize (Lru.stored_key same_key c k). intros k0.
  induction c as [|[k' v'] c IH]; [by intros ?%elem_of_nil|].
  rewrite filter_cons. simpl. intros Hin Hsame.
  destruct (decide (same_key k' k = false)) as [Hne|Heq]; simpl.
  - apply elem_of_cons in Hin as [[= ? ?]|Hin]; [congruence|].
    specialize (IH Hin Hsame). lia.
  - pose proof (length_filter (λ kv : K * V, same_key kv.1 k = false) c). lia.
Qed.
End lru.

Lemma sublist_fmap_NoDup {A B} (f : A → B) (l1 l2 : list A) :
  l1 `sublist_of` l2 → NoDup (f <$> l2) → NoDup (f <$> l1).
Proof.
  induction 1 as [|x l1 l2 Hsub IH|x l1 l2 Hsub IH]; rewrite ?fmap_cons.
  - done.
  - intros [Hx Hnd]%NoDup_cons. apply NoDup_cons. split; [|by apply IH].
    intros (y & Hy & Hin)%list_elem_of_fmap. apply Hx. rewrite Hy.
    apply list_elem_of_fmap_2. by eapply elem_of_sublist.
  - intros [_ Hnd]%NoDup_cons. by apply IH.
Qed.

Lemma sublist_sorted {A} (R : relation A) (l1 l2 : list A) :
  l1 `sublist_of` l2 → StronglySorted R l2 → StronglySorted R l1.
Proof.
  induction 1 as [|x l1 l2 Hsub IH|x l1 l2 Hsub IH].
  - done.
  - intros [Hx Hl]%StronglySorted_cons. constructor; [by apply IH|].
    rewrite Forall_forall in Hx. apply Forall_forall. intros y Hy.
    apply Hx. by eapply elem_of_sublist.
  - intros [_ Hl]%StronglySorted_cons. by apply IH.
Qed.

Section lru_bound.
Import Further.
Context {S K V : Type} (same_key : K → K → bool).
Hypothesis same_key_refl : ∀ k, same_key k k = true.
Hypothesis same_key_sym : ∀ k k', same_key k k' = same_key k' k.
Hypothesis same_key_trans :
  ∀ k1 k2 k3, same_key k1 k2 = true → same_key k2 k3 = true →
              same_key k1 k3 = true.
Implicit Types c : list (K * V).

Lemma distinct_NoDup (ks : list K) :
  StronglySorted (λ k k', same_key k k' = false) ks → NoDup ks.
Proof.
  induction 1 as [|k ks Hs IH Hk]; constructor; [|done].
  intros Hin. rewrite Forall_forall in Hk.
  specialize (Hk k Hin). by rewrite same_key_refl in Hk.
Qed.

Lemma cache_bounded_intro maxsize c :
  (length c ≤ maxsize)%nat →
  StronglySorted (λ k k', same_key k k' = false) c.*1 →
  cache_bounded same_key maxsize c.
Proof. intros Hlen Hd. split_and!; [done|by apply distinct_NoDup|done]. Qed.

(** A decorated call keeps its cache within [maxsize], one entry per key. *)
Lemma cached_bounded maxsize (cache : S → list (K * V)) set_cache k body s :
  (body s).2 = s → (∀ c, cache (set_cache c s) = c) →
  cache_bounded same_key maxsize (cache s) →
  cache_bounded same_key maxsize
    (cache (Lru.cached same_key maxsize cache set_cache k body s).2).
Proof.
  intros Hpure Hget (Hlen & _ & Hd). unfold Lru.cached.
  destruct (Lru.lookup same_key (cache s) k) as [v|] eqn:Hlookup; simpl.
  - rewrite Hget. apply lru_lookup_elem in Hlookup as [Hin Hsame].
    apply cache_bounded_intro.
    + pose proof (forget_length same_key _ _ _ Hin Hsame). simpl. lia.
    + rewrite fmap_cons. constructor.
      * eapply sublist_sorted; [|exact Hd]. apply fmap_sublist, sublist_filter.
      * apply Forall_fmap, Forall_forall. intros [k' v'] Hk'.
        apply list_elem_of_filter in Hk' as [Hne _]. simpl in *.
        destruct (same_key (Lru.stored_key same_key (cache s) k) k') eqn:Hkk;
          [|done].
        rewrite same_key_sym in Hkk.
        by rewrite (same_key_trans _ _ _ Hkk Hsame) in Hne.
  - destruct (body s) as [[v|e] s'] eqn:Hbody; simpl in *; subst s'.
    2:{ by apply cache_bounded_intro. }
    rewrite Hget. apply cache_bounded_intro.
    + rewrite length_take. lia.
    + eapply sublist_sorted; [apply fmap_sublist, sublist_take|].
      rewrite fmap_cons. constructor; [done|].
      apply lru_lookup_None in Hlookup.
      eapply Forall_impl; [exact Hlookup|]. intros k'. simpl.
      by rewrite same_key_sym.
Qed.
End lru_bound.

(** The keys of the four caches. *)
Section keys.
Implicit Types k : num * num.

Lemma same_bounds_refl k : Lru.same_bounds k k = true.
Proof. unfold Lru.same_bounds. by rewrite !same_refl. Qed.

Lemma same_bounds_sym k k' : Lru.same_bounds k k' = Lru.same_bounds k' k.
Proof.
  unfold Lru.same_bounds. by rewrite (same_sym k.1), (same_sym k.2).
Qed.

Lemma same_bounds_trans k1 k2 k3 :
  Lru.same_bounds k1 k2 = true → Lru.same_bounds k2 k3 = true →
  Lru.same_bounds k1 k3 = true.
Proof.
  unfold Lru.same_bounds. rewrite !andb_true_iff.
  intros [H1 H2] [H3 H4]. split; by eapply same_trans.
Qed.

Lemma same_int_refl (k : Z) : Lru.same_int k k = true.
Proof. unfold Lru.same_int. by rewrite bool_decide_eq_true_2. Qed.

Lemma same_int_sym (k k' : Z) : Lru.same_int k k' = Lru.same_int k' k.
Proof. unfold Lru.same_int. by repeat case_bool_decide. Qed.

Lemma same_int_trans (k1 k2 k3 : Z) :
  Lru.same_int k1 k2 = true → Lru.same_int k2 k3 = true →
  Lru.same_int k1 k3 = true.
Proof. unfold Lru.same_int. rewrite !bool_decide_eq_true. congruence. Qed.

Lemma same_int_eq (k k' : Z) : Lru.same_int k k' = true → k = k'.
Proof. unfold Lru.same_int. by rewrite bool_decide_eq_true. Qed.
End keys.

(** ** The methods, unfolded *)

Section methods.
Import ThreadSafeInventoryService.

Lemma upsert_item_unfold item_id p q md s :
  upsert_item item_id p q md s =
  if Py.lt p 0 || bool_decide (q < 0)
  then (Raises InvalidItemError, s)
  else
    (Returns (),
     mkService
       (Dict.set (_items s) item_id (Item_init p q (Some (Py.or_empty md))))
       (Bisect.insort
          match Dict.get (_items s) item_id with
          | Some old => discard_entry (_price_index s) (price old, item_id)
          | None => _price_index s
          end (p, item_id))
       (Bisect.insort
          match Dict.get (_items s) item_id with
          | Some old =>
              discard_entry (_quantity_index s) (Int (qty old), item_id)
          | None => _quantity_index s
          end (Int q, item_id))
       [] [] [] []).
Proof.
  unfold upsert_item. destruct (_ || _); [done|].
  unfold bind, gets, modify, ret, _clear_caches. simpl.
  by destruct (Dict.get (_items s) item_id).
Qed.

Lemma remove_item_unfold item_id s :
  remove_item item_id s =
  match Dict.get (_items s) item_id with
  | Some item =>
      (Returns (),
       mkService (Dict.remove (_items s) item_id)
         (discard_entry (_price_index s) (price item, item_id))
         (discard_entry (_quantity_index s) (Int (qty item), item_id))
         [] [] [] [])
  | None => (Raises (ItemNotFoundError item_id), s)
  end.
Proof.
  unfold remove_item, bind, Dict.pop. simpl.
  destruct (Dict.get (_items s) item_id) as [item|] eqn:Hget; [done|].
  unfold raise, set_items. rewrite remove_absent by done. by destruct s.
Qed.

(** The bodies of the range queries take bounds that are the same
    objects, or equal, for the same. *)
Lemma price_range_same s low high low' high' :
  Py.same low low' = true → Py.same high high' = true →
  price_range s low high = price_range s low' high'.
Proof.
  intros Hlow Hhigh. unfold price_range, Bisect.bisect_left, Bisect.bisect_right.
  f_equal.
  - apply loop_ext. intros y.
    by rewrite !tuple_ltb_low, (same_lt_r low low' y.1).
  - apply loop_ext. intros y. f_equal. unfold Py.tuple_ltb. cbn [fst snd].
    by rewrite (same_same_l high high' y.1), (same_lt_l high high' y.1).
Qed.

Lemma range_query_quantity_body_same k k' s :
  Lru.same_bounds k k' = true →
  range_query_quantity_body k.1 k.2 s = range_query_quantity_body k'.1 k'.2 s.
Proof.
  unfold Lru.same_bounds. rewrite andb_true_iff. intros [Hlow Hhigh].
  unfold range_query_quantity_body.
  by rewrite (price_range_same s k.1 k.2 k'.1 k'.2).
Qed.

Lemma range_query_value_body_same k k' s :
  Lru.same_bounds k k' = true →
  range_query_value_body k.1 k.2 s = range_query_value_body k'.1 k'.2 s.
Proof.
  unfold Lru.same_bounds. rewrite andb_true_iff. intros [Hlow Hhigh].
  unfold range_query_value_body.
  by rewrite (price_range_same s k.1 k.2 k'.1 k'.2).
Qed.
End methods.

(** ** Assignment and deletion keep the map and its indices in step *)

Section upkeep.
Import ThreadSafeInventoryService.
Implicit Types d : list (str * Item).
Implicit Types index : list entry.

Lemma keys_set_NoDup d k v :
  NoDup (Dict.keys d) → NoDup (Dict.keys (Dict.set d k v)).
Proof.
  intros Hnd. destruct (Dict.get d k) as [old|] eqn:Hget.
  - destruct (present_split d k old Hget) as (d1 & d2 & -> & -> & _).
    unfold Dict.keys in *. by rewrite fmap_app, fmap_cons in *.
  - rewrite set_absent by done. unfold Dict.keys in *. rewrite fmap_app.
    apply NoDup_app. split_and!; [done| |apply NoDup_singleton].
    intros k' Hk' ->%list_elem_of_singleton. by apply get_None in Hget.
Qed.

Lemma keys_remove_NoDup d k :
  NoDup (Dict.keys d) → NoDup (Dict.keys (Dict.remove d k)).
Proof.
  intros Hnd. destruct (Dict.get d k) as [old|] eqn:Hget.
  - destruct (present_split d k old Hget) as (d1 & d2 & -> & _ & ->).
    unfold Dict.keys in *. rewrite fmap_app, fmap_cons in Hnd.
    rewrite fmap_app. apply NoDup_app in Hnd as (Hd1 & Hd12 & [_ Hd2]%NoDup_cons).
    apply NoDup_app. split_and!; [done| |done].
    intros k' Hk' Hk2. apply (Hd12 k' Hk'). by right.
  - by rewrite remove_absent.
Qed.

Lemma keys_split_fresh d1 d2 k (v : Item) :
  NoDup (Dict.keys (d1 ++ (k, v) :: d2)) → k ∉ Dict.keys (d1 ++ d2).
Proof.
  unfold Dict.keys. rewrite !fmap_app, fmap_cons. simpl.
  intros (Hd1 & Hd12 & [Hk Hd2]%NoDup_cons)%NoDup_app.
  intros [Hin|Hin]%elem_of_app; [|done].
  apply (Hd12 k Hin). by left.
Qed.

Lemma set_Forall (P : str * Item → Prop) d k v :
  Forall P d → P (k, v) → Forall P (Dict.set d k v).
Proof.
  intros Hd Hv. induction d as [|[k' v'] d IH]; simpl.
  { by constructor. }
  apply Forall_cons_1 in Hd as [Hkv Hd].
  case_bool_decide; subst; constructor; auto.
Qed.

Lemma remove_Forall (P : str * Item → Prop) d k :
  Forall P d → Forall P (Dict.remove d k).
Proof.
  intros Hd. induction d as [|[k' v'] d IH]; simpl; [done|].
  apply Forall_cons_1 in Hd as [Hkv Hd].
  case_bool_decide; [done|]. constructor; auto.
Qed.

Lemma index_ok_upsert (key : Item → num) index d k v :
  NoDup (Dict.keys d) → index_ok key index d → Py.isnan (key v) = false →
  index_ok key
    (Bisect.insort
       match Dict.get d k with
       | Some old => discard_entry index (key old, k)
       | None => index
       end (key v, k))
    (Dict.set d k v).
Proof.
  intros Hnd Hok Hv. destruct (Dict.get d k) as [old|] eqn:Hget.
  - destruct (present_split d k old Hget) as (d1 & d2 & -> & -> & _).
    apply (index_ok_insort key _ (d1 ++ d2)).
    + by apply index_ok_discard.
    + by eapply keys_split_fresh.
    + by rewrite Permutation_middle.
    + done.
  - rewrite set_absent by done.
    apply (index_ok_insort key _ d); [done|by apply get_None| |done].
    by rewrite Permutation_app_comm.
Qed.

Lemma index_ok_remove (key : Item → num) index d k old :
  index_ok key index d → Dict.get d k = Some old →
  index_ok key (discard_entry index (key old, k)) (Dict.remove d k).
Proof.
  intros Hok Hget.
  destruct (present_split d k old Hget) as (d1 & d2 & -> & _ & ->).
  by apply index_ok_discard.
Qed.
End upkeep.

(** ** The invariants of the service *)

Section invariant.
Import ThreadSafeInventoryService Invariant Trace Queries.

Lemma index_ok_nil key : index_ok key [] [].
Proof. split_and!; [constructor|done|constructor]. Qed.

Lemma coherent_init : coherent init.
Proof.
  split; simpl; try by intros k v ?%elem_of_nil.
  - constructor.
  - constructor.
  - apply index_ok_nil.
Qed.

(** A mutation leaves a coherent state behind, with empty caches. *)
Lemma coherent_mutated d pi qi :
  NoDup (Dict.keys d) →
  Forall (λ kv, Py.lt (price kv.2) 0 = false ∧ 0 ≤ qty kv.2) d →
  index_ok qty_key qi d →
  coherent (mkService d pi qi [] [] [] []).
Proof. intros. split; simpl; try done; by intros k v ?%elem_of_nil. Qed.

Lemma coherent_upsert item_id p q md s :
  coherent s → coherent (upsert_item item_id p q md s).2.
Proof.
  intros Hs. rewrite upsert_item_unfold.
  destruct (Py.lt p 0) eqn:Hp; [done|].
  destruct (bool_decide (q < 0)) eqn:Hq; [done|].
  apply bool_decide_eq_false in Hq.
  destruct Hs. simpl. apply coherent_mutated.
  - by apply keys_set_NoDup.
  - apply set_Forall; [done|]. simpl. split; [done|lia].
  - by apply (index_ok_upsert qty_key _ _ _
                (Item_init p q (Some (Py.or_empty md)))).
Qed.

Lemma coherent_remove item_id s :
  coherent s → coherent (remove_item item_id s).2.
Proof.
  intros Hs. rewrite remove_item_unfold.
  destruct (Dict.get (_items s) item_id) as [item|] eqn:Hget; [|done].
  destruct Hs. simpl. apply coherent_mutated.
  - by apply keys_remove_NoDup.
  - by apply remove_Forall.
  - by apply (index_ok_remove qty_key).
Qed.

(** The bodies of the queries read the item map and the indices only, so
    the caches may be exchanged for any others that hold their results. *)
Lemma coherent_caches s c1 c2 c3 c4 :
  coherent s →
  cache_ok (λ k, range_query_quantity_body k.1 k.2) c1 s →
  cache_ok (λ k, range_query_value_body k.1 k.2) c2 s →
  cache_ok top_k_by_price_body c3 s →
  cache_ok top_k_by_quantity_body c4 s →
  coherent
    (mkService (_items s) (_price_index s) (_quantity_index s) c1 c2 c3 c4).
Proof.
  intros [] H1 H2 H3 H4. destruct s. by split.
Qed.

Lemma coherent_range_query_quantity low high s :
  coherent s → coherent (range_query_quantity low high s).2.
Proof.
  intros Hs. unfold range_query_quantity.
  destruct (cached_state Lru.same_bounds 128 range_query_quantity_cache
              set_range_query_quantity_cache
              (low, high) (range_query_quantity_body low high) s eq_refl)
    as (c' & -> & Hc'); [by destruct s|].
  pose proof Hs as []. destruct s; simpl in *.
  apply (coherent_caches _ c' _ _ _ Hs); simpl; [|done..].
  intros [lo hi] v [Hin|[[= -> ->] Hv]]%Hc'; [by auto|done].
Qed.

Lemma coherent_range_query_value low high s :
  coherent s → coherent (range_query_value low high s).2.
Proof.
  intros Hs. unfold range_query_value.
  destruct (cached_state Lru.same_bounds 128 range_query_value_cache
              set_range_query_value_cache
              (low, high) (range_query_value_body low high) s eq_refl)
    as (c' & -> & Hc'); [by destruct s|].
  pose proof Hs as []. destruct s; simpl in *.
  apply (coherent_caches _ _ c' _ _ Hs); simpl; [done| |done..].
  intros [lo hi] v [Hin|[[= -> ->] Hv]]%Hc'; [by auto|done].
Qed.

Lemma coherent_top_k_by_price k s :
  coherent s → coherent (top_k_by_price k s).2.
Proof.
  intros Hs. unfold top_k_by_price.
  destruct (cached_state Lru.same_int 64 top_k_by_price_cache
              set_top_k_by_price_cache
              k (top_k_by_price_body k) s eq_refl)
    as (c' & -> & Hc'); [by destruct s|].
  pose proof Hs as []. destruct s; simpl in *.
  apply (coherent_caches _ _ _ c' _ Hs); simpl; [done..| |done].
  intros k' v [Hin|[-> Hv]]%Hc'; [by auto|done].
Qed.

Lemma coherent_top_k_by_quantity k s :
  coherent s → coherent (top_k_by_quantity k s).2.
Proof.
  intros Hs. unfold top_k_by_quantity.
  destruct (cached_state Lru.same_int 64 top_k_by_quantity_cache
              set_top_k_by_quantity_cache
              k (top_k_by_quantity_body k) s eq_refl)
    as (c' & -> & Hc'); [by destruct s|].
  pose proof Hs as []. destruct s; simpl in *.
  apply (coherent_caches _ _ _ _ c' Hs); simpl; [done..|].
  intros k' v [Hin|[-> Hv]]%Hc'; [by auto|done].
Qed.

Lemma coherent_step s c : coherent s → coherent (step s c).
Proof.
  intros Hs. destruct c; simpl.
  - by apply coherent_upsert.
  - by apply coherent_remove.
  - unfold get_item. by destruct (Dict.get _ _).
  - by apply coherent_range_query_quantity.
  - by apply coherent_range_query_value.
  - by apply coherent_top_k_by_price.
  - by apply coherent_top_k_by_quantity.
  - done.
  - done.
Qed.

Lemma coherent_exec cs : coherent (exec cs).
Proof.
  unfold exec. induction cs as [|c cs IH] using rev_ind; simpl.
  - apply coherent_init.
  - rewrite foldl_app. simpl. by apply coherent_step.
Qed.

Lemma reachable_coherent s : reachable s → coherent s.
Proof. intros [cs ->]. apply coherent_exec. Qed.

(** The queries leave the item map and the indices alone. *)
Lemma query_items s c :
  is_mutation c = false → _items (step s c) = _items s.
Proof.
  destruct c; try done; intros _; simpl.
  - unfold get_item. by destruct (Dict.get _ _).
  - by apply (cached_other _ _items).
  - by apply (cached_other _ _items).
  - by apply (cached_other _ _items).
  - by apply (cached_other _ _items).
Qed.

Lemma query_price_index s c :
  is_mutation c = false → _price_index (step s c) = _price_index s.
Proof.
  destruct c; try done; intros _; simpl.
  - unfold get_item. by destruct (Dict.get _ _).
  - by apply (cached_other _ _price_index).
  - by apply (cached_other _ _price_index).
  - by apply (cached_other _ _price_index).
  - by apply (cached_other _ _price_index).
Qed.

Lemma query_quantity_index s c :
  is_mutation c = false → _quantity_index (step s c) = _quantity_index s.
Proof.
  destruct c; try done; intros _; simpl.
  - unfold get_item. by destruct (Dict.get _ _).
  - by apply (cached_other _ _quantity_index).
  - by apply (cached_other _ _quantity_index).
  - by apply (cached_other _ _quantity_index).
  - by apply (cached_other _ _quantity_index).
Qed.

Lemma consistent_init : consistent init.
Proof. split; [apply coherent_init|apply index_ok_nil]. Qed.

Lemma consistent_upsert item_id p q md s :
  Py.isnan p = false →
  consistent s → consistent (upsert_item item_id p q md s).2.
Proof.
  intros Hnan [Hs Hp]. split; [by apply coherent_upsert|].
  rewrite upsert_item_unfold. destruct (_ || _); [done|]. simpl.
  destruct Hs.
  by apply (index_ok_upsert price _ _ _
              (Item_init p q (Some (Py.or_empty md)))).
Qed.

Lemma consistent_remove item_id s :
  consistent s → consistent (remove_item item_id s).2.
Proof.
  intros [Hs Hp]. split; [by apply coherent_remove|].
  rewrite remove_item_unfold.
  destruct (Dict.get (_items s) item_id) as [item|] eqn:Hget; [|done].
  simpl. by apply (index_ok_remove price).
Qed.

Lemma consistent_step s c :
  nan_free c = true → consistent s → consistent (step s c).
Proof.
  intros Hc Hs. destruct (is_mutation c) eqn:Hmut.
  - destruct c; try done; simpl.
    + apply consistent_upsert; [|done]. simpl in Hc.
      by apply negb_true_iff in Hc.
    + by apply consistent_remove.
  - destruct Hs as [Hs Hp]. split; [by apply coherent_step|].
    by rewrite query_items, query_price_index.
Qed.

Lemma consistent_exec cs : prices_are_numbers cs → consistent (exec cs).
Proof.
  unfold exec, prices_are_numbers.
  induction cs as [|c cs IH] using rev_ind; simpl.
  - intros _. apply consistent_init.
  - rewrite forallb_app, andb_true_iff. simpl. rewrite andb_true_r.
    intros [Hcs Hc]. rewrite foldl_app. simpl.
    apply consistent_step; [done|by apply IH].
Qed.

Lemma reachable_consistent s : reachable_with_numbers s → consistent s.
Proof. intros (cs & Hcs & ->). by apply consistent_exec. Qed.

Lemma computed_directly_empty s :
  range_query_quantity_cache s = [] → range_query_value_cache s = [] →
  top_k_by_price_cache s = [] → top_k_by_quantity_cache s = [] →
  computed_directly s.
Proof.
  intros H1 H2 H3 H4. split_and!; intros;
    by apply (cached_empty (S:=Service)).
Qed.

Lemma computed_directly_coherent s : coherent s → computed_directly s.
Proof.
  intros []. split_and!; intros;
    apply (cached_outcome (S:=Service)); intros k' v Hin Hsame.
  - rewrite <- (range_query_quantity_body_same k' (low, high)) by done.
    by apply (range_query_quantity_cache_ok0 k').
  - rewrite <- (range_query_value_body_same k' (low, high)) by done.
    by apply (range_query_value_cache_ok0 k').
  - apply same_int_eq in Hsame as <-. by apply top_k_by_price_cache_ok0.
  - apply same_int_eq in Hsame as <-. by apply top_k_by_quantity_cache_ok0.
Qed.
End invariant.

(** ** Entries of one identifier *)

Section entries.
Import ThreadSafeInventoryService Invariant Trace Queries.

Lemma entries_for_entries_of (key : Item → num) d item_id :
  NoDup (Dict.keys d) →
  entries_for (entries_of key d) item_id =
  match Dict.get d item_id with
  | Some item => [(key item, item_id)]
  | None => []
  end.
Proof.
  unfold entries_for, entries_of, Dict.keys.
  induction d as [|[k v] d IH]; [done|].
  rewrite !fmap_cons. intros [Hk Hd]%NoDup_cons.
  rewrite filter_cons. cbn [Dict.get fst snd].
  case_bool_decide as Hkk; subst.
  - rewrite decide_True by done. rewrite IH by done.
    by rewrite (proj2 (get_None d item_id) Hk).
  - rewrite decide_False by done. by apply IH.
Qed.

Lemma entries_for_stored (key : Item → num) index d item_id :
  NoDup (Dict.keys d) → index_ok key index d →
  entries_for index item_id
  = match Dict.get d item_id with
    | Some item => [(key item, item_id)]
    | None => []
    end.
Proof.
  intros Hnd (_ & Hperm & _).
  assert (entries_for index item_id ≡ₚ entries_for (entries_of key d) item_id)
    as Hfor by (unfold entries_for; by rewrite Hperm).
  rewrite entries_for_entries_of in Hfor by done.
  destruct (Dict.get d item_id).
  - by apply Permutation_singleton_r.
  - by apply Permutation_nil_r.
Qed.

Lemma entries_for_index (key : Item → num) index d item_id item :
  NoDup (Dict.keys d) → index_ok key index d →
  Dict.get d item_id = Some item →
  entries_for index item_id = [(key item, item_id)].
Proof.
  intros Hnd Hok Hget. by rewrite (entries_for_stored key index d), Hget.
Qed.

(** Insertion and removal of an entry leave the entries of the other
    identifiers as they are, whatever the index holds. *)
Lemma entries_for_insort (a : list entry) (key : num) item_id other :
  other ≠ item_id →
  entries_for (Bisect.insort a (key, item_id)) other = entries_for a other.
Proof.
  intros Hne. unfold entries_for, Bisect.insort, Bisect.list_insert_at.
  rewrite filter_app, filter_cons_False by (simpl; congruence).
  by rewrite <- filter_app, take_drop.
Qed.

Lemma entries_for_discard (a : list entry) (key : num) item_id other :
  other ≠ item_id →
  entries_for (discard_entry a (key, item_id)) other = entries_for a other.
Proof.
  intros Hne.
  destruct (discard_entry_cases a (key, item_id))
    as [->|(l1 & e & l2 & -> & He & ->)]; [done|].
  unfold entries_for. rewrite !filter_app, filter_cons_False; [done|].
  simpl in He. intros Heq. apply Hne. by rewrite <- Heq, He.
Qed.
End entries.

Import ThreadSafeInventoryService Invariant Trace Queries.

Lemma or_empty_default md : Py.or_empty md = default [] md.
Proof. by destruct md as [[|kv m]|]. Qed.

Lemma or_empty_idem md : Py.or_empty (Some (Py.or_empty md)) = Py.or_empty md.
Proof. by destruct md as [[|kv m]|]. Qed.

Lemma item_init_record p q md :
  Item_init p q (Some (Py.or_empty md)) = mkItem p q (default [] md).
Proof. unfold Item_init. by rewrite or_empty_idem, or_empty_default. Qed.

Section reinsertion.
Implicit Types a : list entry.
Implicit Types x : entry.

Lemma sorted_without a1 x a2 :
  StronglySorted tuple_lt (a1 ++ x :: a2) → StronglySorted tuple_lt (a1 ++ a2).
Proof.
  intros (H12 & Hs1 & [_ Hs2]%StronglySorted_cons)%StronglySorted_app.
  apply StronglySorted_app. split_and!; [|done..].
  intros x1 x2 H1 H2. apply H12; [done|by right].
Qed.

(** In an index under numbers with one entry per identifier, taking an
    entry out and putting it back gives the index as it was ... *)
Lemma insort_discard a x :
  StronglySorted tuple_lt a → Forall (λ y : entry, Py.isnan y.1 = false) a →
  NoDup a.*2 → x ∈ a →
  Bisect.insort (discard_entry a x) x = a.
Proof.
  intros Hsorted Hnum Hids Hx.
  destruct (discard_entry_present a x Hsorted Hx) as (l1 & l2 & -> & ->).
  pose proof (sorted_without _ _ _ Hsorted) as Hsorted'.
  apply (StronglySorted_unique_strong tuple_lt).
  - intros x1 x2 _ _ H1 H2. by destruct (tuple_lt_asym x1 x2).
  - apply insort_sorted; [done| | |].
    + apply Forall_app in Hnum as [H1 [_ H2]%Forall_cons_1]. by apply Forall_app.
    + apply Forall_app in Hnum as [_ [H _]%Forall_cons_1]. done.
    + rewrite fmap_app, fmap_cons in Hids.
      apply NoDup_app in Hids as (_ & H12 & [H2 _]%NoDup_cons).
      rewrite fmap_app. intros [Hin|Hin]%elem_of_app; [|done].
      apply (H12 _ Hin). left.
  - done.
  - by rewrite insort_perm, Permutation_middle.
Qed.

(** ... and so does putting in an entry for a new identifier and taking
    it out. *)
Lemma discard_insort a x :
  StronglySorted tuple_lt a → Forall (λ y : entry, Py.isnan y.1 = false) a →
  Py.isnan x.1 = false → x.2 ∉ a.*2 →
  discard_entry (Bisect.insort a x) x = a.
Proof.
  intros Hsorted Hnum Hx Hfresh.
  pose proof (insort_sorted a x Hsorted Hnum Hx Hfresh) as Hsorted'.
  destruct (discard_entry_present (Bisect.insort a x) x Hsorted')
    as (l1 & l2 & Hins & ->).
  { rewrite insort_perm. left. }
  apply (StronglySorted_unique_strong tuple_lt).
  - intros x1 x2 _ _ H1 H2. by destruct (tuple_lt_asym x1 x2).
  - rewrite Hins in Hsorted'. by eapply sorted_without.
  - done.
  - apply (inj (cons x)). by rewrite Permutation_middle, <- Hins, insort_perm.
Qed.
End reinsertion.

(** ** Top-K against the reference implementation *)

Section top_k.
Implicit Types d r : list (str * Item).
Implicit Types es index : list entry.

(** Both classes keep the same item map. *)
Lemma item_init_dataclass p q md :
  Item_init p q (Some (Py.or_empty md))
  = Inventory.Item_dataclass p q (match md with None => [] | Some m => m end).
Proof.
  unfold Item_init, Inventory.Item_dataclass.
  rewrite or_empty_idem. by destruct md as [[|kv m]|].
Qed.

Lemma ref_step_items ref s c :
  Inventory._items ref = _items s →
  Inventory._items (ref_step ref c) = _items (step s c).
Proof.
  intros Hitems. destruct (is_mutation c) eqn:Hmut.
  - destruct c; try done; simpl.
    + rewrite upsert_item_unfold. unfold Inventory.upsert_item.
      destruct (_ || _); [done|]. simpl.
      by rewrite Hitems, item_init_dataclass.
    + rewrite remove_item_unfold. unfold Inventory.remove_item.
      rewrite Hitems. by destruct (Dict.get (_items s) item_id).
  - rewrite query_items by done. destruct c; try done; simpl.
    unfold Inventory.get_item. by destruct (Dict.get _ _).
Qed.

Lemma ref_exec_items cs : Inventory._items (ref_exec cs) = _items (exec cs).
Proof.
  unfold ref_exec, exec. induction cs as [|c cs IH] using rev_ind; [done|].
  rewrite !foldl_app. simpl. by apply ref_step_items.
Qed.

(** The list comprehension of the top-K methods, on entries of an index
    that is in step with the item map: it raises nothing, and the result
    lists the stored records of the entries, in their order. *)
Lemma resolve_index (key : Item → num) index d es :
  NoDup (Dict.keys d) → index_ok key index d → es ⊆ index →
  ∃ r, resolve d es = Returns r ∧ entries_of key r = es ∧ r ⊆ d.
Proof.
  intros Hnd Hok. induction es as [|[z item_id] es IH]; intros Hsub.
  { exists []. split_and!; [done..|]. by intros x ?%elem_of_nil. }
  destruct IH as (r & Hr & Hes & Hrd).
  { intros x Hx. apply Hsub. by right. }
  assert ((z, item_id) ∈ index) as Hin by (apply Hsub; left).
  apply (index_ok_elem key index d _ Hnd Hok) in Hin as (item & Hget & Hz).
  simpl in Hget, Hz. subst z.
  exists ((item_id, item) :: r). simpl. unfold subscript.
  rewrite Hget, Hr. split_and!; [done| |].
  - by rewrite <- Hes.
  - intros x [->|Hx]%elem_of_cons; [by apply get_Some_elem|by apply Hrd].
Qed.

Lemma sorted_of_fmap {A B} (f : A → B) (R : relation B) (l : list A) :
  StronglySorted R (f <$> l) → StronglySorted (λ a b, R (f a) (f b)) l.
Proof.
  induction l as [|x l IH]; [constructor|].
  rewrite fmap_cons. intros [Hx Hl]%StronglySorted_cons.
  constructor; [by apply IH|]. by rewrite Forall_fmap in Hx.
Qed.

Lemma sorted_reverse_flip {A} (R : relation A) (l : list A) :
  StronglySorted R l → StronglySorted (flip R) (reverse l).
Proof.
  induction 1 as [|x l Hl IH Hx]; [constructor|].
  rewrite reverse_cons. apply StronglySorted_app. split_and!.
  - intros y z Hy ->%list_elem_of_singleton. rewrite elem_of_reverse in Hy.
    rewrite Forall_forall in Hx. unfold flip. by apply Hx.
  - done.
  - repeat constructor.
Qed.

(** [l[i:]] is a suffix of [l], and [l[-k:]] for [k >= 1], reversed, is the
    reversed list cut to [k] elements. *)
Lemma slice_from_drop {A} (l : list A) i : ∃ n, Py.slice_from l i = drop n l.
Proof. unfold Py.slice_from. by eexists. Qed.

Lemma reverse_slice_from {A} (l : list A) k :
  1 ≤ k → reverse (Py.slice_from l (- k)) = take (Z.to_nat k) (reverse l).
Proof.
  intros Hk. unfold Py.slice_from.
  rewrite bool_decide_eq_true_2 by lia. rewrite reverse_drop.
  destruct (decide (k ≤ Z.of_nat (length l))) as [Hle|Hgt].
  - f_equal. lia.
  - rewrite !take_ge; [done|rewrite length_reverse; lia..].
Qed.

(** The top-K body on a service whose index is in step with the item
    map. *)
Lemma top_k_body (key : Item → num) index d k :
  NoDup (Dict.keys d) → index_ok key index d →
  ∃ r, resolve d (reverse (Py.slice_from index (- k))) = Returns r ∧
    entries_of key r = reverse (Py.slice_from index (- k)) ∧
    r ⊆ d ∧ descending key r.
Proof.
  intros Hnd Hok.
  destruct (slice_from_drop index (- k)) as [n Hn].
  destruct (resolve_index key index d (reverse (Py.slice_from index (- k))))
    as (r & Hr & Hes & Hrd); [done..| |].
  { intros x Hx. rewrite elem_of_reverse, Hn in Hx.
    by apply (subseteq_drop n). }
  exists r. split_and!; [done..|].
  unfold descending.
  apply (sorted_of_fmap (λ kv, (key kv.2, kv.1)) (flip tuple_lt)).
  fold (entries_of key r). rewrite Hes, Hn.
  apply sorted_reverse_flip.
  destruct Hok as [Hsorted _]. rewrite <- (take_drop n index) in Hsorted.
  by apply StronglySorted_app_1_r in Hsorted.
Qed.
End top_k.

Lemma sorted_weaken {A} (R1 R2 : relation A) (l : list A) :
  (∀ x y, x ∈ l → y ∈ l → R1 x y → R2 x y) →
  StronglySorted R1 l → StronglySorted R2 l.
Proof.
  intros Himpl Hl. induction Hl as [|x l Hl IH Hx]; constructor.
  - apply IH. intros y z Hy Hz. apply Himpl; by right.
  - rewrite Forall_forall in Hx. apply Forall_forall. intros y Hy.
    apply Himpl; [left|by right|by apply Hx].
Qed.

(** A relation that holds both ways holds of the pairs of a list in any
    order of the list. *)
Lemma sorted_symmetric_perm {A} (R : relation A) (l1 l2 : list A) :
  (∀ x y, R x y → R y x) → l1 ≡ₚ l2 →
  StronglySorted R l1 → StronglySorted R l2.
Proof.
  intros Hsym. induction 1 as [|x l1 l2 Hperm IH|x y l|l1 l2 l3 H12 IH12 H23 IH23].
  - done.
  - intros [Hx Hl]%StronglySorted_cons. constructor; [by apply IH|].
    by rewrite <- Hperm.
  - intros [[Hyx Hy]%Forall_cons_1 [Hx Hl]%StronglySorted_cons]%StronglySorted_cons.
    constructor; [by constructor|]. constructor; [by apply Hsym|done].
  - auto.
Qed.

Section nlargest.
Context {A : Type} (key : A → num).
Implicit Types l : list A.

Lemma insert_desc_perm x l : Heapq.insert_desc key x l ≡ₚ x :: l.
Proof.
  induction l as [|y l IH]; simpl; [done|].
  destruct (Py.lt _ _); [|done]. by rewrite IH, Permutation_swap.
Qed.

Lemma sorted_reverse_perm l : Heapq.sorted_reverse key l ≡ₚ l.
Proof.
  unfold Heapq.sorted_reverse. induction l as [|x l IH]; simpl; [done|].
  by rewrite insert_desc_perm, IH.
Qed.

Lemma insert_desc_sorted x l :
  Forall (λ a, Py.isnan (key a) = false) (x :: l) →
  StronglySorted (λ a b, Py.le (key b) (key a) = true) l →
  StronglySorted (λ a b, Py.le (key b) (key a) = true)
    (Heapq.insert_desc key x l).
Proof.
  intros [Hx Hnum]%Forall_cons_1 Hl. revert Hnum.
  induction Hl as [|y l Hl IH Hy]; simpl; [by repeat constructor|].
  intros [Hyn Hnum]%Forall_cons_1.
  destruct (Py.lt (key x) (key y)) eqn:Hxy.
  - constructor; [by apply IH|]. rewrite insert_desc_perm.
    constructor; [by apply lt_le|done].
  - apply not_lt_le in Hxy; [|done..].
    constructor; [by constructor|]. constructor; [done|].
    eapply Forall_impl; [exact Hy|]. intros z Hz. simpl in *.
    by eapply le_trans.
Qed.

Lemma sorted_reverse_sorted l :
  Forall (λ a, Py.isnan (key a) = false) l →
  StronglySorted (λ a b, Py.le (key b) (key a) = true)
    (Heapq.sorted_reverse key l).
Proof.
  unfold Heapq.sorted_reverse.
  induction 1 as [|x l Hx Hl IH]; simpl; [constructor|].
  apply insert_desc_sorted; [|done].
  constructor; [done|]. fold (Heapq.sorted_reverse key l).
  by rewrite sorted_reverse_perm.
Qed.

(** Where no two keys agree, descending order is strict. *)
Lemma sorted_strict l :
  StronglySorted (λ a b, Py.le (key b) (key a) = true) l →
  StronglySorted (λ a b, Py.eq (key a) (key b) = false) l →
  StronglySorted (λ a b, Py.lt (key b) (key a) = true) l.
Proof.
  induction 1 as [|x l Hl IH Hx]; [constructor|].
  intros [Hfresh Hnd]%StronglySorted_cons.
  constructor; [by apply IH|].
  rewrite Forall_forall in Hx, Hfresh. apply Forall_forall. intros y Hy.
  specialize (Hx y Hy). specialize (Hfresh y Hy). simpl in *.
  rewrite le_lt_or_eq, (eq_sym (key y)), Hfresh in Hx.
  by rewrite orb_false_r in Hx.
Qed.

Lemma insert_desc_stable x l z :
  filter (λ a, Py.eq (key a) z = true) (Heapq.insert_desc key x l)
  = filter (λ a, Py.eq (key a) z = true) (x :: l).
Proof.
  induction l as [|y l IH]; [done|]. cbn [Heapq.insert_desc].
  destruct (Py.lt (key x) (key y)) eqn:Hxy; [|done].
  rewrite (filter_cons _ y), IH, !(filter_cons _ x), (filter_cons _ y).
  destruct (decide (Py.eq (key x) z = true)) as [Hx|Hx],
    (decide (Py.eq (key y) z = true)) as [Hy|Hy]; try done.
  rewrite (eq_lt_l (key x) z (key y)), (eq_lt_r (key y) z z), lt_irrefl in Hxy;
    done.
Qed.

Lemma sorted_reverse_stable l z :
  filter (λ a, Py.eq (key a) z = true) (Heapq.sorted_reverse key l)
  = filter (λ a, Py.eq (key a) z = true) l.
Proof.
  unfold Heapq.sorted_reverse. induction l as [|x l IH]; [done|].
  cbn [foldr]. by rewrite insert_desc_stable, !filter_cons, IH.
Qed.

Lemma filter_prefix (P : A → Prop) `{∀ x, Decision (P x)} l1 l2 :
  l1 `prefix_of` l2 → filter P l1 `prefix_of` filter P l2.
Proof. intros [k ->]. rewrite filter_app. by eexists. Qed.

Lemma forallb_numbers l :
  forallb (λ x, negb (Py.isnan (key x))) l = true
  ↔ Forall (λ a, Py.isnan (key a) = false) l.
Proof.
  induction l as [|x l IH]; simpl.
  - split; [constructor|done].
  - rewrite andb_true_iff, Forall_cons, IH, negb_true_iff. done.
Qed.

(** What [nlargest] selects among keys that are numbers. *)
Lemma nlargest_facts n l :
  Forall (λ a, Py.isnan (key a) = false) l →
  ∃ r, Heapq.nlargest key n l = Some r ∧
    length r = (Z.to_nat n `min` length l)%nat ∧
    StronglySorted (λ a b, Py.le (key b) (key a) = true) r ∧
    r ⊆ l ∧
    ∀ z, filter (λ a, Py.eq (key a) z = true) r
         `prefix_of` filter (λ a, Py.eq (key a) z = true) l.
Proof.
  intros Hnum. unfold Heapq.nlargest. case_bool_decide as Hn.
  - exists []. replace (Z.to_nat n) with 0%nat by lia. split_and!; try done.
    + constructor.
    + intros x []%elem_of_nil.
    + intros z. apply prefix_nil.
  - rewrite (proj2 (forallb_numbers l) Hnum). eexists. split; [done|].
    split_and!.
    + rewrite length_take. f_equal.
      by rewrite (Permutation_length (sorted_reverse_perm l)).
    + pose proof (sorted_reverse_sorted l Hnum) as Hsorted.
      rewrite <- (take_drop (Z.to_nat n)) in Hsorted.
      by apply StronglySorted_app_1_l in Hsorted.
    + intros x Hx%(subseteq_take (Z.to_nat n)).
      by rewrite sorted_reverse_perm in Hx.
    + intros z. rewrite <- (sorted_reverse_stable l z).
      apply filter_prefix, prefix_take.
Qed.
End nlargest.

Section reference.
Implicit Types d r : list (str * Item).
Implicit Types es index : list entry.

Lemma resolve_take d es r n :
  resolve d es = Returns r → resolve d (take n es) = Returns (take n r).
Proof.
  revert r n. induction es as [|[z item_id] es IH]; intros r n; simpl.
  { intros [= <-]. by rewrite !take_nil. }
  destruct (subscript d item_id) as [itm|e] eqn:Hsub; [|done].
  destruct (resolve d es) as [r'|e] eqn:Hres; [|done].
  intros [= <-]. destruct n as [|n]; simpl; [done|].
  by rewrite Hsub, (IH r' n).
Qed.

(** All records in index order, highest entry first, are the records as
    the reference sorts them, provided no two of them agree on the key. *)
Lemma resolve_all_sorted_reverse (key : Item → num) index d r :
  NoDup (Dict.keys d) → index_ok key index d → distinct_keys key d →
  resolve d (reverse index) = Returns r →
  r = Heapq.sorted_reverse (λ kv, key kv.2) d.
Proof.
  intros Hnd Hok Hdistinct Hr.
  destruct (resolve_index key index d (reverse index) Hnd Hok)
    as (r' & Hr' & Hes & Hrd).
  { intros x. by rewrite elem_of_reverse. }
  rewrite Hr in Hr'. injection Hr' as <-.
  assert (r ≡ₚ d) as Hperm.
  { apply submseteq_length_Permutation.
    - apply NoDup_submseteq; [|done].
      apply (NoDup_fmap_1 (λ kv, (key kv.2, kv.1))).
      fold (entries_of key r). rewrite Hes, reverse_Permutation.
      by eapply index_ok_NoDup.
    - rewrite <- (index_ok_length key index d Hok), <- (length_reverse index).
      rewrite <- Hes. unfold entries_of. by rewrite length_fmap. }
  assert (∀ x y : str * Item,
            Py.eq (key x.2) (key y.2) = false →
            Py.eq (key y.2) (key x.2) = false) as Hsym.
  { intros x y. by rewrite eq_sym. }
  pose proof Hok as (Hsorted & _ & Hnum).
  apply (StronglySorted_unique_strong (λ a b, Py.lt (key b.2) (key a.2) = true)).
  - intros x1 x2 _ _ H1 H2. by rewrite (lt_asym _ _ H1) in H2.
  - apply (sorted_strict (λ kv, key kv.2)).
    + apply (sorted_of_fmap (λ kv, (key kv.2, kv.1))
               (λ x y, Py.le y.1 x.1 = true)).
      fold (entries_of key r). rewrite Hes.
      apply sorted_reverse_flip in Hsorted.
      eapply sorted_weaken; [|exact Hsorted].
      intros x y Hx Hy Hxy. apply tuple_lt_fst; [|done].
      rewrite elem_of_reverse in Hy.
      pose proof (index_ok_numbers key index d Hok) as Hidx.
      rewrite Forall_forall in Hidx. by apply Hidx.
    + eapply sorted_symmetric_perm; [exact Hsym|symmetry; exact Hperm|done].
  - apply (sorted_strict (λ kv, key kv.2)).
    + by apply sorted_reverse_sorted.
    + eapply sorted_symmetric_perm; [exact Hsym| |exact Hdistinct].
      symmetry. apply sorted_reverse_perm.
  - by rewrite sorted_reverse_perm.
Qed.

Lemma top_k_reference (key : Item → num) index d k :
  NoDup (Dict.keys d) → index_ok key index d → 1 ≤ k →
  ∃ r, resolve d (reverse (Py.slice_from index (- k))) = Returns r ∧
    descending key r ∧
    (distinct_keys key d → Heapq.nlargest (λ kv, key kv.2) k d = Some r).
Proof.
  intros Hnd Hok Hk.
  destruct (top_k_body key index d k Hnd Hok) as (r & Hr & _ & _ & Hdesc).
  exists r. split_and!; [done..|]. intros Hdistinct.
  destruct (resolve_index key index d (reverse index) Hnd Hok)
    as (r' & Hr' & _).
  { intros x. by rewrite elem_of_reverse. }
  rewrite reverse_slice_from in Hr by done.
  rewrite (resolve_take _ _ _ _ Hr') in Hr. injection Hr as <-.
  unfold Heapq.nlargest. rewrite bool_decide_eq_false_2 by lia.
  destruct Hok as (Hsorted & Hperm & Hnum).
  rewrite (proj2 (forallb_numbers (λ kv : str * Item, key kv.2) d) Hnum).
  by rewrite (resolve_all_sorted_reverse key index d r').
Qed.
End reference.

Section top_k_facts.
Import Further.
Implicit Types d r : list (str * Item).
Implicit Types index : list entry.

Lemma keys_NoDup_sub d r :
  NoDup (Dict.keys d) → r ⊆ d → NoDup r → NoDup r.*1.
Proof.
  intros Hnd Hsub Hr. apply NoDup_fmap_2_strong; [|done].
  intros [k v] [k' v'] Hin Hin' Heq. simpl in Heq. subst k'.
  pose proof (elem_get_Some _ _ _ Hnd (Hsub _ Hin)) as Hv.
  pose proof (elem_get_Some _ _ _ Hnd (Hsub _ Hin')) as Hv'.
  rewrite Hv in Hv'. by injection Hv' as ->.
Qed.

(** The body of a top-K method on a service whose index is in step with
    the item map. *)
Lemma top_k_facts (key : Item → num) index d k :
  NoDup (Dict.keys d) → index_ok key index d →
  ∃ r, resolve d (reverse (Py.slice_from index (- k))) = Returns r ∧
    (1 ≤ k → length r = (Z.to_nat k `min` length d)%nat) ∧
    (∀ kv, kv ∈ r → Dict.get d kv.1 = Some kv.2) ∧
    NoDup r.*1 ∧
    dominates key r d ∧
    descending key r.
Proof.
  intros Hnd Hok.
  destruct (top_k_body key index d k Hnd Hok) as (r & Hr & Hes & Hrd & Hdesc).
  assert (NoDup r) as Hndr.
  { apply (NoDup_fmap_1 (λ kv, (key kv.2, kv.1))).
    fold (entries_of key r). rewrite Hes, reverse_Permutation.
    destruct (slice_from_drop index (- k)) as [n ->].
    eapply sublist_NoDup; [by eapply index_ok_NoDup|apply sublist_drop]. }
  exists r. split_and!.
  - done.
  - intros Hk. rewrite reverse_slice_from in Hes by done.
    rewrite <- (index_ok_length key index d Hok), <- (length_reverse index).
    rewrite <- length_take, <- Hes. unfold entries_of. by rewrite length_fmap.
  - intros [id item] Hin. by apply elem_get_Some, Hrd.
  - by apply (keys_NoDup_sub d).
  - intros kv kv' Hin Hin' Hout.
    destruct (slice_from_drop index (- k)) as [n Hn]. rewrite Hn in Hes.
    pose proof Hok as (Hsorted & Hperm & Hnum).
    rewrite <- (take_drop n index) in Hsorted.
    assert ((key kv.2, kv.1) ∈ drop n index) as He.
    { rewrite <- elem_of_reverse, <- Hes.
      by apply (list_elem_of_fmap_2 (λ kv, (key kv.2, kv.1))). }
    assert ((key kv'.2, kv'.1) ∈ take n index) as He'.
    { assert ((key kv'.2, kv'.1) ∈ index) as Hidx.
      { rewrite Hperm.
        by apply (list_elem_of_fmap_2 (λ kv, (key kv.2, kv.1))). }
      rewrite <- (take_drop n index) in Hidx.
      apply elem_of_app in Hidx as [?|Hdrop]; [done|].
      destruct Hout. rewrite <- elem_of_reverse, <- Hes in Hdrop.
      apply list_elem_of_fmap in Hdrop as (kv'' & [= _ ->] & Hin'').
      by apply list_elem_of_fmap_2. }
    apply (tuple_lt_fst (key kv'.2, kv'.1) (key kv.2, kv.1)).
    + rewrite Forall_forall in Hnum. by apply Hnum.
    + by eapply StronglySorted_app_1_elem_of.
  - done.
Qed.
End top_k_facts.

(** ** Range queries *)

Section range.
Import Further.
Implicit Types d r : list (str * Item).
Implicit Types es index : list entry.

Lemma filter_all {A} (P : A → Prop) `{∀ x, Decision (P x)} (l : list A) :
  Forall P l → filter P l = l.
Proof.
  induction 1 as [|x l Hx Hl IH]; [done|].
  by rewrite filter_cons_True, IH.
Qed.

Lemma filter_none {A} (P : A → Prop) `{∀ x, Decision (P x)} (l : list A) :
  Forall (λ x, ¬ P x) l → filter P l = [].
Proof.
  induction 1 as [|x l Hx Hl IH]; [done|].
  by rewrite filter_cons_False.
Qed.

(** The slice between the two bisections of a sorted index holds the
    entries that are neither below the lower probe nor above the upper
    one. *)
Lemma price_range_exact index (lo hi : entry) :
  StronglySorted tuple_lt index →
  Py.slice index (Bisect.bisect_left index lo) (Bisect.bisect_right index hi)
  = filter (λ e : entry, ¬ tuple_lt e lo ∧ ¬ tuple_lt hi e) index.
Proof.
  intros Hsorted.
  destruct (bisect_left_spec index lo Hsorted)
    as (l1 & l2 & Hl & -> & Hl1 & Hl2).
  destruct (bisect_right_spec index hi Hsorted)
    as (r1 & r2 & Hr & -> & Hr1 & Hr2).
  clear Hsorted. unfold Py.slice. subst index.
  destruct (app_eq_inv _ _ _ _ Hr) as [(m & -> & ->)|(m & -> & ->)].
  - apply Forall_app in Hl1 as [Hlow1 Hlowm].
    apply Forall_app in Hr2 as [Hhighm Hhigh2].
    rewrite length_app.
    replace (length r1 - (length r1 + length m))%nat with 0%nat by lia.
    rewrite take_0, !filter_app, !filter_none; [done| | |].
    + eapply Forall_impl; [exact Hhigh2|]. intros e He [_ Hn]. by apply Hn.
    + eapply Forall_impl; [exact Hlowm|]. intros e He [Hn _]. by apply Hn.
    + eapply Forall_impl; [exact Hlow1|]. intros e He [Hn _]. by apply Hn.
  - apply Forall_app in Hl2 as [Hlowm Hlow2].
    apply Forall_app in Hr1 as [Hhigh1 Hhighm].
    rewrite length_app, drop_app_length.
    replace (length l1 + length m - length l1)%nat with (length m) by lia.
    rewrite take_app_length, !filter_app.
    rewrite (filter_none _ l1), (filter_none _ r2), (filter_all _ m).
    + by rewrite app_nil_r.
    + apply Forall_forall. rewrite Forall_forall in Hlowm, Hhighm.
      intros e He. split; auto.
    + eapply Forall_impl; [exact Hr2|]. intros e He [_ Hn]. by apply Hn.
    + eapply Forall_impl; [exact Hl1|]. intros e He [Hn _]. by apply Hn.
Qed.

(** What the two probes of a range query select, for bounds and a price
    that are numbers. *)
Lemma between_probes_scanned low high (kv : str * Item) :
  Py.isnan low = false → Py.isnan high = false →
  Py.isnan (price kv.2) = false →
  ¬ tuple_lt (price kv.2, kv.1) (low, [])
  ∧ ¬ tuple_lt (high, Py.chr_0x10ffff) (price kv.2, kv.1)
  ↔ scanned low high kv.
Proof.
  intros Hlow Hhigh Hp. unfold scanned, tuple_lt.
  rewrite tuple_ltb_low. unfold Py.tuple_ltb. cbn [fst snd].
  rewrite (same_number high) by done.
  rewrite not_true_iff_false, (not_lt_le _ _ Hp Hlow), (eq_sym high).
  apply and_iff_compat_l.
  destruct (Py.eq (price kv.2) high) eqn:Heq.
  - rewrite (eq_not_lt _ _ Heq). case_bool_decide as Hid.
    + rewrite <- Hid, str_ltb_irrefl. split; [by right|done].
    + rewrite not_true_iff_false. split; [by right|]. by intros [?|[_ ?]].
  - rewrite not_true_iff_false, (not_lt_le _ _ Hhigh Hp), le_lt_or_eq, Heq.
    rewrite orb_false_r. split; [by left|]. by intros [?|[? _]].
Qed.

(** The walk of a range query over the entries of the price index that
    satisfy [Q]: they are the entries of the stored items that satisfy
    [Q], in ascending order of price and identifier. *)
Lemma walked_items (Q : entry → Prop) `{∀ e, Decision (Q e)} index d :
  NoDup (Dict.keys d) → index_ok price index d →
  ∃ r, entries_of price r = filter Q index ∧
    r ≡ₚ filter (λ kv, Q (price kv.2, kv.1)) d ∧ r ⊆ d ∧ by_price r.
Proof.
  intros Hnd Hok. pose proof Hok as (Hsorted & Hperm & _).
  destruct (resolve_index price index d (filter Q index))
    as (r & _ & Hes & Hrd); [done|done| |].
  { intros e He. by apply list_elem_of_filter in He as [_ ?]. }
  exists r. split_and!; [done| |done|].
  - apply NoDup_Permutation.
    + apply (NoDup_fmap_1 (λ kv, (price kv.2, kv.1))).
      fold (entries_of price r). rewrite Hes.
      apply NoDup_filter. by eapply index_ok_NoDup.
    + apply NoDup_filter. by eapply NoDup_fmap_1.
    + intros [k v]. rewrite list_elem_of_filter. simpl. split.
      * intros Hin. split; [|by apply Hrd].
        assert ((price v, k) ∈ entries_of price r) as He.
        { by apply (list_elem_of_fmap_2 (λ kv, (price kv.2, kv.1)) _ (k, v)). }
        rewrite Hes in He. by apply list_elem_of_filter in He as [? _].
      * intros [HQ Hin].
        assert ((price v, k) ∈ entries_of price r) as He.
        { rewrite Hes. apply list_elem_of_filter. split; [done|].
          rewrite Hperm.
          by apply (list_elem_of_fmap_2 (λ kv, (price kv.2, kv.1)) _ (k, v)). }
        apply list_elem_of_fmap in He as ([k' v'] & [= Hp ->] & Hin').
        pose proof (elem_get_Some _ _ _ Hnd Hin) as Hv.
        pose proof (elem_get_Some _ _ _ Hnd (Hrd _ Hin')) as Hv'.
        rewrite Hv in Hv'. by injection Hv' as ->.
  - unfold by_price.
    apply (sorted_of_fmap (λ kv, (price kv.2, kv.1)) tuple_lt).
    fold (entries_of price r). rewrite Hes.
    eapply sublist_sorted; [apply sublist_filter|done].
Qed.

Lemma sum_permutation (l1 l2 : list Z) :
  l1 ≡ₚ l2 → foldr Z.add 0 l1 = foldr Z.add 0 l2.
Proof. induction 1; simpl; lia. Qed.

Lemma total_qty_permutation r1 r2 : r1 ≡ₚ r2 → total_qty r1 = total_qty r2.
Proof. intros Hperm. unfold total_qty. by apply sum_permutation, fmap_Permutation. Qed.

Lemma foldl_add_foldr (l : list Z) t : foldl Z.add t l = t + foldr Z.add 0 l.
Proof.
  revert t. induction l as [|x l IH]; intros t; simpl; [lia|].
  rewrite IH. lia.
Qed.

(** The loop of [range_query_quantity] adds up the quantities of the
    stored records of the entries it walks ... *)
Lemma accumulate_qty d r t :
  NoDup (Dict.keys d) → r ⊆ d →
  accumulate plus_qty d (entries_of price r) t = Returns (t + total_qty r).
Proof.
  intros Hnd. revert t. induction r as [|[k v] r IH]; intros t Hsub.
  { simpl. f_equal. unfold total_qty. simpl. lia. }
  unfold entries_of. rewrite !fmap_cons. cbn [accumulate fst snd].
  unfold subscript.
  rewrite (elem_get_Some d k v Hnd) by (apply Hsub; left).
  unfold plus_qty at 1. fold (entries_of price r).
  rewrite IH by (intros x Hx; apply Hsub; by right).
  f_equal. unfold total_qty. rewrite fmap_cons. simpl. lia.
Qed.

(** ... and the loop of [range_query_value] adds their products to the
    total, one after the other. *)
Lemma accumulate_value d r t :
  NoDup (Dict.keys d) → r ⊆ d →
  accumulate plus_value d (entries_of price r) t
  = added_up t (value_terms r).
Proof.
  intros Hnd. revert t. induction r as [|[k v] r IH]; intros t Hsub; [done|].
  unfold entries_of, value_terms. rewrite !fmap_cons.
  cbn [accumulate added_up fst snd]. unfold subscript.
  rewrite (elem_get_Some d k v Hnd) by (apply Hsub; left).
  unfold plus_value at 1.
  destruct (Py.mul (price v) (Int (qty v))) as [x|e]; [|done].
  destruct (Py.add t x) as [t'|e]; [|done].
  apply IH. intros x' Hx. apply Hsub. by right.
Qed.

(** The range of a query on a service without NaN prices, for bounds that
    are numbers. *)
Lemma price_range_scanned s low high :
  consistent s → Py.isnan low = false → Py.isnan high = false →
  ∃ r, price_range s low high = entries_of price r ∧
    r ≡ₚ filter (scanned low high) (_items s) ∧ r ⊆ _items s ∧ by_price r.
Proof.
  intros [[Hnd _ _ _ _ _ _] Hok] Hlow Hhigh. unfold price_range.
  rewrite price_range_exact by apply Hok.
  destruct (walked_items
              (λ e, ¬ tuple_lt e (low, [])
                    ∧ ¬ tuple_lt (high, Py.chr_0x10ffff) e)
              (_price_index s) (_items s) Hnd Hok)
    as (r & Hes & Hperm & Hsub & Hsorted).
  exists r. split_and!; [done| |done..].
  rewrite Hperm. destruct Hok as (_ & _ & Hnum).
  clear -Hnum Hlow Hhigh. induction Hnum as [|kv d Hkv Hd IH]; [done|].
  rewrite !filter_cons.
  destruct (decide (scanned low high kv)) as [Hs|Hs].
  - rewrite decide_True by (by apply between_probes_scanned).
    by rewrite IH.
  - rewrite decide_False; [done|].
    intros Hb. apply Hs. by apply between_probes_scanned.
Qed.

Lemma filter_values (P : Item → Prop) `{∀ x, Decision (P x)} d :
  filter P (Dict.values d) = (filter (λ kv, P kv.2) d).*2.
Proof.
  unfold Dict.values. induction d as [|[k v] d IH]; [done|].
  rewrite fmap_cons, !filter_cons. simpl.
  destruct (decide (P v)); by rewrite IH.
Qed.

(** The sum of the reference, as a sum over the stored pairs. *)
Lemma reference_quantity low high d :
  foldl Z.add 0 (qty <$> Inventory.in_range low high d)
  = total_qty (filter (priced_within low high) d).
Proof.
  unfold Inventory.in_range, total_qty.
  rewrite foldl_add_foldr, filter_values, <- list_fmap_compose.
  by rewrite Z.add_0_l.
Qed.

Lemma scanned_priced_within low high (kv : str * Item) :
  scanned low high kv → priced_within low high kv.
Proof.
  unfold scanned, priced_within. intros [Hlow [Hlt|[Heq _]]].
  - split; [done|by apply lt_le].
  - split; [done|]. by rewrite le_lt_or_eq, Heq, orb_true_r.
Qed.

Lemma priced_within_scanned low high (kv : str * Item) :
  Py.str_ltb Py.chr_0x10ffff kv.1 = false →
  priced_within low high kv → scanned low high kv.
Proof.
  unfold scanned, priced_within. intros Hid [Hlow Hhigh].
  split; [done|]. rewrite le_lt_or_eq, orb_true_iff in Hhigh.
  destruct Hhigh; auto.
Qed.

Lemma scanned_bounded low high d :
  bounded_ids d →
  filter (scanned low high) d = filter (priced_within low high) d.
Proof.
  induction 1 as [|kv d Hkv Hd IH]; [done|].
  rewrite !filter_cons.
  destruct (decide (scanned low high kv)) as [Hsc|Hsc].
  - rewrite decide_True by (by apply scanned_priced_within). by rewrite IH.
  - rewrite decide_False; [done|].
    intros Hin. apply Hsc. by apply priced_within_scanned.
Qed.

Lemma total_qty_filter_le (P Q : str * Item → Prop)
    `{∀ x, Decision (P x)} `{∀ x, Decision (Q x)} d :
  (∀ kv, P kv → Q kv) → Forall (λ kv, 0 ≤ qty kv.2) d →
  0 ≤ total_qty (filter P d) ≤ total_qty (filter Q d).
Proof.
  intros HPQ Hall. unfold total_qty.
  induction Hall as [|kv d Hkv Hd IH]; simpl; [lia|].
  rewrite !filter_cons. simpl in Hkv.
  destruct (decide (P kv)) as [HP|HP], (decide (Q kv)) as [HQ|HQ];
    rewrite ?fmap_cons; cbn [foldr]; try lia.
  destruct HQ. by apply HPQ.
Qed.

Lemma scanned_empty low high d :
  Py.lt high low = true → filter (scanned low high) d = [].
Proof.
  intros Hlt. apply filter_none, Forall_forall.
  intros kv _ [Hlow Hhigh]%scanned_priced_within.
  pose proof (le_trans _ _ _ Hlow Hhigh) as Hle.
  by rewrite (le_not_lt _ _ Hle) in Hlt.
Qed.
End range.

(** ** The claims *)

Import Further.

(** C1. Index/store consistency breaks on a NaN price.  [upsert_item]
    lets a NaN pass ([nan < 0] is false) and files it at the end of the
    price index; the next [upsert_item] of the identifier looks for the old
    entry by bisection, finds none, and adds a second one.  After
    [upsert_item("A", 10, 5)], [upsert_item("N", nan, 1)] and
    [upsert_item("N", 5, 1)], all of which return, the item map holds N
    with price 5 and the price index holds two entries for N, one of them
    under NaN.  The quantity index holds one. *)
Theorem nan_price_leaves_second_entry :
  let cs := [Upsert [65%N] 10 5 None; Upsert [78%N] (Nan 0) 1 None;
             Upsert [78%N] 5 1 None] in
  (upsert_item [78%N] (Nan 0) 1 None (exec (take 1 cs))).1 = Returns () ∧
  (upsert_item [78%N] 5 1 None (exec (take 2 cs))).1 = Returns () ∧
  Dict.get (_items (exec cs)) [78%N] = Some (mkItem 5 1 []) ∧
  _price_index (exec cs) = [(Int 10, [65%N]); (Nan 0, [78%N]); (Int 5, [78%N])] ∧
  entries_for (_price_index (exec cs)) [78%N]
  = [(Nan 0, [78%N]); (Int 5, [78%N])] ∧
  entries_for (_quantity_index (exec cs)) [78%N] = [(Int 1, [78%N])].
Proof. vm_compute. by split_and!. Qed.

(** C2. The range queries miss an item whose price is the upper bound and
    whose identifier is greater than [chr(0x10ffff)]: with the single item
    ["\U0010ffffa"] of price 10 and quantity 5, [range_query_quantity(10,
    10)] and [range_query_value(10, 10)] return 0 and 0.0, where the one
    stored item has its price in [[10, 10]], the quantity 5 and the
    product 50, which are the sums that the reference returns. *)
Theorem range_query_misses_above_sentinel :
  let cs := [Upsert [1114111%N; 97%N] 10 5 None] in
  (range_query_quantity 10 10 (exec cs)).1 = Returns 0 ∧
  (range_query_value 10 10 (exec cs)).1 = Returns Py.float_zero ∧
  total_qty (filter (priced_within 10 10) (_items (exec cs))) = 5 ∧
  Inventory.int_term <$> (filter (priced_within 10 10) (_items (exec cs))).*2
  = [Some 50] ∧
  (Inventory.range_query_quantity 10 10 (ref_exec cs)).1 = Returns 5 ∧
  (Inventory.range_query_value 10 10 (ref_exec cs)).1
  = Returns (Some (Int 50)).
Proof. vm_compute. by split_and!. Qed.

(** C3. [top_k_by_price(0)] and [top_k_by_quantity(0)] on a service with
    two items return both items instead of the empty list, since [l[-0:]]
    is the whole list; for [k = -1] they return all items but the lowest.
    Nothing is raised.  The reference returns the empty list. *)
Theorem top_k_nonpositive_not_empty :
  let cs := [Upsert [65%N] 10 5 None; Upsert [66%N] 20 2 None] in
  (top_k_by_price 0 (exec cs)).1
  = Returns [([66%N], mkItem 20 2 []); ([65%N], mkItem 10 5 [])] ∧
  (top_k_by_quantity 0 (exec cs)).1
  = Returns [([65%N], mkItem 10 5 []); ([66%N], mkItem 20 2 [])] ∧
  (top_k_by_price (-1) (exec cs)).1 = Returns [([66%N], mkItem 20 2 [])] ∧
  (top_k_by_quantity (-1) (exec cs)).1 = Returns [([65%N], mkItem 10 5 [])] ∧
  (Inventory.top_k_by_price 0 (ref_exec cs)).1 = Returns (Some []) ∧
  (Inventory.top_k_by_quantity (-1) (ref_exec cs)).1 = Returns (Some []).
Proof. vm_compute. by split_and!. Qed.

(** C4. Cache coherence: whatever the caches hold, right after an
    [upsert_item] or [remove_item] that returned, each of the four query
    methods answers with what its body computes from the item map and the
    indices the mutation left behind: the mutation emptied every cache. *)
Theorem cache_coherence (s : Service) (c : Call) :
  is_mutation c = true → succeeds s c = true →
  computed_directly (step s c) ∧
  range_query_quantity_cache (step s c) = [] ∧
  range_query_value_cache (step s c) = [] ∧
  top_k_by_price_cache (step s c) = [] ∧
  top_k_by_quantity_cache (step s c) = [].
Proof.
  destruct c; try done; intros _; simpl.
  - rewrite upsert_item_unfold. destruct (_ || _); [done|]. intros _.
    split; [by apply computed_directly_empty|done].
  - rewrite remove_item_unfold. destruct (Dict.get _ _); [|done]. intros _.
    split; [by apply computed_directly_empty|done].
Qed.

Lemma cache_coherence_witness :
  let s := exec [Upsert [65%N] 10 5 None; Upsert [66%N] 20 2 None;
                 RangeQueryQuantity 0 100; TopKByPrice 1] in
  (range_query_quantity 0 100 s).1 = Returns 7 ∧
  (range_query_quantity 0 100 (step s (Remove [66%N]))).1 = Returns 5 ∧
  (top_k_by_price 1 (step s (Upsert [67%N] 30 1 None))).1
  = Returns [([67%N], mkItem 30 1 [])].
Proof.
  intros s.
  destruct (cache_coherence s (Remove [66%N])) as [(Hq & _) _];
    [reflexivity|vm_compute; reflexivity|].
  destruct (cache_coherence s (Upsert [67%N] 30 1 None)) as [(_ & _ & Hk & _) _];
    [reflexivity|vm_compute; reflexivity|].
  split_and!.
  - vm_compute. reflexivity.
  - rewrite Hq. vm_compute. reflexivity.
  - rewrite Hk. vm_compute. reflexivity.
Defined.

(** C5. [upsert_item] raises [InvalidItemError] exactly when the price or
    the quantity is negative, and then the item map and both indices are
    as before the call; otherwise it returns, the map holds the record
    [(price, qty, metadata)] for the identifier and the records of all
    other identifiers are untouched. *)
Theorem upsert_item_validation (s : Service) (item_id : str) (p : num) (q : Z)
    (md : option Metadata) :
  ((upsert_item item_id p q md s).1 = Raises InvalidItemError
   ↔ Py.lt p 0 = true ∨ q < 0) ∧
  (Py.lt p 0 = true ∨ q < 0 →
     _items (upsert_item item_id p q md s).2 = _items s ∧
     _price_index (upsert_item item_id p q md s).2 = _price_index s ∧
     _quantity_index (upsert_item item_id p q md s).2 = _quantity_index s) ∧
  (¬ (Py.lt p 0 = true ∨ q < 0) →
     (upsert_item item_id p q md s).1 = Returns () ∧
     Dict.get (_items (upsert_item item_id p q md s).2) item_id
     = Some (mkItem p q (default [] md)) ∧
     ∀ other, other ≠ item_id →
       Dict.get (_items (upsert_item item_id p q md s).2) other
       = Dict.get (_items s) other).
Proof.
  rewrite upsert_item_unfold.
  destruct (decide (Py.lt p 0 = true ∨ q < 0)) as [Hneg|Hpos].
  - replace (Py.lt p 0 || bool_decide (q < 0)) with true.
    { by split_and!. }
    symmetry. apply orb_true_iff. by rewrite bool_decide_eq_true.
  - replace (Py.lt p 0 || bool_decide (q < 0)) with false.
    { split_and!; [done|done|]. intros _. simpl. split_and!; [done| |].
      - by rewrite get_set_eq, item_init_record.
      - intros other Hother. by apply get_set_ne. }
    symmetry. apply orb_false_iff. rewrite bool_decide_eq_false.
    split; [|tauto]. apply not_true_is_false. tauto.
Qed.

Lemma upsert_item_validation_witness :
  (upsert_item [98%N; 97%N; 100%N] (-1) 5 None init).1 = Raises InvalidItemError ∧
  _items (upsert_item [98%N; 97%N; 100%N] (-1) 5 None init).2 = _items init ∧
  (upsert_item [65%N] 10 5 None init).1 = Returns ().
Proof.
  destruct (upsert_item_validation init [98%N; 97%N; 100%N] (-1) 5 None)
    as (Hiff & Hsame & _).
  destruct (upsert_item_validation init [65%N] 10 5 None) as (_ & _ & Hok).
  split_and!.
  - apply Hiff. left. reflexivity.
  - apply Hsame. left. reflexivity.
  - apply Hok. intros [Hp|Hq]; [discriminate Hp|lia].
Defined.

(** C6. [remove_item] and [get_item] raise [ItemNotFoundError] exactly when
    the identifier is not in the item map, they raise nothing else, and a
    raising call leaves the item map and both indices as they were; a
    [get_item] that returns gives the record stored for the identifier. *)
Theorem not_found_iff_absent (s : Service) (item_id : str) :
  ((remove_item item_id s).1 = Raises (ItemNotFoundError item_id)
   ↔ Dict.get (_items s) item_id = None) ∧
  ((get_item item_id s).1 = Raises (ItemNotFoundError item_id)
   ↔ Dict.get (_items s) item_id = None) ∧
  (∀ e, (remove_item item_id s).1 = Raises e →
     e = ItemNotFoundError item_id ∧
     _items (remove_item item_id s).2 = _items s ∧
     _price_index (remove_item item_id s).2 = _price_index s ∧
     _quantity_index (remove_item item_id s).2 = _quantity_index s) ∧
  (∀ e, (get_item item_id s).1 = Raises e →
     e = ItemNotFoundError item_id ∧
     _items (get_item item_id s).2 = _items s ∧
     _price_index (get_item item_id s).2 = _price_index s ∧
     _quantity_index (get_item item_id s).2 = _quantity_index s) ∧
  (∀ item, (get_item item_id s).1 = Returns item
     ↔ Dict.get (_items s) item_id = Some item).
Proof.
  rewrite remove_item_unfold. unfold get_item.
  destruct (Dict.get (_items s) item_id) as [item|]; simpl.
  - split_and!; try done.
    intros item'. split; by intros [= ->].
  - split_and!; try done.
    + intros e [= <-]. done.
    + intros e [= <-]. done.
Qed.

Lemma not_found_iff_absent_witness :
  (remove_item [109%N] (exec [Upsert [65%N] 10 5 None])).1
  = Raises (ItemNotFoundError [109%N]) ∧
  _items (remove_item [109%N] (exec [Upsert [65%N] 10 5 None])).2
  = _items (exec [Upsert [65%N] 10 5 None]) ∧
  (get_item [65%N] (exec [Upsert [65%N] 10 5 None])).1
  = Returns (mkItem 10 5 []).
Proof.
  destruct (not_found_iff_absent (exec [Upsert [65%N] 10 5 None]) [109%N])
    as (Hiff & _ & Hsame & _).
  destruct (not_found_iff_absent (exec [Upsert [65%N] 10 5 None]) [65%N])
    as (_ & _ & _ & _ & Hget).
  split_and!.
  - apply Hiff. vm_compute. reflexivity.
  - apply (Hsame (ItemNotFoundError [109%N])). apply Hiff.
    vm_compute. reflexivity.
  - apply Hget. vm_compute. reflexivity.
Defined.

(** C7. Round trip: in any state, an [upsert_item] with a non-negative
    price and quantity returns, and the [get_item] that follows returns a
    record with that price, that quantity and that metadata, the empty
    mapping standing for absent metadata. *)
Theorem upsert_get_round_trip (s : Service) (item_id : str) (p : num) (q : Z)
    (md : option Metadata) :
  Py.le 0 p = true → 0 ≤ q →
  (upsert_item item_id p q md s).1 = Returns () ∧
  ∃ item,
    (get_item item_id (upsert_item item_id p q md s).2).1 = Returns item ∧
    price item = p ∧ qty item = q ∧ metadata item = default [] md.
Proof.
  intros Hp%le_0_not_lt Hq. rewrite upsert_item_unfold, Hp.
  rewrite bool_decide_eq_false_2 by lia. simpl. split; [done|].
  exists (mkItem p q (default [] md)).
  unfold get_item. simpl. by rewrite get_set_eq, item_init_record.
Qed.

Lemma upsert_get_round_trip_witness :
  Py.le 0 10 = true ∧ 0 ≤ 5 ∧
  ∃ item,
    (get_item [65%N]
       (upsert_item [65%N] 10 5 (Some [([99%N], [114%N])])
          (exec [Upsert [65%N] 3 4 None])).2).1 = Returns item ∧
    price item = 10 ∧ qty item = 5 ∧ metadata item = [([99%N], [114%N])].
Proof.
  split; [reflexivity|]. split; [lia|].
  apply (upsert_get_round_trip (exec [Upsert [65%N] 3 4 None]) [65%N] 10 5
           (Some [([99%N], [114%N])])); [reflexivity|lia].
Defined.

(** C8. Idempotence breaks on a NaN price.  After [upsert_item("A", 10,
    5)] and [upsert_item("N", nan, 1)] the service stores N with the price
    [nan], the quantity 1 and no metadata.  The same call once more, with
    the same NaN object, returns and leaves the item map and the quantity
    index as they were, but adds a second entry for N to the price index,
    and [top_k_by_price(2)], which listed N and A, now lists N twice. *)
Theorem nan_price_upsert_not_idempotent :
  let s := exec [Upsert [65%N] 10 5 None; Upsert [78%N] (Nan 0) 1 None] in
  let s' := (upsert_item [78%N] (Nan 0) 1 None s).2 in
  Dict.get (_items s) [78%N] = Some (mkItem (Nan 0) 1 []) ∧
  (upsert_item [78%N] (Nan 0) 1 None s).1 = Returns () ∧
  _items s' = _items s ∧
  _quantity_index s' = _quantity_index s ∧
  _price_index s = [(Int 10, [65%N]); (Nan 0, [78%N])] ∧
  _price_index s' = [(Int 10, [65%N]); (Nan 0, [78%N]); (Nan 0, [78%N])] ∧
  (top_k_by_price 2 s).1
  = Returns [([78%N], mkItem (Nan 0) 1 []); ([65%N], mkItem 10 5 [])] ∧
  (top_k_by_price 2 s').1
  = Returns [([78%N], mkItem (Nan 0) 1 []); ([78%N], mkItem (Nan 0) 1 [])].
Proof. vm_compute. by split_and!. Qed.

(** C9, as amended. After any common sequence of calls on a fresh service
    and a fresh reference inventory in which no price given to
    [upsert_item] is a NaN (in particular any sequence of successful
    upserts of numbers), and for every [k >= 1]: [top_k_by_price(k)] of the
    service returns its pairs in descending order of price, equal prices in
    descending order of identifier, and this is the list the reference
    [top_k_by_price(k)] returns whenever no two stored items have the same
    price; likewise for [top_k_by_quantity(k)] and quantities. *)
Theorem top_k_order_and_reference (cs : list Call) (k : Z) :
  prices_are_numbers cs → 1 ≤ k →
  ∃ rp rq,
    (top_k_by_price k (exec cs)).1 = Returns rp ∧ descending price rp ∧
    (top_k_by_quantity k (exec cs)).1 = Returns rq ∧ descending qty_key rq ∧
    (distinct_keys price (_items (exec cs)) →
       (Inventory.top_k_by_price k (ref_exec cs)).1 = Returns (Some rp)) ∧
    (distinct_keys qty_key (_items (exec cs)) →
       (Inventory.top_k_by_quantity k (ref_exec cs)).1 = Returns (Some rq)).
Proof.
  intros Hcs Hk.
  pose proof (consistent_exec cs Hcs) as [Hs Hpi].
  pose proof (computed_directly_coherent _ Hs) as (_ & _ & Hp & Hq).
  destruct Hs as [Hnd _ Hqi _ _ _ _].
  destruct (top_k_reference price _ _ k Hnd Hpi Hk) as (rp & Hrp & Hdp & Hrefp).
  destruct (top_k_reference qty_key _ _ k Hnd Hqi Hk)
    as (rq & Hrq & Hdq & Hrefq).
  exists rp, rq. rewrite Hp, Hq.
  unfold Inventory.top_k_by_price, Inventory.top_k_by_quantity, gets. simpl.
  rewrite ref_exec_items.
  split_and!; try done.
  - intros Hdistinct. by rewrite Hrefp.
  - intros Hdistinct. f_equal. by apply Hrefq.
Qed.

Lemma top_k_order_and_reference_witness :
  let cs := [Upsert [65%N] 10 5 None; Upsert [66%N] 20 2 None;
             Upsert [67%N] 15 3 None] in
  prices_are_numbers cs ∧ 1 ≤ 2 ∧
  (Inventory.top_k_by_price 2 (ref_exec cs)).1
  = Returns (Some [([66%N], mkItem 20 2 []); ([67%N], mkItem 15 3 [])]) ∧
  (top_k_by_price 2 (exec cs)).1
  = Returns [([66%N], mkItem 20 2 []); ([67%N], mkItem 15 3 [])] ∧
  (Inventory.top_k_by_quantity 2 (ref_exec cs)).1
  = Returns (Some [([65%N], mkItem 10 5 []); ([67%N], mkItem 15 3 [])]) ∧
  (top_k_by_quantity 2 (exec cs)).1
  = Returns [([65%N], mkItem 10 5 []); ([67%N], mkItem 15 3 [])].
Proof.
  intros cs. split; [reflexivity|]. split; [lia|].
  destruct (top_k_order_and_reference cs 2)
    as (rp & rq & Hp & _ & Hq & _ & Hrefp & Hrefq); [reflexivity|lia|].
  assert (rp = [([66%N], mkItem 20 2 []); ([67%N], mkItem 15 3 [])]) as Hrp.
  { assert (Returns rp
            = Returns [([66%N], mkItem 20 2 []); ([67%N], mkItem 15 3 [])])
      as [= ->]; [|done].
    rewrite <- Hp. vm_compute. reflexivity. }
  assert (rq = [([65%N], mkItem 10 5 []); ([67%N], mkItem 15 3 [])]) as Hrq.
  { assert (Returns rq
            = Returns [([65%N], mkItem 10 5 []); ([67%N], mkItem 15 3 [])])
      as [= ->]; [|done].
    rewrite <- Hq. vm_compute. reflexivity. }
  rewrite <- Hrp, <- Hrq. split_and!.
  - apply Hrefp. apply (bool_decide_unpack _). vm_compute. exact I.
  - exact Hp.
  - apply Hrefq. apply (bool_decide_unpack _). vm_compute. exact I.
  - exact Hq.
Defined.

(** C9, as stated, fails on a tie: with two items of equal price the
    service lists the larger identifier first, the reference the one
    inserted first. *)
Lemma top_k_tie_counterexample :
  let cs := [Upsert [65%N] 10 5 None; Upsert [66%N] 10 5 None] in
  (top_k_by_price 2 (exec cs)).1
  = Returns [([66%N], mkItem 10 5 []); ([65%N], mkItem 10 5 [])] ∧
  (Inventory.top_k_by_price 2 (ref_exec cs)).1
  = Returns (Some [([65%N], mkItem 10 5 []); ([66%N], mkItem 10 5 [])]) ∧
  ∀ r, (top_k_by_price 2 (exec cs)).1 = Returns r →
       (Inventory.top_k_by_price 2 (ref_exec cs)).1 ≠ Returns (Some r).
Proof.
  vm_compute. split_and!; [done..|]. intros r [= <-] Href. discriminate Href.
Qed.

(** C10. A NaN price leaves an orphaned index entry.  After
    [upsert_item("A", 10, 5)], [upsert_item("N", nan, 1)] and
    [remove_item("N")], which returns, N is gone from the item map and
    from the quantity index, but the price index still holds its entry and
    is longer than the item map; [top_k_by_price(1)] then fails with
    [KeyError], and so does [range_query_quantity(0, 100)]. *)
Theorem nan_price_leaves_orphan :
  let cs := [Upsert [65%N] 10 5 None; Upsert [78%N] (Nan 0) 1 None;
             Remove [78%N]] in
  (remove_item [78%N] (exec (take 2 cs))).1 = Returns () ∧
  Dict.get (_items (exec cs)) [78%N] = None ∧
  _price_index (exec cs) = [(Int 10, [65%N]); (Nan 0, [78%N])] ∧
  _quantity_index (exec cs) = [(Int 5, [65%N])] ∧
  length (_price_index (exec cs)) = 2%nat ∧
  (len (exec cs)).1 = Returns 1%nat ∧
  (top_k_by_price 1 (exec cs)).1 = Raises (KeyError [78%N]) ∧
  (range_query_quantity 0 100 (exec cs)).1 = Raises (KeyError [78%N]).
Proof. vm_compute. by split_and!. Qed.

(** ** Further properties of the two classes *)

Section more_dict.
Context {V : Type}.
Implicit Types d : list (str * V).
Implicit Types k : str.

Lemma remove_filter d k :
  NoDup (Dict.keys d) → Dict.remove d k = filter (λ kv, kv.1 ≠ k) d.
Proof.
  unfold Dict.keys. induction d as [|[k' v'] d IH]; [done|].
  rewrite fmap_cons. intros [Hk' Hd]%NoDup_cons.
  cbn [Dict.remove]. rewrite filter_cons. simpl in *.
  case_bool_decide as Hk.
  - subst. rewrite decide_False by (by intros []).
    symmetry. apply filter_all, Forall_forall. intros [k0 v0] Hin Heq.
    simpl in Heq. subst k0.
    apply Hk'. by apply (list_elem_of_fmap_2 fst _ (k, v0)).
  - rewrite decide_True by done. by rewrite IH.
Qed.

Lemma set_fmap d k v v0 :
  NoDup (Dict.keys d) → Dict.get d k = Some v0 →
  Dict.set d k v
  = (λ kv, if bool_decide (kv.1 = k) then (kv.1, v) else kv) <$> d.
Proof.
  unfold Dict.keys. induction d as [|[k' v'] d IH]; [done|].
  rewrite !fmap_cons. intros [Hk' Hd]%NoDup_cons.
  cbn [Dict.set Dict.get]. simpl in *.
  case_bool_decide as Hk.
  - intros _. f_equal. subst.
    rewrite <- (list_fmap_id d) at 1. apply list_fmap_ext.
    intros i [k0 v1] Hin%list_elem_of_lookup_2. simpl.
    rewrite bool_decide_eq_false_2; [done|]. intros ->.
    apply Hk'. by apply (list_elem_of_fmap_2 fst _ (k, v1)).
  - intros Hget. by rewrite IH.
Qed.
End more_dict.

Section stored.

(** The price of a stored item is a number where the index is in step. *)
Lemma consistent_price s item_id item :
  consistent s → Dict.get (_items s) item_id = Some item →
  Py.isnan (price item) = false.
Proof.
  intros [_ (_ & _ & Hnum)] Hget. rewrite Forall_forall in Hnum.
  by apply (Hnum (item_id, item)), get_Some_elem.
Qed.

Lemma coherent_valid s item_id item :
  coherent s → Dict.get (_items s) item_id = Some item →
  Py.lt (price item) 0 = false ∧ 0 ≤ qty item.
Proof.
  intros [_ Hvalid _ _ _ _ _] Hget. rewrite Forall_forall in Hvalid.
  by apply (Hvalid (item_id, item)), get_Some_elem.
Qed.
End stored.

(** X1. In every state reached from a fresh service, every stored record
    that [get_item] returns has a quantity that is not negative and a price
    that is not below zero; the price is zero or more as long as no
    [upsert_item] was given a NaN. *)
Theorem stored_values_nonnegative (cs : list Call) (item_id : str)
    (item : Item) :
  (get_item item_id (exec cs)).1 = Returns item →
  Py.lt (price item) 0 = false ∧ 0 ≤ qty item ∧
  (prices_are_numbers cs → Py.le 0 (price item) = true).
Proof.
  unfold get_item.
  destruct (Dict.get (_items (exec cs)) item_id) as [item'|] eqn:Hget; [|done].
  intros [= ->].
  destruct (coherent_valid _ _ _ (coherent_exec cs) Hget) as [Hp Hq].
  split_and!; [done..|]. intros Hcs.
  apply not_lt_le; [|done..].
  by apply (consistent_price _ _ _ (consistent_exec cs Hcs) Hget).
Qed.

Lemma stored_values_nonnegative_witness :
  let cs := [Upsert [65%N] 3 (-2) None; Upsert [65%N] 0 7 None;
             Upsert [65%N] (-1) 7 None] in
  (get_item [65%N] (exec cs)).1 = Returns (mkItem 0 7 []) ∧
  prices_are_numbers cs ∧
  Py.le 0 (price (mkItem 0 7 [])) = true ∧ 0 ≤ qty (mkItem 0 7 []).
Proof.
  intros cs.
  assert ((get_item [65%N] (exec cs)).1 = Returns (mkItem 0 7 [])) as Hget
    by (vm_compute; reflexivity).
  destruct (stored_values_nonnegative cs [65%N] (mkItem 0 7 []) Hget)
    as (_ & Hq & Hp).
  split_and!; [exact Hget|reflexivity|apply Hp; reflexivity|exact Hq].
Defined.

(** X2. In every state reached from a fresh service the quantity index is
    strictly ascending in Python's order on [(key, item_id)] tuples, and
    its keys never descend; so is the price index, as long as no
    [upsert_item] was given a NaN. *)
Theorem indices_sorted (cs : list Call) :
  StronglySorted tuple_lt (_quantity_index (exec cs)) ∧
  StronglySorted (λ x y : entry, Py.le x.1 y.1 = true)
    (_quantity_index (exec cs)) ∧
  (prices_are_numbers cs →
     StronglySorted tuple_lt (_price_index (exec cs)) ∧
     StronglySorted (λ x y : entry, Py.le x.1 y.1 = true)
       (_price_index (exec cs))).
Proof.
  assert (∀ key index d, index_ok key index d →
            StronglySorted (λ x y : entry, Py.le x.1 y.1 = true) index)
    as Hkeys.
  { intros key index d Hok. pose proof (index_ok_numbers key _ _ Hok) as Hnum.
    destruct Hok as [Hsorted _]. eapply sorted_weaken; [|exact Hsorted].
    intros x y Hx _. apply tuple_lt_fst.
    rewrite Forall_forall in Hnum. by apply Hnum. }
  pose proof (coherent_exec cs) as [_ _ Hq _ _ _ _].
  split_and!; [apply Hq|by eapply Hkeys|].
  intros [_ Hp]%consistent_exec. split; [apply Hp|by eapply Hkeys].
Qed.

Lemma indices_sorted_witness :
  let cs := [Upsert [66%N] 20 2 None; Upsert [65%N] 10 5 None;
             Upsert [67%N] 10 9 None] in
  prices_are_numbers cs ∧
  _price_index (exec cs) = [(Int 10, [65%N]); (Int 10, [67%N]); (Int 20, [66%N])] ∧
  StronglySorted tuple_lt (_price_index (exec cs)).
Proof.
  intros cs. destruct (indices_sorted cs) as (_ & _ & Hp).
  split_and!; [reflexivity|vm_compute; reflexivity|].
  apply Hp. reflexivity.
Defined.

Section returns.
Implicit Types d r : list (str * Item).

(** Float arithmetic raises nothing but [OverflowError]. *)
Lemma as_double_raises x e : Py.as_double x = Raises e → e = OverflowError.
Proof.
  destruct x as [z|f|n]; simpl; try done.
  destruct (binary_normalize _ _ _ _ _); try done. by intros [= <-].
Qed.

Lemma arith_raises on_int on_float x y e :
  Py.arith on_int on_float x y = Raises e → e = OverflowError.
Proof.
  unfold Py.arith.
  destruct (Py.as_double x) as [a|e1] eqn:Hx, (Py.as_double y) as [b|e2] eqn:Hy;
    destruct x, y; try done; intros [= <-];
    (by eapply as_double_raises).
Qed.

Lemma added_up_raises t terms e :
  added_up t terms = Raises e → e = OverflowError.
Proof.
  revert t. induction terms as [|[p q] terms IH]; intros t; simpl; [done|].
  destruct (Py.mul p q) as [v|e1] eqn:Hmul.
  2:{ intros [= <-]. by eapply arith_raises. }
  destruct (Py.add t v) as [t'|e2] eqn:Hadd.
  2:{ intros [= <-]. by eapply arith_raises. }
  apply IH.
Qed.

(** The range of a query on a service without NaN prices, whatever the
    bounds: entries of stored items, in ascending order. *)
Lemma price_range_walk s low high :
  consistent s →
  ∃ r, price_range s low high = entries_of price r ∧
    r ⊆ _items s ∧ by_price r.
Proof.
  intros [[Hnd _ _ _ _ _ _] Hok]. unfold price_range.
  rewrite price_range_exact by apply Hok.
  destruct (walked_items
              (λ e, ¬ tuple_lt e (low, [])
                    ∧ ¬ tuple_lt (high, Py.chr_0x10ffff) e)
              (_price_index s) (_items s) Hnd Hok)
    as (r & Hes & _ & Hsub & Hsorted).
  by exists r.
Qed.
End returns.

(** X3. In every state reached from a fresh service,
    [top_k_by_quantity(k)] returns for every [k], zero and negative values
    included.  As long as no [upsert_item] was given a NaN,
    [range_query_quantity] and [top_k_by_price] return as well, whatever
    the bounds and [k], and [range_query_value] returns or raises
    [OverflowError], nothing else: each identifier found in an index is a
    key of the item map, so no subscript fails. *)
Theorem queries_never_raise (cs : list Call) (low high : num) (k : Z) :
  is_Returns (top_k_by_quantity k (exec cs)).1 = true ∧
  (prices_are_numbers cs →
     is_Returns (range_query_quantity low high (exec cs)).1 = true ∧
     (∀ e, (range_query_value low high (exec cs)).1 = Raises e →
           e = OverflowError) ∧
     is_Returns (top_k_by_price k (exec cs)).1 = true).
Proof.
  pose proof (coherent_exec cs) as Hs.
  destruct (computed_directly_coherent _ Hs) as (-> & -> & -> & ->).
  pose proof Hs as [Hnd _ Hq _ _ _ _].
  unfold range_query_quantity_body, range_query_value_body,
    top_k_by_price_body, top_k_by_quantity_body. simpl.
  destruct (top_k_body qty_key _ _ k Hnd Hq) as (rq & -> & _).
  split; [done|]. intros Hcs%consistent_exec.
  destruct (price_range_walk _ low high Hcs) as (r & -> & Hsub & _).
  rewrite accumulate_qty, accumulate_value by done.
  destruct Hcs as [_ Hp].
  destruct (top_k_body price _ _ k Hnd Hp) as (rp & -> & _).
  split_and!; [done| |done]. intros e. apply added_up_raises.
Qed.

Lemma queries_never_raise_witness :
  let cs := [Upsert [65%N] 10 5 None; Upsert [66%N] 20 2 None;
             Remove [65%N]; Upsert [67%N] 15 3 None] in
  prices_are_numbers cs ∧
  is_Returns (range_query_quantity 0 (Nan 0) (exec cs)).1 = true ∧
  is_Returns (top_k_by_price (-3) (exec cs)).1 = true ∧
  is_Returns (top_k_by_quantity 0 (exec cs)).1 = true.
Proof.
  intros cs. destruct (queries_never_raise cs 0 (Nan 0) (-3)) as [_ Hp].
  destruct (queries_never_raise cs 0 0 0) as [Hq _].
  destruct Hp as (Hrq & _ & Hrp); [reflexivity|].
  split_and!; [reflexivity|exact Hrq|exact Hrp|exact Hq].
Defined.

(** X4. In a state reached from a fresh service, [remove_item] of a stored
    identifier returns; afterwards [get_item] of that identifier raises
    [ItemNotFoundError], [get_item] of every other identifier answers as
    before, [__len__] is one less, and the quantity index holds no entry
    for the identifier; nor does the price index, as long as no
    [upsert_item] was given a NaN. *)
Theorem remove_item_removes (cs : list Call) (item_id : str) (item : Item) :
  Dict.get (_items (exec cs)) item_id = Some item →
  (remove_item item_id (exec cs)).1 = Returns () ∧
  (get_item item_id (remove_item item_id (exec cs)).2).1
  = Raises (ItemNotFoundError item_id) ∧
  (∀ other, other ≠ item_id →
     (get_item other (remove_item item_id (exec cs)).2).1
     = (get_item other (exec cs)).1) ∧
  (len (remove_item item_id (exec cs)).2).1
  = Returns (length (_items (exec cs)) - 1)%nat ∧
  entries_for (_quantity_index (remove_item item_id (exec cs)).2) item_id = [] ∧
  (prices_are_numbers cs →
     entries_for (_price_index (remove_item item_id (exec cs)).2) item_id = []).
Proof.
  intros Hget. pose proof (coherent_exec cs) as Hs.
  pose proof (coherent_remove item_id _ Hs) as Hs'.
  assert (prices_are_numbers cs →
          index_ok price (_price_index (remove_item item_id (exec cs)).2)
            (_items (remove_item item_id (exec cs)).2)) as Hp'.
  { intros Hcs%consistent_exec. by apply consistent_remove. }
  revert Hs' Hp'. rewrite remove_item_unfold, Hget. simpl.
  intros [Hnd' _ Hq' _ _ _ _] Hp'. simpl in *.
  destruct Hs as [Hnd _ _ _ _ _ _].
  assert (Dict.get (Dict.remove (_items (exec cs)) item_id) item_id = None)
    as Hgone by by apply get_remove_eq.
  split_and!.
  - done.
  - unfold get_item. simpl. by rewrite Hgone.
  - intros other Hother. unfold get_item. simpl.
    rewrite get_remove_ne by done. by destruct (Dict.get _ other).
  - unfold len, gets. simpl. f_equal.
    pose proof (remove_length _ _ _ Hget). lia.
  - by rewrite (entries_for_stored qty_key _ _ item_id Hnd' Hq'), Hgone.
  - intros Hcs.
    by rewrite (entries_for_stored price _ _ item_id Hnd' (Hp' Hcs)), Hgone.
Qed.

Lemma remove_item_removes_witness :
  let cs := [Upsert [65%N] 10 5 None; Upsert [66%N] 20 2 None] in
  Dict.get (_items (exec cs)) [65%N] = Some (mkItem 10 5 []) ∧
  prices_are_numbers cs ∧
  (get_item [65%N] (remove_item [65%N] (exec cs)).2).1
  = Raises (ItemNotFoundError [65%N]) ∧
  (len (remove_item [65%N] (exec cs)).2).1 = Returns 1%nat ∧
  entries_for (_price_index (remove_item [65%N] (exec cs)).2) [65%N] = [].
Proof.
  intros cs.
  assert (Dict.get (_items (exec cs)) [65%N] = Some (mkItem 10 5 [])) as Hin
    by (vm_compute; reflexivity).
  destruct (remove_item_removes cs [65%N] (mkItem 10 5 []) Hin)
    as (_ & Hget & _ & Hlen & _ & Hp).
  split_and!; [exact Hin|reflexivity|exact Hget|exact Hlen|].
  apply Hp. reflexivity.
Defined.

(** X5. An [upsert_item] with a non-negative price and quantity adds one to
    [__len__] when the identifier is new and leaves it as it is when the
    identifier is already stored. *)
Theorem upsert_item_len (s : Service) (item_id : str) (p : num) (q : Z)
    (md : option Metadata) :
  Py.le 0 p = true → 0 ≤ q →
  (len (upsert_item item_id p q md s).2).1
  = Returns match Dict.get (_items s) item_id with
            | Some _ => length (_items s)
            | None => S (length (_items s))
            end.
Proof.
  intros Hp%le_0_not_lt Hq. rewrite upsert_item_unfold, Hp.
  rewrite bool_decide_eq_false_2 by lia. unfold len, gets. simpl.
  by rewrite set_length.
Qed.

Lemma upsert_item_len_witness :
  Py.le 0 10 = true ∧ 0 ≤ 5 ∧
  (len (upsert_item [66%N] 10 5 None (exec [Upsert [65%N] 1 1 None])).2).1
  = Returns 2%nat ∧
  (len (upsert_item [65%N] 10 5 None (exec [Upsert [65%N] 1 1 None])).2).1
  = Returns 1%nat.
Proof.
  split; [reflexivity|]. split; [lia|]. split.
  - apply (upsert_item_len (exec [Upsert [65%N] 1 1 None]) [66%N] 10 5 None);
      [reflexivity|lia].
  - apply (upsert_item_len (exec [Upsert [65%N] 1 1 None]) [65%N] 10 5 None);
      [reflexivity|lia].
Defined.

(** X6. In a state reached from a fresh service without a NaN price, an
    [upsert_item] of an identifier that is not stored, with a non-negative
    price and quantity, followed by [remove_item] of the same identifier,
    gives back the item map and both indices as they were. *)
Theorem upsert_then_remove_restores (cs : list Call) (item_id : str)
    (p : num) (q : Z) (md : option Metadata) :
  prices_are_numbers cs →
  Dict.get (_items (exec cs)) item_id = None → Py.le 0 p = true → 0 ≤ q →
  (remove_item item_id (upsert_item item_id p q md (exec cs)).2).1
  = Returns () ∧
  same_inventory (exec cs)
    (remove_item item_id (upsert_item item_id p q md (exec cs)).2).2.
Proof.
  intros Hcs Hget Hp Hq.
  destruct (consistent_exec cs Hcs) as [[Hnd _ Hqi _ _ _ _] Hpi].
  destruct (le_number _ _ Hp) as [_ Hnum].
  rewrite upsert_item_unfold, (le_0_not_lt _ Hp).
  rewrite bool_decide_eq_false_2 by lia. simpl.
  rewrite remove_item_unfold. simpl. rewrite get_set_eq, Hget. simpl.
  split; [done|]. unfold same_inventory. simpl. split_and!.
  - by apply remove_set_absent.
  - apply discard_insort;
      [apply Hpi|by eapply index_ok_numbers|done|].
    rewrite (index_ok_ids price _ _ Hpi). by apply get_None.
  - apply discard_insort;
      [apply Hqi|by eapply index_ok_numbers|done|].
    rewrite (index_ok_ids qty_key _ _ Hqi). by apply get_None.
Qed.

Lemma upsert_then_remove_restores_witness :
  let cs := [Upsert [65%N] 10 5 None; Upsert [67%N] 20 2 None] in
  prices_are_numbers cs ∧
  Dict.get (_items (exec cs)) [66%N] = None ∧ Py.le 0 15 = true ∧ 0 ≤ 3 ∧
  same_inventory (exec cs)
    (remove_item [66%N] (upsert_item [66%N] 15 3 None (exec cs)).2).2.
Proof.
  intros cs.
  destruct (upsert_then_remove_restores cs [66%N] 15 3 None) as [_ Hsame];
    [reflexivity|vm_compute; reflexivity|reflexivity|lia|].
  split_and!; [reflexivity|vm_compute; reflexivity|reflexivity|lia|exact Hsame].
Defined.

(** X7. Reading does not write: [get_item], [__len__] and [__iter__] leave
    the whole state as it is, and each of the four cached queries leaves
    behind the state it found with its own cache exchanged: the item map,
    both indices and the caches of the other three queries are as
    before. *)
Theorem reads_leave_inventory (s : Service) :
  (∀ item_id, (get_item item_id s).2 = s) ∧
  (len s).2 = s ∧ (iter s).2 = s ∧
  (∀ low high, ∃ c,
     (range_query_quantity low high s).2
     = set_range_query_quantity_cache c s) ∧
  (∀ low high, ∃ c,
     (range_query_value low high s).2 = set_range_query_value_cache c s) ∧
  (∀ k, ∃ c, (top_k_by_price k s).2 = set_top_k_by_price_cache c s) ∧
  (∀ k, ∃ c, (top_k_by_quantity k s).2 = set_top_k_by_quantity_cache c s).
Proof.
  split_and!; try done.
  - intros item_id. unfold get_item. by destruct (Dict.get _ _).
  - intros low high. unfold range_query_quantity.
    destruct (cached_state Lru.same_bounds 128 range_query_quantity_cache
                set_range_query_quantity_cache (low, high)
                (range_query_quantity_body low high) s eq_refl)
      as (c & Hc & _); [by destruct s|by exists c].
  - intros low high. unfold range_query_value.
    destruct (cached_state Lru.same_bounds 128 range_query_value_cache
                set_range_query_value_cache (low, high)
                (range_query_value_body low high) s eq_refl)
      as (c & Hc & _); [by destruct s|by exists c].
  - intros k. unfold top_k_by_price.
    destruct (cached_state Lru.same_int 64 top_k_by_price_cache
                set_top_k_by_price_cache k (top_k_by_price_body k) s eq_refl)
      as (c & Hc & _); [by destruct s|by exists c].
  - intros k. unfold top_k_by_quantity.
    destruct (cached_state Lru.same_int 64 top_k_by_quantity_cache
                set_top_k_by_quantity_cache k (top_k_by_quantity_body k) s
                eq_refl)
      as (c & Hc & _); [by destruct s|by exists c].
Qed.

(** X8. A query repeated at once with the same arguments has the outcome
    of the first call, in any state and whatever the caches hold. *)
Theorem repeated_query_same_outcome (s : Service) :
  (∀ low high,
     (range_query_quantity low high (range_query_quantity low high s).2).1
     = (range_query_quantity low high s).1) ∧
  (∀ low high,
     (range_query_value low high (range_query_value low high s).2).1
     = (range_query_value low high s).1) ∧
  (∀ k, (top_k_by_price k (top_k_by_price k s).2).1 = (top_k_by_price k s).1) ∧
  (∀ k, (top_k_by_quantity k (top_k_by_quantity k s).2).1
        = (top_k_by_quantity k s).1).
Proof.
  split_and!; intros.
  - unfold range_query_quantity.
    apply (cached_repeat _ 128); [apply same_bounds_refl|lia|done|done].
  - unfold range_query_value.
    apply (cached_repeat _ 128); [apply same_bounds_refl|lia|done|done].
  - unfold top_k_by_price.
    apply (cached_repeat _ 64); [apply same_int_refl|lia|done|done].
  - unfold top_k_by_quantity.
    apply (cached_repeat _ 64); [apply same_int_refl|lia|done|done].
Qed.

Section cache_bound.

Lemma caches_bounded_empty s :
  range_query_quantity_cache s = [] → range_query_value_cache s = [] →
  top_k_by_price_cache s = [] → top_k_by_quantity_cache s = [] →
  caches_bounded s.
Proof.
  unfold caches_bounded, cache_bounded. intros -> -> -> ->. simpl.
  split_and!; try lia; constructor.
Qed.

Lemma bounds_cache_bounded {V} maxsize
    (cache : Service → list ((num * num) * V)) set_cache k body s :
  (body s).2 = s → (∀ c, cache (set_cache c s) = c) →
  cache_bounded Lru.same_bounds maxsize (cache s) →
  cache_bounded Lru.same_bounds maxsize
    (cache (Lru.cached Lru.same_bounds maxsize cache set_cache k body s).2).
Proof.
  apply cached_bounded;
    [apply same_bounds_refl|apply same_bounds_sym|apply same_bounds_trans].
Qed.

Lemma int_cache_bounded {V} maxsize
    (cache : Service → list (Z * V)) set_cache k body s :
  (body s).2 = s → (∀ c, cache (set_cache c s) = c) →
  cache_bounded Lru.same_int maxsize (cache s) →
  cache_bounded Lru.same_int maxsize
    (cache (Lru.cached Lru.same_int maxsize cache set_cache k body s).2).
Proof.
  apply cached_bounded;
    [apply same_int_refl|apply same_int_sym|apply same_int_trans].
Qed.

Lemma caches_bounded_step s c : caches_bounded s → caches_bounded (step s c).
Proof.
  intros (H1 & H2 & H3 & H4). destruct c; simpl.
  - rewrite upsert_item_unfold. destruct (_ || _); [done|].
    by apply caches_bounded_empty.
  - rewrite remove_item_unfold. destruct (Dict.get _ _); [|done].
    by apply caches_bounded_empty.
  - unfold get_item. by destruct (Dict.get _ _).
  - unfold range_query_quantity, caches_bounded. split_and!.
    + by apply bounds_cache_bounded.
    + by rewrite (cached_other _ range_query_value_cache).
    + by rewrite (cached_other _ top_k_by_price_cache).
    + by rewrite (cached_other _ top_k_by_quantity_cache).
  - unfold range_query_value, caches_bounded. split_and!.
    + by rewrite (cached_other _ range_query_quantity_cache).
    + by apply bounds_cache_bounded.
    + by rewrite (cached_other _ top_k_by_price_cache).
    + by rewrite (cached_other _ top_k_by_quantity_cache).
  - unfold top_k_by_price, caches_bounded. split_and!.
    + by rewrite (cached_other _ range_query_quantity_cache).
    + by rewrite (cached_other _ range_query_value_cache).
    + by apply int_cache_bounded.
    + by rewrite (cached_other _ top_k_by_quantity_cache).
  - unfold top_k_by_quantity, caches_bounded. split_and!.
    + by rewrite (cached_other _ range_query_quantity_cache).
    + by rewrite (cached_other _ range_query_value_cache).
    + by rewrite (cached_other _ top_k_by_price_cache).
    + by apply int_cache_bounded.
  - done.
  - done.
Qed.
End cache_bound.

(** X9. In every state reached from a fresh service, the caches of the
    range queries hold at most 128 results and those of the top-K queries
    at most 64, with one result per argument list: no two entries of a
    cache are stored under the same arguments, nor under arguments that
    the cache takes for the same. *)
Theorem caches_stay_bounded (cs : list Call) : caches_bounded (exec cs).
Proof.
  unfold exec. induction cs as [|c cs IH] using rev_ind.
  - by apply caches_bounded_empty.
  - rewrite foldl_app. simpl. by apply caches_bounded_step.
Qed.

(** X10. In every state reached from a fresh service and for every
    [k >= 1], [top_k_by_quantity(k)] returns [k] pairs, or all of them when
    fewer than [k] items are stored; so does [top_k_by_price(k)], as long
    as no [upsert_item] was given a NaN. *)
Theorem top_k_length (cs : list Call) (k : Z) :
  1 ≤ k →
  (∃ rq, (top_k_by_quantity k (exec cs)).1 = Returns rq ∧
     length rq = (Z.to_nat k `min` length (_items (exec cs)))%nat) ∧
  (prices_are_numbers cs →
   ∃ rp, (top_k_by_price k (exec cs)).1 = Returns rp ∧
     length rp = (Z.to_nat k `min` length (_items (exec cs)))%nat).
Proof.
  intros Hk. pose proof (coherent_exec cs) as Hs.
  destruct (computed_directly_coherent _ Hs) as (_ & _ & -> & ->).
  destruct Hs as [Hnd _ Hq _ _ _ _]. split.
  - destruct (top_k_facts qty_key _ _ k Hnd Hq) as (rq & Hrq & Hlq & _).
    exists rq. split; [done|by apply Hlq].
  - intros [_ Hp]%consistent_exec.
    destruct (top_k_facts price _ _ k Hnd Hp) as (rp & Hrp & Hlp & _).
    exists rp. split; [done|by apply Hlp].
Qed.

Lemma top_k_length_witness :
  let cs := [Upsert [65%N] 10 5 None; Upsert [66%N] 20 2 None;
             Upsert [67%N] 15 3 None] in
  1 ≤ 2 ∧ 1 ≤ 7 ∧ prices_are_numbers cs ∧
  ∃ r2 r7,
    (top_k_by_price 2 (exec cs)).1 = Returns r2 ∧ length r2 = 2%nat ∧
    (top_k_by_quantity 7 (exec cs)).1 = Returns r7 ∧ length r7 = 3%nat.
Proof.
  intros cs. split; [lia|]. split; [lia|]. split; [reflexivity|].
  destruct (top_k_length cs 2) as [_ Hp]; [lia|].
  destruct Hp as (r2 & H2 & Hl2); [reflexivity|].
  destruct (top_k_length cs 7) as [(r7 & H7 & Hl7) _]; [lia|].
  exists r2, r7. split_and!; [exact H2|exact Hl2|exact H7|exact Hl7].
Defined.

(** X11. In every state reached from a fresh service and for every [k],
    each pair that [top_k_by_quantity(k)] returns is an identifier with the
    record stored for it, and no identifier is returned twice; the same
    holds of [top_k_by_price(k)], as long as no [upsert_item] was given a
    NaN. *)
Theorem top_k_items_stored (cs : list Call) (k : Z) :
  (∃ rq, (top_k_by_quantity k (exec cs)).1 = Returns rq ∧
     (∀ kv, kv ∈ rq → (get_item kv.1 (exec cs)).1 = Returns kv.2) ∧
     NoDup rq.*1) ∧
  (prices_are_numbers cs →
   ∃ rp, (top_k_by_price k (exec cs)).1 = Returns rp ∧
     (∀ kv, kv ∈ rp → (get_item kv.1 (exec cs)).1 = Returns kv.2) ∧
     NoDup rp.*1).
Proof.
  pose proof (coherent_exec cs) as Hs.
  destruct (computed_directly_coherent _ Hs) as (_ & _ & -> & ->).
  destruct Hs as [Hnd _ Hq _ _ _ _]. split.
  - destruct (top_k_facts qty_key _ _ k Hnd Hq) as (rq & Hrq & _ & Hsq & Hdq & _).
    exists rq. split_and!; [done| |done].
    intros kv Hin. unfold get_item. by rewrite (Hsq kv Hin).
  - intros [_ Hp]%consistent_exec.
    destruct (top_k_facts price _ _ k Hnd Hp) as (rp & Hrp & _ & Hsp & Hdp & _).
    exists rp. split_and!; [done| |done].
    intros kv Hin. unfold get_item. by rewrite (Hsp kv Hin).
Qed.

Lemma top_k_items_stored_witness :
  let cs := [Upsert [65%N] 10 5 None; Upsert [66%N] 20 2 None;
             Upsert [65%N] 30 1 None] in
  prices_are_numbers cs ∧
  ∃ rp, (top_k_by_price 1 (exec cs)).1 = Returns rp ∧ NoDup rp.*1 ∧
    ∀ kv, kv ∈ rp → (get_item kv.1 (exec cs)).1 = Returns kv.2.
Proof.
  intros cs. split; [reflexivity|].
  destruct (top_k_items_stored cs 1) as [_ Hp].
  destruct Hp as (rp & Hrp & Hget & Hnd); [reflexivity|].
  exists rp. split_and!; [exact Hrp|exact Hnd|exact Hget].
Defined.

(** X12. In every state reached from a fresh service and for every [k],
    the items that [top_k_by_quantity(k)] returns are the top ones: no
    stored item left out of the result has a higher quantity than an item
    in it.  Likewise for [top_k_by_price(k)] and prices, as long as no
    [upsert_item] was given a NaN. *)
Theorem top_k_dominates (cs : list Call) (k : Z) :
  (∃ rq, (top_k_by_quantity k (exec cs)).1 = Returns rq ∧
     dominates qty_key rq (_items (exec cs))) ∧
  (prices_are_numbers cs →
   ∃ rp, (top_k_by_price k (exec cs)).1 = Returns rp ∧
     dominates price rp (_items (exec cs))).
Proof.
  pose proof (coherent_exec cs) as Hs.
  destruct (computed_directly_coherent _ Hs) as (_ & _ & -> & ->).
  destruct Hs as [Hnd _ Hq _ _ _ _]. split.
  - destruct (top_k_facts qty_key _ _ k Hnd Hq) as (rq & Hrq & _ & _ & _ & Hdq & _).
    by exists rq.
  - intros [_ Hp]%consistent_exec.
    destruct (top_k_facts price _ _ k Hnd Hp) as (rp & Hrp & _ & _ & _ & Hdp & _).
    by exists rp.
Qed.

Lemma top_k_dominates_witness :
  let cs := [Upsert [65%N] 10 5 None; Upsert [66%N] 20 2 None;
             Upsert [67%N] 15 3 None] in
  prices_are_numbers cs ∧
  ∃ rp, (top_k_by_price 2 (exec cs)).1 = Returns rp ∧
    dominates price rp (_items (exec cs)).
Proof.
  intros cs. split; [reflexivity|].
  destruct (top_k_dominates cs 2) as [_ Hp]. apply Hp. reflexivity.
Defined.

(** X13. What the range queries compute, whatever the identifiers are.
    In every state reached from a fresh service without a NaN price, and
    for bounds that are numbers, take the stored items whose price is at
    least [low] and either below [high], or equal to [high] with an
    identifier that does not compare greater than [chr(0x10ffff)].
    [range_query_quantity(low, high)] returns the sum of their quantities.
    [range_query_value(low, high)] adds their products [price * qty] to
    [0.0] one after the other, in ascending order of price and identifier,
    each sum rounded to a [float], and returns the last sum, or raises
    [OverflowError] where an [int] is too large for a [float]. *)
Theorem range_queries_exact (cs : list Call) (low high : num) :
  prices_are_numbers cs → Py.isnan low = false → Py.isnan high = false →
  (range_query_quantity low high (exec cs)).1
  = Returns (total_qty (filter (scanned low high) (_items (exec cs)))) ∧
  ∃ r, r ≡ₚ filter (scanned low high) (_items (exec cs)) ∧ by_price r ∧
    (range_query_value low high (exec cs)).1
    = added_up Py.float_zero (value_terms r).
Proof.
  intros Hcs Hlow Hhigh. pose proof (consistent_exec cs Hcs) as Hs.
  pose proof Hs as [Hc _].
  destruct (computed_directly_coherent _ Hc) as (-> & -> & _).
  destruct (price_range_scanned _ low high Hs Hlow Hhigh)
    as (r & Hr & Hperm & Hsub & Hsorted).
  destruct Hc as [Hnd _ _ _ _ _ _].
  unfold range_query_quantity_body, range_query_value_body. simpl.
  rewrite Hr, accumulate_qty, accumulate_value by done. split.
  - by rewrite Z.add_0_l, (total_qty_permutation _ _ Hperm).
  - by exists r.
Qed.

Lemma range_queries_exact_witness :
  let cs := [Upsert [66%N] 20 2 None; Upsert [65%N] 10 5 None;
             Upsert [1114111%N; 97%N] 20 4 None] in
  prices_are_numbers cs ∧ Py.isnan 10 = false ∧ Py.isnan 20 = false ∧
  (range_query_quantity 10 20 (exec cs)).1 = Returns 7 ∧
  (range_query_value 10 20 (exec cs)).1
  = added_up Py.float_zero [(Int 10, Int 5); (Int 20, Int 2)].
Proof.
  intros cs.
  destruct (range_queries_exact cs 10 20) as [Hq _]; [reflexivity..|].
  split_and!; [reflexivity..| |vm_compute; reflexivity].
  rewrite Hq. vm_compute. reflexivity.
Defined.

(** X14. In every state reached from a fresh service without a NaN price,
    and for bounds that are numbers, [range_query_quantity] never counts
    an item outside the price interval: it returns a value between 0 and
    the sum over all stored items with a price in [[low, high]], which is
    what the reference returns.  For [high < low] it returns 0 and
    [range_query_value] returns [0.0]. *)
Theorem range_queries_never_overcount (cs : list Call) (low high : num) :
  prices_are_numbers cs → Py.isnan low = false → Py.isnan high = false →
  ∃ vq vref,
    (range_query_quantity low high (exec cs)).1 = Returns vq ∧
    (Inventory.range_query_quantity low high (ref_exec cs)).1 = Returns vref ∧
    0 ≤ vq ≤ vref ∧
    (Py.lt high low = true →
       vq = 0 ∧
       (range_query_value low high (exec cs)).1 = Returns Py.float_zero).
Proof.
  intros Hcs Hlow Hhigh. pose proof (consistent_exec cs Hcs) as Hs.
  pose proof Hs as [Hc _].
  destruct (computed_directly_coherent _ Hc) as (-> & -> & _).
  destruct (price_range_scanned _ low high Hs Hlow Hhigh)
    as (r & Hr & Hperm & Hsub & Hsorted).
  pose proof Hc as [Hnd Hvalid _ _ _ _ _].
  unfold range_query_quantity_body, range_query_value_body. simpl.
  rewrite Hr, accumulate_qty, accumulate_value by done.
  unfold Inventory.range_query_quantity, gets. simpl.
  rewrite ref_exec_items, reference_quantity.
  eexists _, _. split; [done|]. split; [done|].
  rewrite Z.add_0_l, (total_qty_permutation _ _ Hperm). split.
  - apply total_qty_filter_le; [apply scanned_priced_within|].
    eapply Forall_impl; [exact Hvalid|]. by intros kv [_ ?].
  - intros Hlt. rewrite scanned_empty in Hperm |- * by done.
    apply Permutation_nil_r in Hperm as ->. done.
Qed.

Lemma range_queries_never_overcount_witness :
  let cs := [Upsert [65%N] 10 5 None; Upsert [1114111%N; 97%N] 15 2 None] in
  prices_are_numbers cs ∧ Py.isnan 15 = false ∧ Py.isnan 10 = false ∧
  Py.lt 10 15 = true ∧
  (range_query_quantity 15 10 (exec cs)).1 = Returns 0 ∧
  (range_query_value 15 10 (exec cs)).1 = Returns Py.float_zero.
Proof.
  intros cs.
  destruct (range_queries_never_overcount cs 15 10)
    as (vq & vref & Hq & _ & _ & Hempty); [reflexivity..|].
  destruct Hempty as [-> Hv]; [reflexivity|].
  split_and!; [reflexivity..|exact Hq|exact Hv].
Defined.

(** X15. Where no stored identifier compares greater than [chr(0x10ffff)]
    and no price is a NaN, [range_query_quantity] of the service returns,
    for bounds that are numbers, what [range_query_quantity] of the
    reference [Inventory] returns after the same calls. *)
Theorem range_queries_match_reference (cs : list Call) (low high : num) :
  prices_are_numbers cs → Py.isnan low = false → Py.isnan high = false →
  bounded_ids (_items (exec cs)) →
  (range_query_quantity low high (exec cs)).1
  = (Inventory.range_query_quantity low high (ref_exec cs)).1.
Proof.
  intros Hcs Hlow Hhigh Hbound. pose proof (consistent_exec cs Hcs) as Hs.
  pose proof Hs as [Hc _].
  destruct (computed_directly_coherent _ Hc) as (-> & _).
  destruct (price_range_scanned _ low high Hs Hlow Hhigh)
    as (r & Hr & Hperm & Hsub & Hsorted).
  destruct Hc as [Hnd _ _ _ _ _ _].
  unfold range_query_quantity_body. simpl.
  rewrite Hr, accumulate_qty by done.
  unfold Inventory.range_query_quantity, gets. simpl.
  rewrite ref_exec_items, reference_quantity. f_equal.
  by rewrite Z.add_0_l, (total_qty_permutation _ _ Hperm), scanned_bounded.
Qed.

Lemma range_queries_match_reference_witness :
  let cs := [Upsert [65%N] 10 5 None; Upsert [66%N] 20 2 None;
             Upsert [67%N] 15 3 None] in
  prices_are_numbers cs ∧ Py.isnan 10 = false ∧ Py.isnan 15 = false ∧
  bounded_ids (_items (exec cs)) ∧
  (range_query_quantity 10 15 (exec cs)).1
  = (Inventory.range_query_quantity 10 15 (ref_exec cs)).1.
Proof.
  intros cs.
  assert (bounded_ids (_items (exec cs))) as Hbound.
  { apply (bool_decide_unpack _). vm_compute. exact I. }
  split_and!; [reflexivity..|exact Hbound|].
  apply (range_queries_match_reference cs 10 15); [reflexivity..|exact Hbound].
Defined.

(** X16. After the same calls, the service and the reference [Inventory]
    answer [upsert_item], [remove_item], [get_item], [__len__] and
    [__iter__] alike: same result, same exception. *)
Theorem reference_agrees (cs : list Call) :
  (∀ item_id p q md,
     (upsert_item item_id p q md (exec cs)).1
     = (Inventory.upsert_item item_id p q md (ref_exec cs)).1) ∧
  (∀ item_id,
     (remove_item item_id (exec cs)).1
     = (Inventory.remove_item item_id (ref_exec cs)).1) ∧
  (∀ item_id,
     (get_item item_id (exec cs)).1
     = (Inventory.get_item item_id (ref_exec cs)).1) ∧
  (len (exec cs)).1 = (Inventory.len (ref_exec cs)).1 ∧
  (iter (exec cs)).1 = (Inventory.iter (ref_exec cs)).1.
Proof.
  pose proof (ref_exec_items cs) as Hitems. split_and!.
  - intros item_id p q md. rewrite upsert_item_unfold.
    unfold Inventory.upsert_item. by destruct (_ || _).
  - intros item_id. rewrite remove_item_unfold.
    unfold Inventory.remove_item. rewrite Hitems.
    by destruct (Dict.get _ _).
  - intros item_id. unfold get_item, Inventory.get_item. rewrite Hitems.
    by destruct (Dict.get _ _).
  - unfold len, Inventory.len, gets. simpl. by rewrite Hitems.
  - unfold iter, Inventory.iter, gets. simpl. by rewrite Hitems.
Qed.

(** X17. [__iter__] lists the items in insertion order. In a state reached
    from a fresh service, after a valid [upsert_item] it lists the items as
    before with the new record in the place of the old one when the
    identifier was stored, and with the new pair at the end when it was
    not; after [remove_item] it lists the items as before without the pair
    of that identifier. *)
Theorem iter_keeps_insertion_order (cs : list Call) (item_id : str)
    (p : num) (q : Z) (md : option Metadata) :
  Py.le 0 p = true → 0 ≤ q →
  (iter (upsert_item item_id p q md (exec cs)).2).1
  = Returns match Dict.get (_items (exec cs)) item_id with
            | Some _ =>
                with_record item_id (mkItem p q (default [] md))
                  (_items (exec cs))
            | None =>
                _items (exec cs) ++ [(item_id, mkItem p q (default [] md))]
            end ∧
  (iter (remove_item item_id (exec cs)).2).1
  = Returns (without_record item_id (_items (exec cs))).
Proof.
  intros Hp%le_0_not_lt Hq. destruct (coherent_exec cs) as [Hnd _ _ _ _ _ _].
  split.
  - rewrite upsert_item_unfold, Hp, bool_decide_eq_false_2 by lia.
    unfold iter, gets. simpl. f_equal. rewrite item_init_record.
    destruct (Dict.get (_items (exec cs)) item_id) as [old|] eqn:Hget.
    + by apply (set_fmap _ _ _ old).
    + by apply set_absent.
  - rewrite remove_item_unfold. unfold iter, gets, without_record.
    destruct (Dict.get (_items (exec cs)) item_id) as [old|] eqn:Hget; simpl.
    + f_equal. by apply remove_filter.
    + f_equal. rewrite <- remove_filter by done. by rewrite remove_absent.
Qed.

Lemma iter_keeps_insertion_order_witness :
  let cs := [Upsert [65%N] 10 5 None; Upsert [66%N] 20 2 None;
             Upsert [67%N] 15 3 None] in
  Py.le 0 7 = true ∧ 0 ≤ 1 ∧
  (iter (upsert_item [65%N] 7 1 None (exec cs)).2).1
  = Returns [([65%N], mkItem 7 1 []); ([66%N], mkItem 20 2 []);
             ([67%N], mkItem 15 3 [])] ∧
  (iter (remove_item [66%N] (exec cs)).2).1
  = Returns [([65%N], mkItem 10 5 []); ([67%N], mkItem 15 3 [])].
Proof.
  intros cs. split; [reflexivity|]. split; [lia|].
  destruct (iter_keeps_insertion_order cs [65%N] 7 1 None) as [Hup _];
    [reflexivity|lia|].
  destruct (iter_keeps_insertion_order cs [66%N] 7 1 None) as [_ Hrm];
    [reflexivity|lia|].
  split; [exact Hup|exact Hrm].
Defined.

(** X18. The reference [Inventory], in any state and for any [k]:
    [top_k_by_quantity(k)] returns [k] stored pairs, or all of them when
    fewer are stored, and none for [k <= 0]; their quantities never ascend;
    and pairs of equal quantity come in the order of the item map, that is,
    in insertion order.  Likewise for [top_k_by_price(k)] and prices, where
    no stored price is a NaN. *)
Theorem reference_top_k (s : Inventory.Inventory) (k : Z) :
  (∃ rq,
     (Inventory.top_k_by_quantity k s).1 = Returns (Some rq) ∧
     length rq = (Z.to_nat k `min` length (Inventory._items s))%nat ∧
     StronglySorted (λ a b, qty b.2 ≤ qty a.2) rq ∧
     rq ⊆ Inventory._items s ∧
     stable qty_key rq (Inventory._items s)) ∧
  (no_nan_price (Inventory._items s) →
   ∃ rp,
     (Inventory.top_k_by_price k s).1 = Returns (Some rp) ∧
     length rp = (Z.to_nat k `min` length (Inventory._items s))%nat ∧
     StronglySorted (λ a b, Py.le (price b.2) (price a.2) = true) rp ∧
     rp ⊆ Inventory._items s ∧
     stable price rp (Inventory._items s)).
Proof.
  split.
  - destruct (nlargest_facts (λ kv : str * Item, qty_key kv.2) k
                (Inventory._items s)) as (rq & Hrq & Hlq & Hsq & Hiq & Htq).
    { by apply Forall_forall. }
    exists rq. split_and!; [by rewrite <- Hrq|done| |done..].
    eapply sorted_weaken; [|exact Hsq]. intros a b _ _. simpl.
    unfold qty_key. rewrite le_Int. apply bool_decide_eq_true.
  - intros Hnum.
    destruct (nlargest_facts (λ kv : str * Item, price kv.2) k
                (Inventory._items s) Hnum) as (rp & Hrp & Hlp & Hsp & Hip & Htp).
    exists rp. split_and!; [by rewrite <- Hrp|done..].
Qed.

Lemma reference_top_k_witness :
  let s := ref_exec [Upsert [65%N] 10 5 None; Upsert [66%N] 20 2 None;
                     Upsert [67%N] 10 9 None] in
  no_nan_price (Inventory._items s) ∧
  ∃ rp, (Inventory.top_k_by_price 3 s).1 = Returns (Some rp) ∧
    stable price rp (Inventory._items s) ∧
    rp = [([66%N], mkItem 20 2 []); ([65%N], mkItem 10 5 []);
          ([67%N], mkItem 10 9 [])].
Proof.
  intros s.
  assert (no_nan_price (Inventory._items s)) as Hnum.
  { apply (bool_decide_unpack _). vm_compute. exact I. }
  split; [exact Hnum|].
  destruct (reference_top_k s 3) as [_ Hp].
  destruct (Hp Hnum) as (rp & Hrp & _ & _ & _ & Hst).
  exists rp. split_and!; [exact Hrp|exact Hst|].
  assert (Returns (Some rp)
          = Returns (Some [([66%N], mkItem 20 2 []); ([65%N], mkItem 10 5 []);
                           ([67%N], mkItem 10 9 [])])) as [= ->]; [|done].
  rewrite <- Hrp. vm_compute. reflexivity.
Defined.

Section frame.

Lemma upsert_get_other item_id other p q md s :
  other ≠ item_id →
  Dict.get (_items (upsert_item item_id p q md s).2) other
  = Dict.get (_items s) other.
Proof.
  intros Hne. rewrite upsert_item_unfold. destruct (_ || _); [done|].
  simpl. by apply get_set_ne.
Qed.

Lemma remove_get_other item_id other s :
  other ≠ item_id →
  Dict.get (_items (remove_item item_id s).2) other = Dict.get (_items s) other.
Proof.
  intros Hne. rewrite remove_item_unfold.
  destruct (Dict.get (_items s) item_id); [|done].
  simpl. by apply get_remove_ne.
Qed.

(** A mutation of one identifier leaves the index entries of the others as
    they are, whatever the indices hold. *)
Lemma upsert_entries_other item_id other p q md s :
  other ≠ item_id →
  entries_for (_price_index (upsert_item item_id p q md s).2) other
  = entries_for (_price_index s) other ∧
  entries_for (_quantity_index (upsert_item item_id p q md s).2) other
  = entries_for (_quantity_index s) other.
Proof.
  intros Hne. rewrite upsert_item_unfold.
  destruct (_ || _), (Dict.get (_items s) item_id) as [old|]; simpl;
    rewrite ?entries_for_insort, ?entries_for_discard by done; done.
Qed.

Lemma remove_entries_other item_id other s :
  other ≠ item_id →
  entries_for (_price_index (remove_item item_id s).2) other
  = entries_for (_price_index s) other ∧
  entries_for (_quantity_index (remove_item item_id s).2) other
  = entries_for (_quantity_index s) other.
Proof.
  intros Hne. rewrite remove_item_unfold.
  destruct (Dict.get (_items s) item_id) as [old|]; simpl;
    rewrite ?entries_for_discard by done; done.
Qed.
End frame.

(** X19. In a state reached from a fresh service, [upsert_item] and
    [remove_item] of one identifier, returning or raising, leave the index
    entries of every other identifier as they are, in both indices. *)
Theorem other_entries_untouched (cs : list Call) (item_id other : str)
    (p : num) (q : Z) (md : option Metadata) :
  other ≠ item_id →
  entries_for (_price_index (upsert_item item_id p q md (exec cs)).2) other
  = entries_for (_price_index (exec cs)) other ∧
  entries_for (_quantity_index (upsert_item item_id p q md (exec cs)).2) other
  = entries_for (_quantity_index (exec cs)) other ∧
  entries_for (_price_index (remove_item item_id (exec cs)).2) other
  = entries_for (_price_index (exec cs)) other ∧
  entries_for (_quantity_index (remove_item item_id (exec cs)).2) other
  = entries_for (_quantity_index (exec cs)) other.
Proof.
  intros Hne.
  destruct (upsert_entries_other item_id other p q md (exec cs) Hne).
  destruct (remove_entries_other item_id other (exec cs) Hne).
  done.
Qed.

Lemma other_entries_untouched_witness :
  let cs := [Upsert [65%N] 10 5 None; Upsert [66%N] 20 2 None] in
  [66%N] ≠ [65%N] ∧
  entries_for (_price_index (upsert_item [65%N] 30 1 None (exec cs)).2) [66%N]
  = [(Int 20, [66%N])] ∧
  entries_for (_quantity_index (remove_item [65%N] (exec cs)).2) [66%N]
  = [(Int 2, [66%N])].
Proof.
  intros cs.
  destruct (other_entries_untouched cs [65%N] [66%N] 30 1 None)
    as (Hp & _ & _ & Hq); [done|].
  split; [done|]. rewrite Hp, Hq. vm_compute. done.
Defined.

(** X20. No stale answers: in every state reached from a fresh service,
    by whatever mix of mutations and queries, each of the four cached
    queries answers with what its body computes from the current item map
    and indices. *)
Theorem cached_answers_never_stale (cs : list Call) :
  computed_directly (exec cs).
Proof. apply computed_directly_coherent, coherent_exec. Qed.

(** X21. Index/store consistency.  After any finite sequence of calls on
    a fresh service (upserts and removes, failing or not, with queries in
    between), every stored identifier has exactly one entry in the quantity
    index, keyed by the stored quantity; and, as long as no [upsert_item]
    was given a NaN, exactly one entry in the price index, keyed by the
    stored price. *)
Theorem index_store_consistency (cs : list Call) (item_id : str)
    (item : Item) :
  Dict.get (_items (exec cs)) item_id = Some item →
  entries_for (_quantity_index (exec cs)) item_id
  = [(Int (qty item), item_id)] ∧
  (prices_are_numbers cs →
     entries_for (_price_index (exec cs)) item_id = [(price item, item_id)]).
Proof.
  intros Hget. destruct (coherent_exec cs) as [Hnd _ Hq _ _ _ _]. split.
  - by apply (entries_for_index qty_key _ (_items (exec cs))).
  - intros [_ Hp]%consistent_exec.
    by apply (entries_for_index price _ (_items (exec cs))).
Qed.

Lemma index_store_consistency_witness :
  let cs := [Upsert [65%N] 10 5 None; Upsert [66%N] 10 7 None;
             Remove [67%N]; Upsert [65%N] 12 5 None; Upsert [66%N] 3 (-1) None] in
  Dict.get (_items (exec cs)) [65%N] = Some (mkItem 12 5 []) ∧
  prices_are_numbers cs ∧
  entries_for (_price_index (exec cs)) [65%N] = [(Int 12, [65%N])] ∧
  entries_for (_quantity_index (exec cs)) [65%N] = [(Int 5, [65%N])].
Proof.
  intros cs.
  assert (Dict.get (_items (exec cs)) [65%N] = Some (mkItem 12 5 [])) as Hget
    by (vm_compute; reflexivity).
  destruct (index_store_consistency cs [65%N] (mkItem 12 5 []) Hget)
    as [Hq Hp].
  split_and!; [exact Hget|reflexivity|apply Hp; reflexivity|exact Hq].
Defined.

(** X22. Idempotence.  In a state reached from a fresh service without a
    NaN price that stores an identifier with price [p], quantity [q] and
    metadata [m], [upsert_item] with the same identifier, [p], [q] and [m]
    returns and leaves the item map, the price index and the quantity index
    as they were, and every query method ([get_item], the range queries,
    the top-K queries, [len]) answers as before. *)
Theorem upsert_idempotent (s : Service) (item_id : str) (item : Item)
    (md : option Metadata) :
  reachable_with_numbers s →
  Dict.get (_items s) item_id = Some item →
  default [] md = metadata item →
  (upsert_item item_id (price item) (qty item) md s).1 = Returns () ∧
  _items (upsert_item item_id (price item) (qty item) md s).2 = _items s ∧
  _price_index (upsert_item item_id (price item) (qty item) md s).2
  = _price_index s ∧
  _quantity_index (upsert_item item_id (price item) (qty item) md s).2
  = _quantity_index s ∧
  same_answers s (upsert_item item_id (price item) (qty item) md s).2.
Proof.
  intros Hs%reachable_consistent Hget Hmd.
  pose proof Hs as [Hc Hpi].
  pose proof (coherent_upsert item_id (price item) (qty item) md s Hc) as Hs'.
  apply computed_directly_coherent in Hs' as (Hq' & Hv' & Hp' & Hk').
  pose proof (computed_directly_coherent s Hc) as (Hq & Hv & Hp & Hk).
  revert Hq' Hv' Hp' Hk'. rewrite upsert_item_unfold.
  destruct (coherent_valid _ _ _ Hc Hget) as [Hp0 Hq0].
  pose proof Hc as [Hnd _ Hqi _ _ _ _].
  rewrite Hp0, bool_decide_eq_false_2 by lia. simpl. rewrite Hget.
  assert (Item_init (price item) (qty item) (Some (Py.or_empty md)) = item)
    as ->.
  { rewrite item_init_record, Hmd. by destruct item. }
  rewrite (set_same _ _ _ Hget).
  assert (∀ key index, index_ok key index (_items s) →
            Bisect.insort (discard_entry index (key item, item_id))
              (key item, item_id) = index) as Hback.
  { intros key index Hok. apply insort_discard.
    - apply Hok.
    - by eapply index_ok_numbers.
    - by rewrite (index_ok_ids key _ _ Hok).
    - apply (index_ok_elem key _ _ _ Hnd Hok). by exists item. }
  pose proof (Hback qty_key _ Hqi) as Hbq. unfold qty_key in Hbq.
  rewrite (Hback price _ Hpi), Hbq.
  intros Hq' Hv' Hp' Hk'. split_and!; try done.
  unfold same_answers. split_and!; try done.
  - intros k. unfold get_item. simpl.
    destruct (Dict.get (_items s) k); reflexivity.
  - intros low high. by rewrite Hq', Hq.
  - intros low high. by rewrite Hv', Hv.
  - intros k. by rewrite Hp', Hp.
  - intros k. by rewrite Hk', Hk.
Qed.

Lemma upsert_idempotent_witness :
  let s := exec [Upsert [65%N] 10 5 None; Upsert [66%N] 10 2 None;
                 TopKByPrice 1; Upsert [67%N] 15 0 (Some [([99%N], [114%N])])] in
  reachable_with_numbers s ∧
  Dict.get (_items s) [66%N] = Some (mkItem 10 2 []) ∧
  _price_index (upsert_item [66%N] 10 2 None s).2 = _price_index s ∧
  _quantity_index (upsert_item [66%N] 10 2 None s).2 = _quantity_index s ∧
  same_answers s (upsert_item [66%N] 10 2 None s).2.
Proof.
  intros s.
  assert (reachable_with_numbers s) as Hs
    by (eexists; split; [|reflexivity]; reflexivity).
  assert (Dict.get (_items s) [66%N] = Some (mkItem 10 2 [])) as Hget
    by (vm_compute; reflexivity).
  destruct (upsert_idempotent s [66%N] (mkItem 10 2 []) None Hs Hget eq_refl)
    as (_ & _ & Hp & Hq & Hsame).
  by split_and!.
Defined.

(** X23. No orphaned index entries.  After any finite sequence of calls
    on a fresh service, every entry of the quantity index names a stored
    identifier and the index is as long as the item map, which is what
    [__len__] returns; as long as no [upsert_item] was given a NaN, the
    same holds of the price index. *)
Theorem no_orphaned_entries (cs : list Call) :
  (∀ e, e ∈ _quantity_index (exec cs) →
        is_Some (Dict.get (_items (exec cs)) e.2)) ∧
  length (_quantity_index (exec cs)) = length (_items (exec cs)) ∧
  (len (exec cs)).1 = Returns (length (_items (exec cs))) ∧
  (prices_are_numbers cs →
     (∀ e, e ∈ _price_index (exec cs) →
           is_Some (Dict.get (_items (exec cs)) e.2)) ∧
     length (_price_index (exec cs)) = length (_items (exec cs))).
Proof.
  destruct (coherent_exec cs) as [Hnd _ Hq _ _ _ _]. split_and!.
  - intros e He.
    apply (index_ok_elem qty_key _ (_items (exec cs))) in He
      as (item & Hget & _); [by eauto|done..].
  - by eapply index_ok_length.
  - done.
  - intros [_ Hp]%consistent_exec. split.
    + intros e He.
      apply (index_ok_elem price _ (_items (exec cs))) in He
        as (item & Hget & _); [by eauto|done..].
    + by eapply index_ok_length.
Qed.

Lemma no_orphaned_entries_witness :
  let cs := [Upsert [65%N] 10 5 None; Upsert [66%N] 20 2 None;
             Upsert [65%N] 30 1 None; Remove [67%N]] in
  prices_are_numbers cs ∧
  is_Some (Dict.get (_items (exec cs)) [66%N]) ∧
  length (_price_index (exec cs)) = length (_items (exec cs)).
Proof.
  intros cs. destruct (no_orphaned_entries cs) as (_ & _ & _ & Hp).
  destruct Hp as [Hin Hlen]; [reflexivity|].
  split_and!; [reflexivity| |exact Hlen].
  apply (Hin (Int 20, [66%N])). vm_compute. left.
Defined.

Section indexed.

Lemma elem_of_entries_for index (x : entry) :
  x ∈ entries_for index x.2 ↔ x ∈ index.
Proof. unfold entries_for. rewrite list_elem_of_filter. tauto. Qed.

(** Every stored item keeps its entry in the price index through a call,
    whatever the prices are. *)
Lemma indexed_step s c :
  coherent s →
  (∀ item_id item, Dict.get (_items s) item_id = Some item →
     (price item, item_id) ∈ _price_index s) →
  ∀ item_id item, Dict.get (_items (step s c)) item_id = Some item →
    (price item, item_id) ∈ _price_index (step s c).
Proof.
  intros [Hnd _ _ _ _ _ _] Hs item_id item.
  destruct (is_mutation c) eqn:Hmut.
  2:{ rewrite query_items, query_price_index by done. apply Hs. }
  destruct c as [id p q md|id| | | | | | |]; try done; simpl.
  - destruct (decide (item_id = id)) as [->|Hne].
    + rewrite upsert_item_unfold. destruct (_ || _); [apply Hs|]. simpl.
      rewrite get_set_eq. intros [= <-]. simpl.
      rewrite insort_perm. left.
    + rewrite upsert_get_other by done. intros Hget%Hs.
      apply (elem_of_entries_for _ (price item, item_id)). simpl.
      destruct (upsert_entries_other id item_id p q md s Hne) as [-> _].
      by apply (elem_of_entries_for _ (price item, item_id)).
  - destruct (decide (item_id = id)) as [->|Hne].
    + rewrite remove_item_unfold.
      destruct (Dict.get (_items s) id) as [old|] eqn:Hold; [|apply Hs].
      simpl. by rewrite get_remove_eq.
    + rewrite remove_get_other by done. intros Hget%Hs.
      apply (elem_of_entries_for _ (price item, item_id)). simpl.
      destruct (remove_entries_other id item_id s Hne) as [-> _].
      by apply (elem_of_entries_for _ (price item, item_id)).
Qed.

Lemma indexed_exec cs item_id item :
  Dict.get (_items (exec cs)) item_id = Some item →
  (price item, item_id) ∈ _price_index (exec cs).
Proof.
  revert item_id item. unfold exec.
  induction cs as [|c cs IH] using rev_ind; [done|].
  rewrite foldl_app. simpl. apply indexed_step; [|done].
  apply coherent_exec.
Qed.
End indexed.

(** X24. No stored item is missing from an index, whatever was stored:
    after any finite sequence of calls on a fresh service, NaN prices
    included, every stored identifier has an entry in the price index under
    its stored price, and one in the quantity index under its stored
    quantity. *)
Theorem stored_items_indexed (cs : list Call) (item_id : str) (item : Item) :
  (get_item item_id (exec cs)).1 = Returns item →
  (price item, item_id) ∈ _price_index (exec cs) ∧
  (Int (qty item), item_id) ∈ _quantity_index (exec cs).
Proof.
  unfold get_item.
  destruct (Dict.get (_items (exec cs)) item_id) as [item'|] eqn:Hget; [|done].
  intros [= ->]. split; [by apply indexed_exec|].
  destruct (coherent_exec cs) as [Hnd _ Hq _ _ _ _].
  apply (index_ok_elem qty_key _ _ _ Hnd Hq). by exists item.
Qed.

Lemma stored_items_indexed_witness :
  let cs := [Upsert [65%N] 10 5 None; Upsert [78%N] (Nan 0) 1 None;
             Upsert [78%N] 5 1 None; Upsert [66%N] (Nan 1) 2 None] in
  (get_item [78%N] (exec cs)).1 = Returns (mkItem 5 1 []) ∧
  (Int 5, [78%N]) ∈ _price_index (exec cs) ∧
  (get_item [66%N] (exec cs)).1 = Returns (mkItem (Nan 1) 2 []) ∧
  (Nan 1, [66%N]) ∈ _price_index (exec cs).
Proof.
  intros cs.
  assert ((get_item [78%N] (exec cs)).1 = Returns (mkItem 5 1 [])) as HN
    by (vm_compute; reflexivity).
  assert ((get_item [66%N] (exec cs)).1 = Returns (mkItem (Nan 1) 2 [])) as HB
    by (vm_compute; reflexivity).
  destruct (stored_items_indexed cs [78%N] _ HN) as [HpN _].
  destruct (stored_items_indexed cs [66%N] _ HB) as [HpB _].
  split_and!; [exact HN|exact HpN|exact HB|exact HpB].
Defined.

Section single.

Lemma price_range_single s (p : num) item_id :
  _price_index s = [(p, item_id)] →
  Py.str_ltb Py.chr_0x10ffff item_id = false →
  price_range s p p = [(p, item_id)].
Proof.
  intros Hidx Hid. unfold price_range.
  rewrite Hidx. unfold Bisect.bisect_left, Bisect.bisect_right.
  cbn [length Bisect.loop]. rewrite !bool_decide_eq_true_2 by lia.
  change ((0 + 1) / 2)%nat with 0%nat. cbn [lookup list_lookup].
  rewrite tuple_ltb_low. cbn [fst]. rewrite lt_irrefl.
  unfold Py.tuple_ltb. cbn [fst snd]. rewrite same_refl.
  case_bool_decide as Heq.
  - done.
  - by rewrite Hid.
Qed.
End single.

(** X25. The total of [range_query_value] is a [float], that of the
    reference an [int] where the prices are.  With one item stored, of an
    [int] price [p >= 0], a quantity [q >= 0] and an identifier that does
    not compare greater than [chr(0x10ffff)], [range_query_value(p, p)] of
    the service returns [0.0 + float(p * q)], the product rounded to the
    nearest [float], and raises [OverflowError] where the product is too
    large for a [float]; the reference returns the exact product. *)
Theorem value_of_single_item (item_id : str) (p q : Z) (md : option Metadata) :
  0 ≤ p → 0 ≤ q → Py.str_ltb Py.chr_0x10ffff item_id = false →
  (range_query_value p p (exec [Upsert item_id p q md])).1
  = match Py.as_double (Int (p * q)) with
    | Returns f => Returns (Float (SFadd 53 1024 (S754_zero false) f))
    | Raises e => Raises e
    end ∧
  (Inventory.range_query_value p p (ref_exec [Upsert item_id p q md])).1
  = Returns (Some (Int (p * q))).
Proof.
  intros Hp Hq Hid. split.
  - unfold exec. cbn [foldl step]. rewrite upsert_item_unfold.
    rewrite lt_Int, !bool_decide_eq_false_2 by lia. cbn [orb snd].
    unfold range_query_value, Lru.cached. cbn [range_query_value_cache].
    cbn [Lru.lookup]. unfold range_query_value_body.
    rewrite (price_range_single _ (Int p) item_id) by done.
    cbn [_items init Dict.set accumulate]. unfold subscript.
    cbn [Dict.get]. rewrite bool_decide_eq_true_2 by done.
    unfold plus_value, Item_init. cbn [price qty].
    unfold Py.mul, Py.add, Py.arith, Py.float_zero.
    unfold Py.as_double.
    by destruct (binary_normalize 53 1024 (p * q) 0 false).
  - unfold ref_exec. cbn [foldl ref_step]. unfold Inventory.upsert_item.
    rewrite lt_Int, !bool_decide_eq_false_2 by lia. cbn [orb].
    unfold Inventory.range_query_value, modify, gets. cbn [snd fst].
    cbn [Inventory._items Inventory.init Dict.set].
    unfold Inventory.in_range, Dict.values. rewrite fmap_cons. cbn [snd].
    rewrite filter_cons_True.
    2:{ unfold Inventory.Item_dataclass. cbn [price].
        rewrite le_Int, bool_decide_eq_true_2 by lia. done. }
    cbn. done.
Qed.

Lemma value_of_single_item_witness :
  0 ≤ 2 ^ 53 + 1 ∧ 0 ≤ 1 ∧ Py.str_ltb Py.chr_0x10ffff [65%N] = false ∧
  (range_query_value (2 ^ 53 + 1) (2 ^ 53 + 1)
     (exec [Upsert [65%N] (2 ^ 53 + 1) 1 None])).1
  = Returns (Float (S754_finite false 4503599627370496 1)) ∧
  (Inventory.range_query_value (2 ^ 53 + 1) (2 ^ 53 + 1)
     (ref_exec [Upsert [65%N] (2 ^ 53 + 1) 1 None])).1
  = Returns (Some (Int (2 ^ 53 + 1))).
Proof.
  destruct (value_of_single_item [65%N] (2 ^ 53 + 1) 1 None) as [Hs Hr];
    [lia|lia|reflexivity|].
  split_and!; [lia|lia|reflexivity| |].
  - rewrite Hs. vm_compute. reflexivity.
  - rewrite Hr. vm_compute. reflexivity.
Defined.
